(** * Phased-array sweep automation: a shallow embedding and its properties

    The development follows the Python sources of the repository:

    - [config.py]                             -> [Config], [default_config]
    - [lib/system_messages.py]                -> [SystemMessages]
    - [lib/hardware_interface.py]             -> [HardwareInterface]
    - [lib/array_controller.py]               -> [ArrayController]
    - [lib/chamber_controller.py]             -> [ChamberController]
    - [array_translation_rotation_prototype.py] -> [PatchRotation], [PatchLayout]

    Modelling conventions.

    - Python [int] is [Z].  In the model of a whole run a [float] is
      idealised as an exact number: [Q] where the code only adds, multiplies,
      compares and rounds (attenuation codes, the GHz strings of a sweep
      name), and [R] where it calls [math.sin] (the elevation of a sweep
      window); what a run sends and measures does not depend on rounding.
    - The three functions that compute or print numbers
      ([to_attenuation_code], [_calculate_sweep_angles],
      [_generate_sweep_name]) are modelled a second time in [Binary64], over
      IEEE 754 binary64 as CPython uses it ([Py64]): rounding to nearest,
      infinities, NaN, [OverflowError] and [ValueError] included.  The
      properties of these functions themselves are stated on [Binary64].
      [math.sin] is the C library's; its value is taken from a function the
      theorems quantify over.
    - Exceptions are values: a computation returns [Py.Ok v] or
      [Py.Raise e].  Stateful code runs in the monad [M], which threads a
      [State] (what has been written to the serial link, which measurements
      were requested, the fields of the controller objects) and keeps the
      state reached when an exception is raised.
    - Everything the program reads from outside is an oracle of [Env]: the
      random source, the wall clock, the serial link, the chamber software.
      Theorems quantify over every [Env].
    - [print] and [time.sleep] have no effect on what is computed and are
      left out, except in [print_patches_matrix], whose result is what it
      prints: there the printed lines are collected in a list.
    - Objects that are mutated through a list ([Patch]) live in a store and
      the list holds references to them. *)

From Stdlib Require Import ZArith QArith Qround Reals Psatz Lia String Ascii List DecimalString.
From Stdlib Require DecimalZ DecimalPos SpecFloat.
From stdpp Require Import base list strings gmap.
Import ListNotations.

(** ** The fragment of the Python runtime the sources rely on *)

Module Py.

Inductive exn : Set :=
| AttributeError
| KeyError
| TypeError
| IndexError
| ZeroDivisionError
| SerialException
| ChamberError
| ValueError
| OverflowError.

Inductive result (A : Type) : Type :=
| Ok (a : A)
| Raise (e : exn).
Arguments Ok {A} a.
Arguments Raise {A} e.

Definition rbind {A B} (r : result A) (k : A -> result B) : result B :=
  match r with
  | Ok a => k a
  | Raise e => Raise e
  end.

(** Values that are passed as keyword arguments to [str.format]. *)
Inductive value : Set :=
| VInt (z : Z)
| VStr (s : string)
| VBool (b : bool).

(** [str(z)] for an [int]. *)
Definition str_int (z : Z) : string := NilZero.string_of_int (Z.to_int z).

(** [str(v)], which is also what an empty format specification prints. *)
Definition str (v : value) : string :=
  match v with
  | VInt z => str_int z
  | VStr s => s
  | VBool true => "True"
  | VBool false => "False"
  end.

(** [int(v)] for the values the sources convert ([int(enable)]). *)
Definition int (v : value) : result Z :=
  match v with
  | VInt z => Ok z
  | VBool b => Ok (if b then 1 else 0)%Z
  | VStr _ => Raise TypeError
  end.

(** [s.replace(old, new)] for one-character [old] and [new]. *)
Fixpoint replace (old new : ascii) (s : string) : string :=
  match s with
  | EmptyString => EmptyString
  | String c s' =>
      String (if Ascii.eqb c old then new else c) (replace old new s')
  end.

(** The digits of [r / d] after the decimal point, at most [n] of them. *)
Fixpoint frac_digits (n : nat) (r d : Z) : list Z :=
  match n with
  | O => []
  | S n' => ((10 * r) / d)%Z :: frac_digits n' ((10 * r) mod d)%Z d
  end.

Fixpoint strip_zeros (ds : list Z) : list Z :=
  match ds with
  | [] => []
  | d :: ds' =>
      match strip_zeros ds' with
      | [] => if (d =? 0)%Z then [] else [d]
      | t => d :: t
      end
  end.

Definition digits_string (ds : list Z) : string :=
  fold_right (fun d s => append (str_int d) s) EmptyString ds.

(** [str(x)] for a [float], idealised: the exact decimal expansion of the
    rational, cut after 16 fractional digits, trailing zeros removed, at
    least one fractional digit.  For [f / 1000000000] with
    [10^5 <= f < 10^15] this is the text CPython prints. *)
Definition str_float (q : Q) : string :=
  let n := Qnum q in
  let d := Zpos (Qden q) in
  let a := Z.abs n in
  let frac := strip_zeros (frac_digits 16 (a mod d)%Z d) in
  append (if (n <? 0)%Z then "-" else EmptyString)
    (append (str_int (a / d)%Z)
       (append "." (match frac with [] => "0" | _ => digits_string frac end))).

(** [a / b] on [int]s (true division); [b] is a non-zero literal in the
    sources. *)
Definition truediv (a b : Z) : Q := (inject_Z a / inject_Z b)%Q.

(** [round(x)] for a [float]: the nearest integer, ties to the even one. *)
Definition round (q : Q) : Z :=
  let f := Qfloor q in
  match Qcompare (q - inject_Z f) (1 # 2) with
  | Lt => f
  | Gt => (f + 1)%Z
  | Eq => if Z.even f then f else (f + 1)%Z
  end.

(** [list(range(start, stop, step))]; [step = 0] (a [ValueError] in
    Python) does not occur in the sources and yields the empty list. *)
Definition range (start stop step : Z) : list Z :=
  if (0 <? step)%Z then
    map (fun k => (start + Z.of_nat k * step)%Z)
      (seq 0 (Z.to_nat ((stop - start + step - 1) / step)))
  else if (step <? 0)%Z then
    map (fun k => (start + Z.of_nat k * step)%Z)
      (seq 0 (Z.to_nat ((start - stop - step - 1) / (- step))))
  else [].

(** [l[i]]: negative indices count from the end, anything else out of
    range raises [IndexError]. *)
Definition index {A} (l : list A) (i : Z) : option nat :=
  let n := Z.of_nat (length l) in
  if ((0 <=? i) && (i <? n))%Z%bool then Some (Z.to_nat i)
  else if ((- n <=? i) && (i <? 0))%Z%bool then Some (Z.to_nat (n + i))
  else None.

Definition getitem {A} (l : list A) (i : Z) : result A :=
  match index l i with
  | Some k => match l !! k with Some a => Ok a | None => Raise IndexError end
  | None => Raise IndexError
  end.

(** [l[i] = a] *)
Definition setitem {A} (l : list A) (i : Z) (a : A) : result (list A) :=
  match index l i with
  | Some k => Ok (<[k := a]> l)
  | None => Raise IndexError
  end.

(** Keyword arguments of a call, in the order written. *)
Definition kwargs : Type := list (string * value).

Fixpoint kwarg (name : string) (kw : kwargs) : option value :=
  match kw with
  | [] => None
  | (n, v) :: kw' => if String.eqb n name then Some v else kwarg name kw'
  end.

(** A format string with named replacement fields only, as the command
    templates are documented: literal text and [{name}] fields. *)
Inductive piece : Set :=
| Lit (s : string)
| Field (name : string).

Definition template : Set := list piece.

(** [t.format] called with the keywords [kw]: a field whose name is not supplied raises
    [KeyError]; keywords that no field uses are ignored. *)
Fixpoint format (t : template) (kw : kwargs) : result string :=
  match t with
  | [] => Ok EmptyString
  | Lit s :: t' => rbind (format t' kw) (fun r => Ok (append s r))
  | Field n :: t' =>
      match kwarg n kw with
      | Some v => rbind (format t' kw) (fun r => Ok (append (str v) r))
      | None => Raise KeyError
      end
  end.

(** The text of a template used as it is, without [format]. *)
Definition source (t : template) : string :=
  fold_right
    (fun p s =>
       match p with
       | Lit l => append l s
       | Field n => append "{" (append n (append "}" s))
       end)
    EmptyString t.






(** [[f(x) for x in l]] where [f] may raise. *)
Fixpoint comprehension {A B} (f : A -> result B) (l : list A) : result (list B) :=
  match l with
  | [] => Ok []
  | x :: l' =>
      rbind (f x) (fun y => rbind (comprehension f l') (fun ys => Ok (y :: ys)))
  end.

(** Binding a keyword-only call against a signature: [required] are the
    parameters without default, [defaults] the ones with.  An unexpected
    keyword or a missing required parameter is a [TypeError]. *)
Definition bind_keywords
    (required : list string) (defaults : kwargs) (kw : kwargs) : result kwargs :=
  let known n :=
    existsb (String.eqb n) required || existsb (fun d => String.eqb n (fst d)) defaults in
  if negb (forallb (fun a => known (fst a)) kw) then Raise TypeError
  else if negb (forallb (fun n => match kwarg n kw with Some _ => true | None => false end) required)
  then Raise TypeError
  else Ok (kw ++ defaults).

End Py.

Notation "x <- c1 ;;; c2" := (Py.rbind c1 (fun x => c2))
  (at level 100, c1 at next level, right associativity).

(** ** Numbers as CPython has them: [int] and binary64 [float] *)

Module Py64.

(** A [float] is an IEEE 754 binary64 number ([prec = 53], [emax = 1024]);
    the operations are those of the specification of floating-point
    arithmetic in the Standard Library, which round to nearest, ties to
    even. *)
Definition float : Type := SpecFloat.spec_float.

Definition prec : Z := 53.
Definition emax : Z := 1024.

Definition nan : float := SpecFloat.S754_nan.
Definition infinity (negative : bool) : float := SpecFloat.S754_infinity negative.
Definition zero (negative : bool) : float := SpecFloat.S754_zero negative.

Definition sub (x y : float) : float := SpecFloat.SFsub prec emax x y.
Definition mul (x y : float) : float := SpecFloat.SFmul prec emax x y.
Definition div (x y : float) : float := SpecFloat.SFdiv prec emax x y.
Definition opp (x : float) : float := SpecFloat.SFopp x.

Definition is_nan (x : float) : bool :=
  match x with SpecFloat.S754_nan => true | _ => false end.

Definition is_inf (x : float) : bool :=
  match x with SpecFloat.S754_infinity _ => true | _ => false end.

Definition is_finite (x : float) : bool :=
  match x with
  | SpecFloat.S754_zero _ | SpecFloat.S754_finite _ _ _ => true
  | _ => false
  end.

(** The double nearest to an integer (ties to even); infinite when the
    integer is beyond the largest double. *)
Definition of_Z (z : Z) : float := SpecFloat.binary_normalize prec emax z 0 false.

(** An [int] operand converted to [float], as arithmetic with a [float]
    and the [math] functions do: [OverflowError] when it does not fit. *)
Definition float_of_int (z : Z) : Py.result float :=
  if is_inf (of_Z z) then Py.Raise Py.OverflowError else Py.Ok (of_Z z).

(** The exact value [m * 2^e] of the magnitude of a finite float. *)
Definition magnitude (m : positive) (e : Z) : Q :=
  match e with
  | Z0 => inject_Z (Zpos m)
  | Zpos p => inject_Z (Zpos m * 2 ^ Zpos p)
  | Zneg p => Zpos m # (2 ^ p)
  end.

(** What a number is worth: not a number, an infinity, or an exact
    rational. *)
Inductive worth : Type :=
| NotANumber
| Infinite (negative : bool)
| Exactly (q : Q).

Definition float_worth (x : float) : worth :=
  match x with
  | SpecFloat.S754_nan => NotANumber
  | SpecFloat.S754_infinity s => Infinite s
  | SpecFloat.S754_zero _ => Exactly 0
  | SpecFloat.S754_finite s m e =>
      Exactly (if s then - magnitude m e else magnitude m e)
  end.

(** [round(x)] for a [float] without [ndigits]: the nearest [int], ties to
    the even one; [OverflowError] for an infinity and [ValueError] for a
    NaN. *)
Definition round (x : float) : Py.result Z :=
  match float_worth x with
  | NotANumber => Py.Raise Py.ValueError
  | Infinite _ => Py.Raise Py.OverflowError
  | Exactly q => Py.Ok (Py.round q)
  end.

(** A Python number: an [int] or a [float]. *)
Inductive number : Type :=
| Int (z : Z)
| Float (x : float).

Definition number_worth (a : number) : worth :=
  match a with
  | Int z => Exactly (inject_Z z)
  | Float x => float_worth x
  end.

(** [-a] *)
Definition neg (a : number) : number :=
  match a with
  | Int z => Int (- z)
  | Float x => Float (opp x)
  end.

(** Comparison of two numbers.  Python compares [int] with [float], and
    [float] with [float], by their exact values; a NaN is unordered. *)
Definition compare_worth (u v : worth) : option comparison :=
  match u, v with
  | NotANumber, _ | _, NotANumber => None
  | Infinite s, Infinite s' =>
      Some (if s then (if s' then Eq else Lt) else (if s' then Gt else Eq))
  | Infinite s, Exactly _ => Some (if s then Lt else Gt)
  | Exactly _, Infinite s => Some (if s then Gt else Lt)
  | Exactly p, Exactly q => Some (Qcompare p q)
  end.

Definition compare (a b : number) : option comparison :=
  compare_worth (number_worth a) (number_worth b).

(** [a < b], [a > b], [a <= b], [a >= b] *)
Definition lt (a b : number) : bool :=
  match compare a b with Some Lt => true | _ => false end.

Definition gt (a b : number) : bool :=
  match compare a b with Some Gt => true | _ => false end.

Definition le (a b : number) : bool :=
  match compare a b with Some Lt | Some Eq => true | _ => false end.

Definition ge (a b : number) : bool :=
  match compare a b with Some Gt | Some Eq => true | _ => false end.

(** [a == b] *)
Definition eq (a b : number) : bool :=
  match compare a b with Some Eq => true | _ => false end.

(** [max(a, b)] and [min(a, b)] with two arguments: the first one is kept
    unless the second is strictly greater (smaller). *)
Definition max (a b : number) : number := if gt b a then b else a.

Definition min (a b : number) : number := if lt b a then b else a.

(** The double nearest to the exact quotient [a / b] of two non-zero
    integers (ties to even), infinite when the quotient is beyond the largest
    double.  The quotient is computed to at least 56 bits, with one more bit
    that records whether anything was left over, and rounded once. *)
Definition nearest_quotient (a b : Z) : float :=
  let negate := xorb (a <? 0)%Z (b <? 0)%Z in
  let n := Z.abs a in
  let d := Z.abs b in
  let k := Z.max 0 (Z.log2 d - Z.log2 n + 56) in
  let q := (n * 2 ^ k / d)%Z in
  let sticky := if ((n * 2 ^ k) mod d =? 0)%Z then 0%Z else 1%Z in
  let m := (2 * q + sticky)%Z in
  SpecFloat.binary_normalize prec emax (if negate then - m else m)%Z (- k - 1) false.

(** [a / b] on two [int]s: the double nearest to the exact quotient,
    [ZeroDivisionError] for [b = 0], [OverflowError] when the quotient is
    beyond the largest double. *)
Definition truediv (a b : Z) : Py.result float :=
  if (b =? 0)%Z then Py.Raise Py.ZeroDivisionError
  else if (a =? 0)%Z then Py.Ok (zero (xorb (a <? 0)%Z (b <? 0)%Z))
  else
    let x := nearest_quotient a b in
    if is_inf x then Py.Raise Py.OverflowError else Py.Ok x.

(** The [float] a decimal literal [d * 10^k] denotes: the nearest double,
    so that [literal 16 (-1)] is [1.6] and [literal 1 308] is [1e308]. *)
Definition literal (d k : Z) : float :=
  if (d =? 0)%Z then zero false
  else if (0 <=? k)%Z then of_Z (d * 10 ^ k)
  else nearest_quotient d (10 ^ (- k)).

(** *** [repr] of a [float] *)

(** Whether the decimal [c] is read back as the float of magnitude
    [m * 2^e]: it lies between the midpoints to the neighbouring floats, the
    midpoints included when [m] is even.  The float below is half as far
    when [m] is a power of two above the smallest exponent. *)
Definition reads_back (m : positive) (e : Z) (c : Q) : bool :=
  let v := magnitude m e in
  let up := ((2 # 1) ^ e)%Q in
  let down :=
    if (Pos.eqb m (2 ^ 52) && (-1074 <? e)%Z)%bool then (up / 2)%Q else up in
  let lo := (v - down / 2)%Q in
  let hi := (v + up / 2)%Q in
  if Z.even (Zpos m)
  then (Qle_bool lo c && Qle_bool c hi)%bool
  else (negb (Qle_bool c lo) && negb (Qle_bool hi c))%bool.

(** The least [n] at or above [start] with [v < 10^n]. *)
Fixpoint decimal_exponent (fuel : nat) (v : Q) (n : Z) : Z :=
  match fuel with
  | O => n
  | S fuel' =>
      if Qle_bool ((10 # 1) ^ n)%Q v then decimal_exponent fuel' v (n + 1)%Z else n
  end.

(** The shortest decimal [d * 10^q] that is read back as the float, tried
    with 1, 2, ... significant digits; of two with the same number of digits
    the one nearer to the float. *)
Fixpoint shortest (fuel : nat) (m : positive) (e : Z) (n k : Z) : Z * Z :=
  let v := magnitude m e in
  let q := (n - k)%Z in
  let unit := ((10 # 1) ^ q)%Q in
  let below := Qfloor (v / unit) in
  let above := (below + 1)%Z in
  let c_below := (inject_Z below * unit)%Q in
  let c_above := (inject_Z above * unit)%Q in
  let nearer := if Qle_bool (v - c_below) (c_above - v) then below else above in
  match fuel with
  | O => (nearer, q)
  | S fuel' =>
      match reads_back m e c_below, reads_back m e c_above with
      | true, true => (nearer, q)
      | true, false => (below, q)
      | false, true => (above, q)
      | false, false => shortest fuel' m e n (k + 1)%Z
      end
  end.

Fixpoint strip_trailing_zeros (fuel : nat) (d : Z) : Z :=
  match fuel with
  | O => d
  | S fuel' => if (d mod 10 =? 0)%Z then strip_trailing_zeros fuel' (d / 10)%Z else d
  end.

Fixpoint zeros (n : nat) : string :=
  match n with
  | O => EmptyString
  | S n' => String "0" (zeros n')
  end.

(** The text of a float from its significant digits and the position
    [decpt] of the decimal point (the value is [0.digits * 10^decpt]):
    exponent notation for [decpt <= -4] and [decpt > 16], with a sign and at
    least two digits in the exponent; otherwise positional notation, with
    [.0] added to a whole number. *)
Definition layout (digits : string) (decpt : Z) : string :=
  let k := Z.of_nat (String.length digits) in
  if ((decpt <=? -4) || (16 <? decpt))%Z%bool then
    let x := (decpt - 1)%Z in
    let exponent := Py.str_int (Z.abs x) in
    (String.substring 0 1 digits
     ++ (if (1 <? k)%Z
         then "." ++ String.substring 1 (String.length digits - 1) digits
         else EmptyString)
     ++ "e" ++ (if (x <? 0)%Z then "-" else "+")
     ++ (if (Z.abs x <? 10)%Z then "0" else EmptyString) ++ exponent)%string
  else if (decpt <=? 0)%Z then
    ("0." ++ zeros (Z.to_nat (- decpt)) ++ digits)%string
  else if (k <=? decpt)%Z then
    (digits ++ zeros (Z.to_nat (decpt - k)) ++ ".0")%string
  else
    (String.substring 0 (Z.to_nat decpt) digits ++ "."
     ++ String.substring (Z.to_nat decpt) (String.length digits - Z.to_nat decpt) digits)%string.

(** [repr(x)], which is also [str(x)], for a [float]. *)
Definition repr (x : float) : string :=
  match x with
  | SpecFloat.S754_nan => "nan"
  | SpecFloat.S754_infinity s => if s then "-inf" else "inf"
  | SpecFloat.S754_zero s => if s then "-0.0" else "0.0"
  | SpecFloat.S754_finite s m e =>
      let n := decimal_exponent 640 (magnitude m e) (-325) in
      let '(d, q) := shortest 17 m e n 1 in
      let all := Py.str_int d in
      let digits := Py.str_int (strip_trailing_zeros 20 d) in
      let decpt := (Z.of_nat (String.length all) + q)%Z in
      ((if s then "-" else EmptyString) ++ layout digits decpt)%string
  end.

(** [str(a)].  An [int] of more than 4300 decimal digits is not printed:
    CPython (3.11 and later, with [int_max_str_digits] at its default) raises
    [ValueError]. *)
Definition str (a : number) : Py.result string :=
  match a with
  | Int z =>
      if (10 ^ 4300 <=? Z.abs z)%Z then Py.Raise Py.ValueError
      else Py.Ok (Py.str_int z)
  | Float x => Py.Ok (repr x)
  end.

(** *** The [math] module *)

(** [math.pi] *)
Definition pi : float := SpecFloat.S754_finite false 7074237752028440 (-51).

(** The constant [math.radians] multiplies by: [pi / 180.0]. *)
Definition deg_to_rad : float := div pi (of_Z 180).

(** An argument of a [math] function converted to a double. *)
Definition as_double (a : number) : Py.result float :=
  match a with
  | Int z => float_of_int z
  | Float x => Py.Ok x
  end.

(** [math.radians(a)] *)
Definition radians (a : number) : Py.result float :=
  x <- as_double a ;;;
  Py.Ok (mul x deg_to_rad).

Section Libm.
(** [sin] of the C library. *)
Variable libm_sin : float -> float.

(** [math.sin(a)]: the C library's result, except that a NaN for an
    argument that is none, and an infinity for a finite argument, raise
    [ValueError]. *)
Definition sin (a : number) : Py.result float :=
  x <- as_double a ;;;
  let r := libm_sin x in
  if (is_nan r && negb (is_nan x))%bool then Py.Raise Py.ValueError
  else if (is_inf r && is_finite x)%bool then Py.Raise Py.ValueError
  else Py.Ok r.
End Libm.

(** [a * x] for a number [a] and a [float] [x], and [x * a]: an [int]
    operand is converted first. *)
Definition times (a : number) (x : float) : Py.result float :=
  y <- as_double a ;;;
  Py.Ok (mul y x).

Definition scaled (x : float) (a : number) : Py.result float :=
  y <- as_double a ;;;
  Py.Ok (mul x y).

End Py64.

(** ** config.py *)

Record Config : Type := {
  ARRAY_INTERFACE : string;
  SYSTEM_CONFIGURATION : string;
  SERIAL_PORT : string;
  SERIAL_BAUD : Z;
  PLOT_SAVE_PATH : string;
  MODEM_FREQ : Z;
  KU_FREQ_RANGE : list Z;
  THETA_RANGE : list Z;
  PHI_RANGE : list Z;
  SWEEP_BOTH_DIRECTIONS : bool;
  ELEVATION_PHI_ADJUSTMENT : bool;
  PHI_RANGE_RANDOM : bool;
  THETA_RANGE_RANDOM : bool;
  TURN_TABLE_ELV_LIMIT : R;
  EL_START : R;
  EL_FINISH : R;
  POL_START : R;
  POL_FINISH : R;
  AZ_START : R;
  AZ_FINISH : R;
  HORN_START : R;
  HORN_FINISH : R
}.

(** [POL_ANGLE = 0 if ARRAY_INTERFACE == '' else 90] *)
Definition POL_ANGLE (cfg : Config) : Z :=
  if String.eqb (ARRAY_INTERFACE cfg) EmptyString then 0%Z else 90%Z.

(** The values config.py ships with.  [THETA_RANGE] is
    [np.arange(0, 35, 5)], [PHI_RANGE] is [range(0, 181, 180)]. *)
Definition default_config : Config := {|
  ARRAY_INTERFACE := EmptyString;
  SYSTEM_CONFIGURATION := EmptyString;
  SERIAL_PORT := "COM6";
  SERIAL_BAUD := 115200;
  PLOT_SAVE_PATH := "C:\tests";
  MODEM_FREQ := 1500000000;
  KU_FREQ_RANGE := [11600000000%Z];
  THETA_RANGE := Py.range 0 35 5;
  PHI_RANGE := Py.range 0 181 180;
  SWEEP_BOTH_DIRECTIONS := false;
  ELEVATION_PHI_ADJUSTMENT := false;
  PHI_RANGE_RANDOM := false;
  THETA_RANGE_RANDOM := false;
  TURN_TABLE_ELV_LIMIT := 20;
  EL_START := 0;
  EL_FINISH := 0;
  POL_START := 0;
  POL_FINISH := 0;
  AZ_START := -35;
  AZ_FINISH := 35;
  HORN_START := 90;
  HORN_FINISH := 90
|}.

(** The three interface modes are the values of [ARRAY_INTERFACE] the
    sources compare against. *)
Definition LOCAL : string := EmptyString.
Definition POINTING_GENERATOR : string := "app_cli_pointing_generator".
Definition MESSAGE_FORWARDING : string := "app_cli_message_forewarding".

(** ** The outside world and the state of a run *)

(** What opening and writing the serial link does on one call of
    [send_commands] or [check_connection]. *)
Inductive SerialOutcome : Set :=
| PortUnavailable
| LinkLostAfter (n : nat)
| LinkUp.

Record Env : Type := {
  (** raw outcome of the k-th draw of [random] *)
  random_source : nat -> Z;
  (** [datetime.now().strftime('%Y-%m-%d_%H-%M-%S')] at its k-th reading *)
  wall_clock : nat -> string;
  (** the serial link at its k-th opening *)
  serial_link : nat -> SerialOutcome;
  (** whether the k-th [run_sweep_test_swt] returns (or raises) *)
  chamber_software : nat -> bool
}.

(** The dictionary [_calculate_sweep_angles] returns. *)
Record SweepAngles : Type := {
  az_start : R;
  az_finish : R;
  el_start : R;
  el_finish : R;
  pol_start : R;
  pol_finish : R;
  horn_start : R;
  horn_finish : R
}.

(** One invocation of [sweep_runner.run_sweep_test_swt], with the
    [sweep_name] attribute the runner carries at that moment. *)
Record SweepCall : Type := {
  call_sweep_name : string;
  angles_list : SweepAngles;
  save_path : string;
  sPar : bool
}.

Record State : Type := {
  random_draws : nat;
  clock_reads : nat;
  serial_opens : nat;
  (** batches of commands written to the serial link, oldest first *)
  sent : list (list string);
  (** invocations of the measurement collaborator, oldest first *)
  measured : list SweepCall;
  (** [ChamberController.direction_forward] *)
  direction_forward : bool;
  (** [sweep_runner.sweep_name] *)
  sweep_name : string
}.

(** The state after [ChamberController(ChamberClass(sweep_name="Default_file_name", ...))]. *)
Definition initial_state : State := {|
  random_draws := 0;
  clock_reads := 0;
  serial_opens := 0;
  sent := [];
  measured := [];
  direction_forward := true;
  sweep_name := "Default_file_name"
|}.

Definition M (A : Type) : Type := State -> Py.result A * State.

Definition ret {A} (a : A) : M A := fun st => (Py.Ok a, st).

Definition raise {A} (e : Py.exn) : M A := fun st => (Py.Raise e, st).

Definition lift {A} (r : Py.result A) : M A := fun st => (r, st).

Definition bind {A B} (c : M A) (k : A -> M B) : M B :=
  fun st =>
    match c st with
    | (Py.Ok a, st') => k a st'
    | (Py.Raise e, st') => (Py.Raise e, st')
    end.

Notation "x <- c1 ;; c2" := (bind c1 (fun x => c2))
  (at level 100, c1 at next level, right associativity).

(** [for x in l: body(x)] *)
Fixpoint for_each {A} (l : list A) (body : A -> M unit) : M unit :=
  match l with
  | [] => ret tt
  | x :: l' => _ <- body x ;; for_each l' body
  end.

(** [[c for _ in range(n)]] *)
Fixpoint repeat_collect {A} (n : nat) (c : M A) : M (list A) :=
  match n with
  | O => ret []
  | S n' => x <- c ;; xs <- repeat_collect n' c ;; ret (x :: xs)
  end.

(** ** lib/hardware_interface.py *)

Module HardwareInterface.

Section Link.
Context (env : Env).

(** [send_commands(commands)]: the port is opened, every command is
    written in order and its acknowledgement awaited; an expired wait is
    only printed.  A port that cannot be opened, or a link that breaks
    after [n] commands, raises out of the call. *)
Definition send_commands (commands : list string) : M unit :=
  fun st =>
    let k := serial_opens st in
    let opened (batch : option (list string)) : State := {|
      random_draws := random_draws st;
      clock_reads := clock_reads st;
      serial_opens := S k;
      sent := match batch with Some b => sent st ++ [b] | None => sent st end;
      measured := measured st;
      direction_forward := direction_forward st;
      sweep_name := sweep_name st
    |} in
    match serial_link env k with
    | PortUnavailable => (Py.Raise Py.SerialException, opened None)
    | LinkLostAfter n =>
        if (n <? length commands)%nat
        then (Py.Raise Py.SerialException, opened (Some (take n commands)))
        else (Py.Ok tt, opened (Some commands))
    | LinkUp => (Py.Ok tt, opened (Some commands))
    end.

(** [check_connection()]: whether the port opens; the exception is
    caught. *)
Definition check_connection : M bool :=
  fun st =>
    let k := serial_opens st in
    let st' := {|
      random_draws := random_draws st;
      clock_reads := clock_reads st;
      serial_opens := S k;
      sent := sent st;
      measured := measured st;
      direction_forward := direction_forward st;
      sweep_name := sweep_name st
    |} in
    match serial_link env k with
    | PortUnavailable => (Py.Ok false, st')
    | _ => (Py.Ok true, st')
    end.
End Link.

(** [to_attenuation_code(db, insertion_loss_db)] *)
Definition to_attenuation_code (db insertion_loss_db : Q) : Z :=
  let db := (db - insertion_loss_db)%Q in
  if Qle_bool 0 db then Py.round (db * 4)%Q else 0%Z.

End HardwareInterface.

(** ** lib/system_messages.py *)

Module SystemMessages.

(** The class attributes: command templates and the two maps. *)
Record Catalog : Type := {
  POWER_ON_CMD : Py.template;
  POWER_OFF_CMD : Py.template;
  BAND_CONFIG_CMD : Py.template;
  CHANNEL_CONFIG_CMD : Py.template;
  BPL_ATTEN_CMD : Py.template;
  IF_ATTEN_CMD : Py.template;
  ARRAY_STEER_CMD : Py.template;
  ARRAY_RF_ENABLE_CMD : Py.template;
  POSE_CMD : Py.template;
  POINTING_GEN_CMD : Py.template;
  MODEM_IF_CMD : Py.template;
  BEAM_INFO_CMD : Py.template;
  ARRAY_MAP : gmap string Py.value;
  BAND_CODES : gmap string Py.value
}.

(** The catalog as the repository ships it: every template is the empty
    string and both maps are empty. *)
Definition shipped : Catalog := {|
  POWER_ON_CMD := [];
  POWER_OFF_CMD := [];
  BAND_CONFIG_CMD := [];
  CHANNEL_CONFIG_CMD := [];
  BPL_ATTEN_CMD := [];
  IF_ATTEN_CMD := [];
  ARRAY_STEER_CMD := [];
  ARRAY_RF_ENABLE_CMD := [];
  POSE_CMD := [];
  POINTING_GEN_CMD := [];
  MODEM_IF_CMD := [];
  BEAM_INFO_CMD := [];
  ARRAY_MAP := ∅;
  BAND_CODES := ∅
|}.

Section Commands.
Context (cls : Catalog).

Definition get_power_command (enable : bool) : string :=
  if enable then Py.source (POWER_ON_CMD cls) else Py.source (POWER_OFF_CMD cls).

Definition get_pose_commands (pitch : Z) : Py.result (list string) :=
  pose <- Py.format (POSE_CMD cls)
            [("roll", Py.VInt 0); ("pitch", Py.VInt pitch); ("yaw", Py.VInt 0);
             ("x", Py.VInt 0); ("y", Py.VInt 0)] ;;;
  Py.Ok [pose; Py.source (POINTING_GEN_CMD cls)].

(** The value bound to a parameter after [Py.bind_keywords]. *)
Definition parameter (name : string) (bound : Py.kwargs) : Py.result Py.value :=
  match Py.kwarg name bound with
  | Some v => Py.Ok v
  | None => Py.Raise Py.TypeError
  end.

(** [get_phased_array_commands(phased_array, phi, theta, gain, freq_hz,
    pol, enable=True)], called with keywords. *)
Definition get_phased_array_commands (kw : Py.kwargs) : Py.result (list string) :=
  bound <- Py.bind_keywords
             ["phased_array"; "phi"; "theta"; "gain"; "freq_hz"; "pol"]
             [("enable", Py.VBool true)] kw ;;;
  phased_array <- parameter "phased_array" bound ;;;
  phi <- parameter "phi" bound ;;;
  theta <- parameter "theta" bound ;;;
  gain <- parameter "gain" bound ;;;
  freq_hz <- parameter "freq_hz" bound ;;;
  pol <- parameter "pol" bound ;;;
  enable <- parameter "enable" bound ;;;
  on <- Py.int enable ;;;
  steer <- Py.format (ARRAY_STEER_CMD cls)
             [("phased_array", phased_array); ("phi", phi); ("theta", theta);
              ("gain", gain); ("freq_hz", freq_hz); ("pol", pol);
              ("enable", Py.VInt on)] ;;;
  on' <- Py.int enable ;;;
  rf <- Py.format (ARRAY_RF_ENABLE_CMD cls)
          [("phased_array", phased_array); ("enable", Py.VInt on')] ;;;
  Py.Ok [steer; rf].

(** [get_pointing_commands(freq_hz, az, el, pol, enable=True)], called
    with positional arguments. *)
Definition get_pointing_commands (freq_hz az el pol : Z) : Py.result (list string) :=
  modem <- Py.format (MODEM_IF_CMD cls)
             [("freq_hz", Py.VInt freq_hz); ("enable", Py.VInt 1)] ;;;
  beam <- Py.format (BEAM_INFO_CMD cls)
            [("az", Py.VInt az); ("el", Py.VInt el); ("freq_hz", Py.VInt freq_hz);
             ("pol", Py.VInt pol); ("enable", Py.VInt 1)] ;;;
  Py.Ok [modem; beam; Py.source (POINTING_GEN_CMD cls)].
End Commands.

End SystemMessages.

(** ** lib/array_controller.py *)

Module ArrayController.
Import SystemMessages.

(** [_get_default_attenuation_codes()] *)
Definition _get_default_attenuation_codes : list Z * list Z :=
  let atten_values_arrays :=
    map (fun _ => HardwareInterface.to_attenuation_code 0.0 1.6) (Py.range 0 4 1) in
  let atten_codes_sm := [HardwareInterface.to_attenuation_code 0.0 0.0] in
  (atten_values_arrays, atten_codes_sm).

Section Controller.
Context (cls : Catalog) (cfg : Config) (env : Env).

(** [BAND_CONFIG_CMD.format(channel=0, band_code=BAND_CODES['L'])] *)
Definition band_config_command : Py.result string :=
  match BAND_CODES cls !! "L" with
  | Some code =>
      Py.format (BAND_CONFIG_CMD cls) [("channel", Py.VInt 0); ("band_code", code)]
  | None => Py.Raise Py.KeyError
  end.

(** [CHANNEL_CONFIG_CMD.format(channel=0, freq_khz=f_khz, if_freq_khz=f_if_khz)] *)
Definition channel_config_command (f_khz f_if_khz : Z) : Py.result string :=
  Py.format (CHANNEL_CONFIG_CMD cls)
    [("channel", Py.VInt 0); ("freq_khz", Py.VInt f_khz);
     ("if_freq_khz", Py.VInt f_if_khz)].

(** [BPL_ATTEN_CMD.format(channel=0, array=i, atten_code=atten[0][i])] *)
Definition bpl_atten_command (atten : list Z * list Z) (i : Z) : Py.result string :=
  code <- Py.getitem (fst atten) i ;;;
  Py.format (BPL_ATTEN_CMD cls)
    [("channel", Py.VInt 0); ("array", Py.VInt i); ("atten_code", Py.VInt code)].

(** [IF_ATTEN_CMD.format(channel=0, atten_code=atten[1][0])] *)
Definition if_atten_command (atten : list Z * list Z) : Py.result string :=
  code <- Py.getitem (snd atten) 0 ;;;
  Py.format (IF_ATTEN_CMD cls) [("channel", Py.VInt 0); ("atten_code", Py.VInt code)].

(** [_get_rx_atten_commands(f_hz, atten)] *)
Definition _get_rx_atten_commands
    (f_hz : Z) (atten : list Z * list Z) : Py.result (list string) :=
  let f_khz := (f_hz / 1000)%Z in
  let f_if_khz := (MODEM_FREQ cfg / 1000)%Z in
  band <- band_config_command ;;;
  channel <- channel_config_command f_khz f_if_khz ;;;
  bpl <- Py.comprehension (bpl_atten_command atten) (Py.range 0 4 1) ;;;
  ifa <- if_atten_command atten ;;;
  Py.Ok ([band; channel] ++ bpl ++ [ifa]).

(** [setup_array(ku_freq, azimuth, elevation)] *)
Definition setup_array (ku_freq azimuth elevation : Z) : M unit :=
  if negb (String.eqb (ARRAY_INTERFACE cfg) EmptyString) then ret tt
  else
    let atten_codes := _get_default_attenuation_codes in
    rx <- lift (_get_rx_atten_commands ku_freq atten_codes) ;;
    _ <- HardwareInterface.send_commands env rx ;;
    pointing <- lift (get_pointing_commands cls ku_freq azimuth elevation (POL_ANGLE cfg)) ;;
    HardwareInterface.send_commands env pointing.

(** [_control_pose(phi_angle, theta_angle)] *)
Definition _control_pose (phi_angle theta_angle : Z) : M unit :=
  let pitch := if (90 <? phi_angle)%Z then theta_angle else (360 - theta_angle)%Z in
  commands <- lift (get_pose_commands cls pitch) ;;
  HardwareInterface.send_commands env commands.

(** [control_array(ku_freq, phi_angle, theta_angle)].  In the branch for
    [ARRAY_INTERFACE == ''] the sub-array loop calls
    [get_phased_array_commands] with the keyword [array]. *)
Definition control_array (ku_freq phi_angle theta_angle : Z) : M unit :=
  if String.eqb (ARRAY_INTERFACE cfg) EmptyString then
    let atten_codes := _get_default_attenuation_codes in
    let f_khz := (ku_freq / 1000)%Z in
    let f_if_khz := (MODEM_FREQ cfg / 1000)%Z in
    band <- lift band_config_command ;;
    channel <- lift (channel_config_command f_khz f_if_khz) ;;
    bpl <- lift (Py.comprehension (bpl_atten_command atten_codes) (Py.range 0 4 1)) ;;
    ifa <- lift (if_atten_command atten_codes) ;;
    arrays <- lift (Py.comprehension
                      (fun array =>
                         get_phased_array_commands cls
                           [("array", Py.VStr array); ("phi", Py.VInt phi_angle);
                            ("theta", Py.VInt theta_angle); ("gain", Py.VInt 0);
                            ("freq_hz", Py.VInt ku_freq);
                            ("pol", Py.VInt (POL_ANGLE cfg))])
                      [EmptyString; EmptyString; EmptyString; EmptyString]) ;;
    HardwareInterface.send_commands env
      ([band; channel] ++ bpl ++ [ifa] ++ concat arrays)
  else _control_pose phi_angle theta_angle.

(** [power_cycle()] *)
Definition power_cycle : M unit :=
  connected <- HardwareInterface.check_connection env ;;
  if negb connected then ret tt
  else
    _ <- HardwareInterface.send_commands env [get_power_command cls false] ;;
    HardwareInterface.send_commands env [get_power_command cls true].

(** The names an [ArrayController] instance answers to: the attribute
    set in [__init__] and the methods of the class. *)
Definition attributes : list string :=
  ["hardware"; "power_cycle"; "setup_array"; "control_array"; "_control_pose";
   "_get_default_attenuation_codes"; "_get_rx_atten_commands"].

(** [array_ctrl.name(args)] for the methods that take integers: looking
    up a name the instance does not have raises [AttributeError]. *)
Definition call_method (name : string) (args : list Z) : M unit :=
  if negb (existsb (String.eqb name) attributes) then raise Py.AttributeError
  else if String.eqb name "power_cycle" then
    match args with
    | [] => power_cycle
    | _ => raise Py.TypeError
    end
  else if String.eqb name "setup_array" then
    match args with
    | [ku_freq; azimuth; elevation] => setup_array ku_freq azimuth elevation
    | _ => raise Py.TypeError
    end
  else if String.eqb name "control_array" then
    match args with
    | [ku_freq; phi_angle; theta_angle] => control_array ku_freq phi_angle theta_angle
    | _ => raise Py.TypeError
    end
  else if String.eqb name "_control_pose" then
    match args with
    | [phi_angle; theta_angle] => _control_pose phi_angle theta_angle
    | _ => raise Py.TypeError
    end
  else raise Py.TypeError.
End Controller.

End ArrayController.

(** ** lib/chamber_controller.py *)

Module ChamberController.

Section Controller.
Context (cls : SystemMessages.Catalog) (cfg : Config) (env : Env).

(** [random.randint(a, b)]: an integer of [[a, b]], both ends included,
    decided by the next raw draw of the random source. *)
Definition randint (a b : Z) : M Z :=
  fun st =>
    let k := random_draws st in
    (Py.Ok (a + random_source env k mod (b - a + 1))%Z,
     {| random_draws := S k;
        clock_reads := clock_reads st;
        serial_opens := serial_opens st;
        sent := sent st;
        measured := measured st;
        direction_forward := direction_forward st;
        sweep_name := sweep_name st |}).

(** [datetime.now().strftime('%Y-%m-%d_%H-%M-%S')] *)
Definition strftime_now : M string :=
  fun st =>
    let k := clock_reads st in
    (Py.Ok (wall_clock env k),
     {| random_draws := random_draws st;
        clock_reads := S k;
        serial_opens := serial_opens st;
        sent := sent st;
        measured := measured st;
        direction_forward := direction_forward st;
        sweep_name := sweep_name st |}).

(** [self.sweep_runner.sweep_name = name] *)
Definition set_sweep_name (name : string) : M unit :=
  fun st =>
    (Py.Ok tt,
     {| random_draws := random_draws st;
        clock_reads := clock_reads st;
        serial_opens := serial_opens st;
        sent := sent st;
        measured := measured st;
        direction_forward := direction_forward st;
        sweep_name := name |}).

(** [self.direction_forward], read and written. *)
Definition get_direction_forward : M bool :=
  fun st => (Py.Ok (direction_forward st), st).

Definition set_direction_forward (d : bool) : M unit :=
  fun st =>
    (Py.Ok tt,
     {| random_draws := random_draws st;
        clock_reads := clock_reads st;
        serial_opens := serial_opens st;
        sent := sent st;
        measured := measured st;
        direction_forward := d;
        sweep_name := sweep_name st |}).

(** [self.sweep_runner.run_sweep_test_swt(angles_list=..., save_path=...,
    sPar=...)]: the measurement collaborator.  The invocation is
    recorded; whether it returns is up to the chamber software, and what
    it returns is dropped by the caller. *)
Definition run_sweep_test_swt
    (angles : SweepAngles) (path : string) (spar : bool) : M unit :=
  fun st =>
    let k := length (measured st) in
    let call := {| call_sweep_name := sweep_name st;
                   angles_list := angles;
                   save_path := path;
                   sPar := spar |} in
    (if chamber_software env k then Py.Ok tt else Py.Raise Py.ChamberError,
     {| random_draws := random_draws st;
        clock_reads := clock_reads st;
        serial_opens := serial_opens st;
        sent := sent st;
        measured := measured st ++ [call];
        direction_forward := direction_forward st;
        sweep_name := sweep_name st |}).

(** [_select_phi_angles()] *)
Definition _select_phi_angles : M (list Z) :=
  if PHI_RANGE_RANDOM cfg then
    let num_random_phi := 10%nat in
    repeat_collect num_random_phi (randint 0 360)
  else ret (PHI_RANGE cfg).

(** [_select_theta_angles()] *)
Definition _select_theta_angles : M (list Z) :=
  if THETA_RANGE_RANDOM cfg then
    let num_random_theta := 10%nat in
    repeat_collect num_random_theta (randint 5 50)
  else ret (THETA_RANGE cfg).

(** [math.radians(x)] *)
Definition radians (x : R) : R := (x * (PI / 180))%R.

(** [_calculate_sweep_angles(direction_forward, phi_angle, theta_angle)] *)
Definition _calculate_sweep_angles
    (direction_forward : bool) (phi_angle theta_angle : R) : SweepAngles :=
  let az_start := AZ_START cfg in
  let az_finish := AZ_FINISH cfg in
  let el_start := EL_START cfg in
  let el_finish := EL_FINISH cfg in
  let '(az_start, az_finish) :=
    if SWEEP_BOTH_DIRECTIONS cfg && negb direction_forward
    then ((- AZ_START cfg)%R, (- AZ_FINISH cfg)%R)
    else (az_start, az_finish) in
  let '(el_start, el_finish) :=
    if ELEVATION_PHI_ADJUSTMENT cfg then
      let calc_elevation := (theta_angle * sin (radians phi_angle))%R in
      let calc_elevation :=
        Rmin (Rmax calc_elevation (- TURN_TABLE_ELV_LIMIT cfg)) (TURN_TABLE_ELV_LIMIT cfg) in
      (calc_elevation, calc_elevation)
    else (el_start, el_finish) in
  {| az_start := az_start;
     az_finish := az_finish;
     el_start := el_start;
     el_finish := el_finish;
     pol_start := POL_START cfg;
     pol_finish := POL_FINISH cfg;
     horn_start := HORN_START cfg;
     horn_finish := HORN_FINISH cfg |}.

(** [_generate_sweep_name(ku_freq, l_band_freq, phi_angle, theta_angle)] *)
Definition _generate_sweep_name
    (ku_freq l_band_freq phi_angle theta_angle : Z) : M string :=
  let ku_freq_string :=
    Py.replace "." "_" (Py.str_float (Py.truediv ku_freq 1000000000)) in
  let l_band_freq_string :=
    Py.replace "." "_" (Py.str_float (Py.truediv l_band_freq 1000000000)) in
  let phi_angle_string := Py.replace "." "_" (Py.str_int phi_angle) in
  let theta_angle_string := Py.replace "." "_" (Py.str_int theta_angle) in
  now <- strftime_now ;;
  ret (now ++ "_" ++
       ARRAY_INTERFACE cfg ++ "_" ++
       SYSTEM_CONFIGURATION cfg ++ "_" ++
       "Ku_Freq_" ++ ku_freq_string ++ "GHz_" ++
       "L_Freq_" ++ l_band_freq_string ++ "GHz_" ++
       "Phi_" ++ phi_angle_string ++ "_" ++
       "Theta_" ++ theta_angle_string)%string.

(** [_run_chamber_sweep(ku_freq, l_band_freq, theta_angle, phi_angle,
    sweep_angles)] *)
Definition _run_chamber_sweep
    (ku_freq l_band_freq theta_angle phi_angle : Z) (sweep_angles : SweepAngles)
  : M unit :=
  name <- _generate_sweep_name ku_freq l_band_freq phi_angle theta_angle ;;
  _ <- set_sweep_name name ;;
  run_sweep_test_swt sweep_angles (PLOT_SAVE_PATH cfg) false.

(** [perform_sweep(direction_forward, ku_freq, l_band_freq, phi_angle,
    theta_angle)] *)
Definition perform_sweep
    (direction_forward : bool) (ku_freq l_band_freq phi_angle theta_angle : Z)
  : M bool :=
  let sweep_angles :=
    _calculate_sweep_angles direction_forward (IZR phi_angle) (IZR theta_angle) in
  _ <- _run_chamber_sweep ku_freq l_band_freq theta_angle phi_angle sweep_angles ;;
  ret (if SWEEP_BOTH_DIRECTIONS cfg then negb direction_forward else direction_forward).

(** The body of the inner loop of [run_sweep_sequence]: configure the
    array, then sweep and store the returned direction. *)
Definition sweep_point (ku_freq l_band_freq phi_angle theta_angle : Z) : M unit :=
  _ <- (if String.eqb (ARRAY_INTERFACE cfg) MESSAGE_FORWARDING
        then ArrayController.call_method cls cfg env "control_array"
               [ku_freq; phi_angle; theta_angle]
        else ArrayController.call_method cls cfg env "control_pose"
               [phi_angle; theta_angle]) ;;
  d <- get_direction_forward ;;
  d' <- perform_sweep d ku_freq l_band_freq phi_angle theta_angle ;;
  set_direction_forward d'.

(** [run_sweep_sequence(array_ctrl, ku_freq, l_band_freq)], with an
    [ArrayController] as [array_ctrl]. *)
Definition run_sweep_sequence (ku_freq l_band_freq : Z) : M unit :=
  _ <- (if String.eqb (ARRAY_INTERFACE cfg) POINTING_GENERATOR
        then ArrayController.call_method cls cfg env "setup_array" [ku_freq; 0%Z; 90%Z]
        else ret tt) ;;
  phi_angles <- _select_phi_angles ;;
  for_each phi_angles (fun phi_angle =>
    theta_angles <- _select_theta_angles ;;
    for_each theta_angles (fun theta_angle =>
      sweep_point ku_freq l_band_freq phi_angle theta_angle)).
End Controller.

End ChamberController.

(** ** array_translation_rotation_prototype.py *)

Module PatchRotation.

(** [ROT_0, ROT_90, ROT_180, ROT_270 = range(4)] *)
Definition ROT_0 : Z := 0.
Definition ROT_90 : Z := 1.
Definition ROT_180 : Z := 2.
Definition ROT_270 : Z := 3.

(** [matrix_rotation(i, nx, ny, rotation)]; [i % nx] and [i // nx] are
    evaluated first and raise for [nx = 0]. *)
Definition matrix_rotation (i nx ny rotation : Z) : Py.result Z :=
  if (nx =? 0)%Z then Py.Raise Py.ZeroDivisionError
  else
    let x := (i mod nx)%Z in
    let y := (i / nx)%Z in
    if (rotation =? ROT_90)%Z then Py.Ok (y + (nx - 1 - x) * ny)%Z
    else if (rotation =? ROT_180)%Z then Py.Ok ((nx - 1 - x) + (ny - 1 - y) * nx)%Z
    else if (rotation =? ROT_270)%Z then Py.Ok (x * nx + (ny - 1 - y))%Z
    else Py.Ok i.

Section Patches.
(** A cell of a patch list holds a [Patch] object or [None]. *)
Context {Patch : Type}.

(** The loop of [patch_pos_update] over the remaining indices. *)
Fixpoint place (array_rotation nx ny : Z) (patches : list (option Patch))
    (indices : list Z) (new_patches : list (option Patch))
  : Py.result (list (option Patch)) :=
  match indices with
  | [] => Py.Ok new_patches
  | i :: rest =>
      new_i <- matrix_rotation i nx ny array_rotation ;;;
      patch <- Py.getitem patches i ;;;
      new_patches' <- Py.setitem new_patches new_i patch ;;;
      place array_rotation nx ny patches rest new_patches'
  end.

(** [patch_pos_update(array_rotation, nx, ny, patches)] *)
Definition patch_pos_update (array_rotation nx ny : Z) (patches : list (option Patch))
  : Py.result (list (option Patch)) :=
  let new_patches := replicate (length patches) None in
  place array_rotation nx ny patches (Py.range 0 (nx * ny) 1) new_patches.

(** [patch_pos_update] applied [k] times in succession, each time to the
    list the previous call returned. *)
Fixpoint rotate_times (k : nat) (array_rotation nx ny : Z)
    (patches : list (option Patch)) : Py.result (list (option Patch)) :=
  match k with
  | O => Py.Ok patches
  | S k' =>
      rotated <- patch_pos_update array_rotation nx ny patches ;;;
      rotate_times k' array_rotation nx ny rotated
  end.
End Patches.

End PatchRotation.

(** ** array_translation_rotation_prototype.py: positions and labels *)

Module PatchLayout.

Definition PROJECT_ARRAY_PATCH_SPACING : Z := 1.
Definition PROJECT_ARRAY_NUMBER_OF_PATCHES_X : Z := 1.
Definition PROJECT_ARRAY_NUMBER_OF_PATCHES_Y : Z := 1.

(** A [Patch] object: the [pose] dict, and the [label] attribute, which
    [__init__] does not create ([None] here stands for a missing
    attribute). *)
Record Patch : Type := {
  pose : gmap string Z;
  label : option string
}.

(** [Patch()] *)
Definition new_patch : Patch :=
  {| pose := {[ "t_x"%string := 0%Z; "t_y"%string := 0%Z ]}; label := None |}.

(** [PhasedArrayPos(column, row)] *)
Record PhasedArrayPos : Type := {
  column : Z;
  row : Z
}.

(** Patches are mutated in place.  A list of patches holds references (or
    [None]); the store gives the fields of the object behind a reference.
    Two cells with the same reference are one object. *)
Definition ref : Type := nat.
Definition Store : Type := ref -> Patch.

Definition update (store : Store) (r : ref) (f : Patch -> Patch) : Store :=
  fun r' => if Nat.eqb r' r then f (store r') else store r'.

(** [patch.pose[key] = v] *)
Definition set_pose (key : string) (v : Z) (patch : Patch) : Patch :=
  {| pose := <[key := v]> (pose patch); label := label patch |}.

(** [patch.label = l] *)
Definition set_label (l : string) (patch : Patch) : Patch :=
  {| pose := pose patch; label := Some l |}.

(** [patches[i]] as the target of an attribute access: the cell must exist
    ([IndexError]) and hold a patch ([None] has neither [pose] nor
    [label]: [AttributeError]). *)
Definition patch_at (patches : list (option ref)) (i : Z) : Py.result ref :=
  cell <- Py.getitem patches i ;;;
  match cell with
  | Some r => Py.Ok r
  | None => Py.Raise Py.AttributeError
  end.

Definition alphabet : string := "ABCDEFGHIJKLMNOPQRSTUVWXYZ".

(** [alphabet[i]] *)
Definition letter (i : Z) : Py.result string :=
  c <- Py.getitem (list_ascii_of_string alphabet) i ;;;
  Py.Ok (String c EmptyString).

(** The inner loop of [patch_translation], over the remaining [y] of
    column [x].  The list [patches] is not modified, so the three
    [patches[i]] of the body are one lookup; [alphabet[i]] is evaluated after
    both coordinates have been stored. *)
Fixpoint translate_column (ny spacing x patch_x_offset : Z) (patches : list (option ref))
    (ys : list Z) (patch_y_offset : Z) (store : Store) : Py.result unit * Store :=
  match ys with
  | [] => (Py.Ok tt, store)
  | y :: rest =>
      let i := (y + ny * x)%Z in
      match patch_at patches i with
      | Py.Raise e => (Py.Raise e, store)
      | Py.Ok r =>
          let store := update store r (set_pose "t_x" patch_x_offset) in
          let store := update store r (set_pose "t_y" patch_y_offset) in
          match letter i with
          | Py.Raise e => (Py.Raise e, store)
          | Py.Ok l =>
              let store := update store r (set_label l) in
              translate_column ny spacing x patch_x_offset patches
                rest (patch_y_offset + spacing)%Z store
          end
      end
  end.

(** The outer loop of [patch_translation], over the remaining [x]. *)
Fixpoint translate_columns (ny spacing array_y_offset : Z) (patches : list (option ref))
    (xs : list Z) (patch_x_offset : Z) (store : Store) : Py.result unit * Store :=
  match xs with
  | [] => (Py.Ok tt, store)
  | x :: rest =>
      let patch_y_offset := array_y_offset in
      match translate_column ny spacing x patch_x_offset patches
              (Py.range 0 ny 1) patch_y_offset store with
      | (Py.Raise e, store) => (Py.Raise e, store)
      | (Py.Ok _, store) =>
          translate_columns ny spacing array_y_offset patches
            rest (patch_x_offset + spacing)%Z store
      end
  end.

(** [patch_translation(phased_array_pos, nx, ny, spacing, patches)] *)
Definition patch_translation (phased_array_pos : PhasedArrayPos) (nx ny spacing : Z)
    (patches : list (option ref)) (store : Store) : Py.result string * Store :=
  let array_x_offset :=
    (column phased_array_pos * PROJECT_ARRAY_PATCH_SPACING
     * PROJECT_ARRAY_NUMBER_OF_PATCHES_X)%Z in
  let array_y_offset :=
    (row phased_array_pos * PROJECT_ARRAY_PATCH_SPACING
     * PROJECT_ARRAY_NUMBER_OF_PATCHES_Y)%Z in
  let patch_x_offset := array_x_offset in
  match translate_columns ny spacing array_y_offset patches
          (Py.range 0 nx 1) patch_x_offset store with
  | (Py.Raise e, store) => (Py.Raise e, store)
  | (Py.Ok _, store) => (Py.Ok "R2_OK"%string, store)
  end.

(** [sep.join(row)] *)
Fixpoint join (sep : string) (row : list string) : string :=
  match row with
  | [] => EmptyString
  | a :: rest =>
      match rest with
      | [] => a
      | _ :: _ => (a ++ sep ++ join sep rest)%string
      end
  end.

(** The inner loop of [print_patches_matrix]: the labels of row [y],
    appended to [row] one by one. *)
Fixpoint collect_row (ny y : Z) (patches : list (option ref)) (store : Store)
    (xs : list Z) (row : list string) : Py.result (list string) :=
  match xs with
  | [] => Py.Ok row
  | x :: rest =>
      let i := (y + ny * x)%Z in
      r <- patch_at patches i ;;;
      match label (store r) with
      | None => Py.Raise Py.AttributeError
      | Some l => collect_row ny y patches store rest (row ++ [l])
      end
  end.

(** The outer loop of [print_patches_matrix]; [printed] is what has been
    written to the standard output so far, one entry per [print]. *)
Fixpoint print_rows (nx ny : Z) (patches : list (option ref)) (store : Store)
    (ys : list Z) (printed : list string) : Py.result unit * list string :=
  match ys with
  | [] => (Py.Ok tt, printed)
  | y :: rest =>
      match collect_row ny y patches store (Py.range 0 nx 1) [] with
      | Py.Raise e => (Py.Raise e, printed)
      | Py.Ok row =>
          print_rows nx ny patches store rest
            (printed ++ ["[" ++ join ", " row ++ "]"]%string)
      end
  end.

(** [print_patches_matrix(patches, nx, ny, label)] *)
Definition print_patches_matrix (patches : list (option ref)) (nx ny : Z) (label : string)
    (store : Store) (printed : list string) : Py.result unit * list string :=
  let printed := printed ++ [(label ++ ":")%string] in
  match print_rows nx ny patches store (Py.range 0 ny 1) printed with
  | (Py.Raise e, printed) => (Py.Raise e, printed)
  | (Py.Ok _, printed) => (Py.Ok tt, printed ++ [EmptyString])
  end.

End PatchLayout.

(** ** The numeric functions of the sources in binary64

    The three functions whose results are numbers or printed numbers, a
    second time: here every [float] is a binary64 number and every operation
    rounds, overflows and raises as CPython does. *)

Module Binary64.

(** [to_attenuation_code(db, insertion_loss_db)], on [float]s as it is
    annotated and called. *)
Definition to_attenuation_code (db insertion_loss_db : Py64.float) : Py.result Z :=
  let db := Py64.sub db insertion_loss_db in
  if Py64.ge (Py64.Float db) (Py64.Int 0)
  then product <- Py64.scaled db (Py64.Int 4) ;;; Py64.round product
  else Py.Ok 0%Z.

(** [_generate_sweep_name(ku_freq, l_band_freq, phi_angle, theta_angle)]:
    the frequencies are [int]s, the angles [int]s or [float]s. *)
Definition _generate_sweep_name (cfg : Config) (env : Env)
    (ku_freq l_band_freq : Z) (phi_angle theta_angle : Py64.number) : M string :=
  ku_ghz <- lift (Py64.truediv ku_freq 1000000000) ;;
  let ku_freq_string := Py.replace "." "_" (Py64.repr ku_ghz) in
  l_band_ghz <- lift (Py64.truediv l_band_freq 1000000000) ;;
  let l_band_freq_string := Py.replace "." "_" (Py64.repr l_band_ghz) in
  phi_text <- lift (Py64.str phi_angle) ;;
  let phi_angle_string := Py.replace "." "_" phi_text in
  theta_text <- lift (Py64.str theta_angle) ;;
  let theta_angle_string := Py.replace "." "_" theta_text in
  now <- ChamberController.strftime_now env ;;
  ret (now ++ "_" ++
       ARRAY_INTERFACE cfg ++ "_" ++
       SYSTEM_CONFIGURATION cfg ++ "_" ++
       "Ku_Freq_" ++ ku_freq_string ++ "GHz_" ++
       "L_Freq_" ++ l_band_freq_string ++ "GHz_" ++
       "Phi_" ++ phi_angle_string ++ "_" ++
       "Theta_" ++ theta_angle_string)%string.

(** The constants of config.py that [_calculate_sweep_angles] reads, as
    Python numbers. *)
Record Turntable : Type := {
  SWEEP_BOTH_DIRECTIONS : bool;
  ELEVATION_PHI_ADJUSTMENT : bool;
  TURN_TABLE_ELV_LIMIT : Py64.number;
  EL_START : Py64.number;
  EL_FINISH : Py64.number;
  POL_START : Py64.number;
  POL_FINISH : Py64.number;
  AZ_START : Py64.number;
  AZ_FINISH : Py64.number;
  HORN_START : Py64.number;
  HORN_FINISH : Py64.number
}.

(** The dictionary [_calculate_sweep_angles] returns. *)
Record SweepAngles : Type := {
  az_start : Py64.number;
  az_finish : Py64.number;
  el_start : Py64.number;
  el_finish : Py64.number;
  pol_start : Py64.number;
  pol_finish : Py64.number;
  horn_start : Py64.number;
  horn_finish : Py64.number
}.

Section Window.
(** [sin] of the C library the interpreter is linked with. *)
Variable libm_sin : Py64.float -> Py64.float.
Variable cfg : Turntable.

(** [_calculate_sweep_angles(direction_forward, phi_angle, theta_angle)] *)
Definition _calculate_sweep_angles
    (direction_forward : bool) (phi_angle theta_angle : Py64.number)
  : Py.result SweepAngles :=
  let az_start := AZ_START cfg in
  let az_finish := AZ_FINISH cfg in
  let el_start := EL_START cfg in
  let el_finish := EL_FINISH cfg in
  let '(az_start, az_finish) :=
    if SWEEP_BOTH_DIRECTIONS cfg && negb direction_forward
    then (Py64.neg (AZ_START cfg), Py64.neg (AZ_FINISH cfg))
    else (az_start, az_finish) in
  el <-
    (if ELEVATION_PHI_ADJUSTMENT cfg then
       angle <- Py64.radians phi_angle ;;;
       sine <- Py64.sin libm_sin (Py64.Float angle) ;;;
       calc_elevation <- Py64.times theta_angle sine ;;;
       let calc_elevation :=
         Py64.min
           (Py64.max (Py64.Float calc_elevation) (Py64.neg (TURN_TABLE_ELV_LIMIT cfg)))
           (TURN_TABLE_ELV_LIMIT cfg) in
       Py.Ok (calc_elevation, calc_elevation)
     else Py.Ok (el_start, el_finish)) ;;;
  Py.Ok {| az_start := az_start;
           az_finish := az_finish;
           el_start := fst el;
           el_finish := snd el;
           pol_start := POL_START cfg;
           pol_finish := POL_FINISH cfg;
           horn_start := HORN_START cfg;
           horn_finish := HORN_FINISH cfg |}.
End Window.

End Binary64.


(** ** The Local command set in the words of the specification *)

Module Spec.
Import SystemMessages.

(** Local mode, per point: one band-configuration command, one
    channel-configuration command, four per-subarray attenuation commands,
    one IF-attenuation command, then for each of the four sub-arrays a
    beam-steering command followed by an RF-enable command. *)
Definition local_command_set
    (cls : Catalog) (cfg : Config) (ku_freq phi theta : Z) : Py.result (list string) :=
  setup <- ArrayController._get_rx_atten_commands cls cfg ku_freq
             ArrayController._get_default_attenuation_codes ;;;
  arrays <- Py.comprehension
              (fun sub_array =>
                 get_phased_array_commands cls
                   [("phased_array", Py.VStr sub_array); ("phi", Py.VInt phi);
                    ("theta", Py.VInt theta); ("gain", Py.VInt 0);
                    ("freq_hz", Py.VInt ku_freq); ("pol", Py.VInt (POL_ANGLE cfg))])
              [EmptyString; EmptyString; EmptyString; EmptyString] ;;;
  Py.Ok (setup ++ concat arrays).

(** The commands a call added to the serial log. *)
Definition dispatched (before after : State) : list string :=
  concat (drop (length (sent before)) (sent after)).

End Spec.

(** ** Concrete inputs used by the examples *)

(** A catalog with every template filled in, each placeholder the one the
    comments of system_messages.py list for it. *)
Definition example_catalog : SystemMessages.Catalog := {|
  SystemMessages.POWER_ON_CMD := [Py.Lit "power on"];
  SystemMessages.POWER_OFF_CMD := [Py.Lit "power off"];
  SystemMessages.BAND_CONFIG_CMD :=
    [Py.Lit "band "; Py.Field "channel"; Py.Lit " "; Py.Field "band_code"];
  SystemMessages.CHANNEL_CONFIG_CMD :=
    [Py.Lit "chan "; Py.Field "channel"; Py.Lit " "; Py.Field "freq_khz"; Py.Lit " ";
     Py.Field "if_freq_khz"];
  SystemMessages.BPL_ATTEN_CMD :=
    [Py.Lit "bpl "; Py.Field "channel"; Py.Lit " "; Py.Field "array"; Py.Lit " ";
     Py.Field "atten_code"];
  SystemMessages.IF_ATTEN_CMD :=
    [Py.Lit "ifatt "; Py.Field "channel"; Py.Lit " "; Py.Field "atten_code"];
  SystemMessages.ARRAY_STEER_CMD :=
    [Py.Lit "steer "; Py.Field "phased_array"; Py.Lit " "; Py.Field "phi"; Py.Lit " ";
     Py.Field "theta"; Py.Lit " "; Py.Field "gain"; Py.Lit " "; Py.Field "freq_hz";
     Py.Lit " "; Py.Field "pol"; Py.Lit " "; Py.Field "enable"];
  SystemMessages.ARRAY_RF_ENABLE_CMD :=
    [Py.Lit "rf "; Py.Field "phased_array"; Py.Lit " "; Py.Field "enable"];
  SystemMessages.POSE_CMD :=
    [Py.Lit "pose "; Py.Field "roll"; Py.Lit " "; Py.Field "pitch"; Py.Lit " ";
     Py.Field "yaw"; Py.Lit " "; Py.Field "x"; Py.Lit " "; Py.Field "y"];
  SystemMessages.POINTING_GEN_CMD := [Py.Lit "point"];
  SystemMessages.MODEM_IF_CMD :=
    [Py.Lit "modem "; Py.Field "freq_hz"; Py.Lit " "; Py.Field "enable"];
  SystemMessages.BEAM_INFO_CMD :=
    [Py.Lit "beam "; Py.Field "az"; Py.Lit " "; Py.Field "el"; Py.Lit " ";
     Py.Field "freq_hz"; Py.Lit " "; Py.Field "pol"; Py.Lit " "; Py.Field "enable"];
  SystemMessages.ARRAY_MAP := ∅;
  SystemMessages.BAND_CODES := <["L" := Py.VInt 1]> ∅
|}.

(** A world in which the link is up, the chamber software returns, the
    clock stands still and every raw draw is [draw]. *)
Definition steady_env (draw : Z) : Env := {|
  random_source := fun _ => draw;
  wall_clock := fun _ => "2024-10-16_12-00-00"%string;
  serial_link := fun _ => LinkUp;
  chamber_software := fun _ => true
|}.

(** config.py with other values for the interface mode and the four
    sweep-control flags. *)
Definition configured
    (interface : string) (both_directions elevation_phi phi_random theta_random : bool)
  : Config := {|
  ARRAY_INTERFACE := interface;
  SYSTEM_CONFIGURATION := SYSTEM_CONFIGURATION default_config;
  SERIAL_PORT := SERIAL_PORT default_config;
  SERIAL_BAUD := SERIAL_BAUD default_config;
  PLOT_SAVE_PATH := PLOT_SAVE_PATH default_config;
  MODEM_FREQ := MODEM_FREQ default_config;
  KU_FREQ_RANGE := KU_FREQ_RANGE default_config;
  THETA_RANGE := THETA_RANGE default_config;
  PHI_RANGE := PHI_RANGE default_config;
  SWEEP_BOTH_DIRECTIONS := both_directions;
  ELEVATION_PHI_ADJUSTMENT := elevation_phi;
  PHI_RANGE_RANDOM := phi_random;
  THETA_RANGE_RANDOM := theta_random;
  TURN_TABLE_ELV_LIMIT := TURN_TABLE_ELV_LIMIT default_config;
  EL_START := EL_START default_config;
  EL_FINISH := EL_FINISH default_config;
  POL_START := POL_START default_config;
  POL_FINISH := POL_FINISH default_config;
  AZ_START := AZ_START default_config;
  AZ_FINISH := AZ_FINISH default_config;
  HORN_START := HORN_START default_config;
  HORN_FINISH := HORN_FINISH default_config
|}.

(** Three consecutive sweep points, as (phi, theta). *)
Definition three_points : list (Z * Z) := [(0, 0); (0, 5); (180, 0)]%Z.

(** The three points processed in MessageForwarding mode with
    [SWEEP_BOTH_DIRECTIONS] set, from the initial state. *)
Abbreviation three_point_run :=
  (for_each three_points
     (fun point =>
        ChamberController.sweep_point example_catalog
          (configured MESSAGE_FORWARDING true false false false) (steady_env 0)
          11600000000 1500000000 (fst point) (snd point))
     initial_state) (only parsing).

(** ** Vocabulary of the properties *)

(** [r] is [s] with every decimal point turned into an underscore and
    nothing else changed. *)
Definition dots_replaced (s r : string) : Prop :=
  String.length r = String.length s /\
  forall i,
    String.get i r =
    match String.get i s with
    | Some c => Some (if Ascii.eqb c "." then "_"%char else c)
    | None => None
    end.

(** [st'] has the serial log, the measurement log and the controller
    fields of [st]; only the cursors into the oracles may differ. *)
Definition same_records (st st' : State) : Prop :=
  sent st' = sent st /\
  measured st' = measured st /\
  direction_forward st' = direction_forward st /\
  sweep_name st' = sweep_name st.

(** From [st] to [st'], [n] more measurements were requested and the
    direction flag was stored [n] times, negated each time when
    [both_directions] is set and unchanged otherwise. *)
Definition advanced (both_directions : bool) (n : nat) (st st' : State) : Prop :=
  length (measured st') = (length (measured st) + n)%nat /\
  direction_forward st' =
    if both_directions then Nat.iter n negb (direction_forward st)
    else direction_forward st.

(** The computation [c] leaves the records alone, from every state and
    whether it returns or raises. *)
Definition quiet {A} (c : M A) : Prop :=
  forall st, same_records st (snd (c st)).

(** The computation [c] neither requests a measurement nor stores a
    direction flag, whether it returns or raises. *)
Definition calm {A} (c : M A) : Prop :=
  forall st,
    measured (snd (c st)) = measured st /\
    direction_forward (snd (c st)) = direction_forward st.

(** Whenever the computation [c] returns, it has [advanced] by some number
    of measurements. *)
Definition counts (both_directions : bool) {A} (c : M A) : Prop :=
  forall st a st', c st = (Py.Ok a, st') -> exists n, advanced both_directions n st st'.

(** Where cell [i] of an [n] x [n] grid goes under a rotation by 90 and by
    180 degrees: with [x = i mod n] and [y = i / n], to [y + (n - 1 - x) * n]
    and to [(n - 1 - x) + (n - 1 - y) * n]. *)
Definition quarter_turn (n i : Z) : Z := (i / n + (n - 1 - i mod n) * n)%Z.

Definition half_turn (n i : Z) : Z := ((n - 1 - i mod n) + (n - 1 - i / n) * n)%Z.

(** The same on an [nx] x [ny] grid, as [matrix_rotation] computes them
    with [x = i mod nx] and [y = i / nx]; [quarter_turn_back] undoes
    [quarter_turn_grid], and [three_quarter_turn] is the rotation by 270
    degrees of a square grid. *)
Definition half_turn_grid (nx ny i : Z) : Z :=
  ((nx - 1 - i mod nx) + (ny - 1 - i / nx) * nx)%Z.

Definition quarter_turn_grid (nx ny i : Z) : Z :=
  (i / nx + (nx - 1 - i mod nx) * ny)%Z.

Definition quarter_turn_back (nx ny k : Z) : Z :=
  ((nx - 1 - k / ny) + (k mod ny) * nx)%Z.

Definition three_quarter_turn (n i : Z) : Z :=
  ((i mod n) * n + (n - 1 - i / n))%Z.

(** [quarter_turn_back] on list positions, the identity outside the grid. *)
Definition quarter_turn_back_position (nx ny : Z) (k : nat) : nat :=
  if (k <? Z.to_nat (nx * ny))%nat
  then Z.to_nat (quarter_turn_back nx ny (Z.of_nat k))
  else k.

(** The text [_generate_sweep_name] builds from a clock reading. *)
Definition sweep_name_text
    (cfg : Config) (now : string) (ku_freq l_band_freq phi_angle theta_angle : Z) : string :=
  (now ++ "_" ++
   ARRAY_INTERFACE cfg ++ "_" ++
   SYSTEM_CONFIGURATION cfg ++ "_" ++
   "Ku_Freq_" ++ Py.replace "." "_" (Py.str_float (Py.truediv ku_freq 1000000000)) ++ "GHz_" ++
   "L_Freq_" ++ Py.replace "." "_" (Py.str_float (Py.truediv l_band_freq 1000000000)) ++ "GHz_" ++
   "Phi_" ++ Py.replace "." "_" (Py.str_int phi_angle) ++ "_" ++
   "Theta_" ++ Py.replace "." "_" (Py.str_int theta_angle))%string.

(** The measurement requested for a point when the clock is at its
    [clock]-th reading and the direction flag is [direction]. *)
Definition call_for
    (cfg : Config) (env : Env) (ku_freq l_band_freq : Z)
    (clock : nat) (direction : bool) (point : Z * Z) : SweepCall := {|
  call_sweep_name :=
    sweep_name_text cfg (wall_clock env clock) ku_freq l_band_freq (fst point) (snd point);
  angles_list :=
    ChamberController._calculate_sweep_angles cfg direction
      (IZR (fst point)) (IZR (snd point));
  save_path := PLOT_SAVE_PATH cfg;
  sPar := false
|}.



(** A window that [_calculate_sweep_angles] can return under [cfg]. *)
Definition window_within_config (cfg : Config) (w : SweepAngles) : Prop :=
  pol_start w = POL_START cfg /\ pol_finish w = POL_FINISH cfg /\
  horn_start w = HORN_START cfg /\ horn_finish w = HORN_FINISH cfg /\
  ((az_start w = AZ_START cfg /\ az_finish w = AZ_FINISH cfg) \/
   (SWEEP_BOTH_DIRECTIONS cfg = true /\
    az_start w = (- AZ_START cfg)%R /\ az_finish w = (- AZ_FINISH cfg)%R)) /\
  (if ELEVATION_PHI_ADJUSTMENT cfg
   then el_start w = el_finish w /\
        ((0 <= TURN_TABLE_ELV_LIMIT cfg)%R ->
         (- TURN_TABLE_ELV_LIMIT cfg <= el_start w <= TURN_TABLE_ELV_LIMIT cfg)%R)
   else el_start w = EL_START cfg /\ el_finish w = EL_FINISH cfg).

(** A measurement request as [_run_chamber_sweep] makes them: the name
    generated for some point at some clock reading, a window within the
    configuration, the configured save path and no S-parameters. *)
Definition well_formed_call
    (cfg : Config) (env : Env) (ku_freq l_band_freq : Z) (call : SweepCall) : Prop :=
  (exists clock phi theta,
     call_sweep_name call
     = sweep_name_text cfg (wall_clock env clock) ku_freq l_band_freq phi theta) /\
  window_within_config cfg (angles_list call) /\
  save_path call = PLOT_SAVE_PATH cfg /\
  sPar call = false.

(** The computation [c] only appends to the measurement log, and what it
    appends satisfies [P], whether it returns or raises. *)
Definition appends (P : SweepCall -> Prop) {A} (c : M A) : Prop :=
  forall st, exists calls, measured (snd (c st)) = measured st ++ calls /\ Forall P calls.

(** Whether a character occurs in a string. *)
Fixpoint occurs (c : ascii) (s : string) : Prop :=
  match s with
  | EmptyString => False
  | String c' s' => c = c' \/ occurs c s'
  end.



(** A world in which the serial port can never be opened. *)
Definition unplugged_env : Env := {|
  random_source := fun _ => 0%Z;
  wall_clock := fun _ => "2024-10-16_12-00-00"%string;
  serial_link := fun _ => PortUnavailable;
  chamber_software := fun _ => true
|}.

(** A 2 x 2 and a 4 x 4 grid of labelled patches. *)
Definition grid_2x2 : list (option string) :=
  [Some "A"; Some "B"; Some "C"; Some "D"]%string.

Definition grid_4x4 : list (option string) :=
  [Some "A"; Some "B"; Some "C"; Some "D"; Some "E"; Some "F"; Some "G"; Some "H";
   Some "I"; Some "J"; Some "K"; Some "L"; Some "M"; Some "N"; Some "O"; Some "P"]%string.

(** What [patch_translation] makes of the patch at column [x] and row [y]
    of an array placed at [pos]: both coordinates stored in [pose], then the
    label [l]. *)
Definition laid_out (pos : PatchLayout.PhasedArrayPos) (spacing x y : Z) (l : string)
    (before : PatchLayout.Patch) : PatchLayout.Patch :=
  PatchLayout.set_label l
    (PatchLayout.set_pose "t_y" (PatchLayout.row pos + y * spacing)%Z
       (PatchLayout.set_pose "t_x" (PatchLayout.column pos + x * spacing)%Z before)).

(** The label of the patch in cell [i] of a list, if the cell exists, holds
    a patch and the patch has a label. *)
Definition label_at (store : PatchLayout.Store) (patches : list (option PatchLayout.ref))
    (i : Z) : option string :=
  match PatchLayout.patch_at patches i with
  | Py.Ok r => PatchLayout.label (store r)
  | Py.Raise _ => None
  end.

(** The matrix a list of patches stands for: row [y], column [x] is the
    cell [y + ny * x]. *)
Definition shown (store : PatchLayout.Store) (patches : list (option PatchLayout.ref))
    (ny y x : Z) : string :=
  default EmptyString (label_at store patches (y + ny * x)).

(** The lines that show a matrix with [ny] rows and [nx] columns under a
    title: the title, one bracketed line per row, an empty line. *)
Definition printed_matrix (title : string) (nx ny : Z) (cell : Z -> Z -> string)
  : list string :=
  [(title ++ ":")%string]
  ++ map (fun y =>
            ("[" ++ PatchLayout.join ", " (map (cell y) (Py.range 0 nx 1)) ++ "]")%string)
       (Py.range 0 ny 1)
  ++ [EmptyString].

(** Six fresh patches, at the references 0 to 5. *)
Definition six_patches : list PatchLayout.ref := [0; 1; 2; 3; 4; 5]%nat.

Definition fresh_store : PatchLayout.Store := fun _ => PatchLayout.new_patch.

(** A store in which the patch behind reference [r] carries the letter
    number [r] of the alphabet as its label. *)
Definition lettered_store : PatchLayout.Store :=
  fun r => PatchLayout.set_label (String (ascii_of_nat (65 + r)) EmptyString)
             PatchLayout.new_patch.

(** A C library known at three arguments only: [sin(0.0)],
    [sin(radians(90))] and [sin(radians(180))] are the doubles glibc returns
    there; everywhere else it yields NaN, which makes [math.sin] raise, so
    that no example rests on a value that was not looked up. *)
Definition table_sin (x : Py64.float) : Py64.float :=
  if Py64.eq (Py64.Float x) (Py64.Float (Py64.zero false)) then x
  else if Py64.eq (Py64.Float x) (Py64.Float (Py64.literal 15707963267948966 (-16)))
  then Py64.literal 1 0
  else if Py64.eq (Py64.Float x) (Py64.Float (Py64.literal 3141592653589793 (-15)))
  then Py64.literal 12246467991473532 (-32)
  else Py64.nan.

(** The turntable constants config.py ships with, and the same with
    [ELEVATION_PHI_ADJUSTMENT] switched on. *)
Definition shipped_turntable (elevation_phi : bool) : Binary64.Turntable := {|
  Binary64.SWEEP_BOTH_DIRECTIONS := false;
  Binary64.ELEVATION_PHI_ADJUSTMENT := elevation_phi;
  Binary64.TURN_TABLE_ELV_LIMIT := Py64.Int 20;
  Binary64.EL_START := Py64.Int 0;
  Binary64.EL_FINISH := Py64.Int 0;
  Binary64.POL_START := Py64.Int 0;
  Binary64.POL_FINISH := Py64.Int 0;
  Binary64.AZ_START := Py64.Int (-35);
  Binary64.AZ_FINISH := Py64.Int 35;
  Binary64.HORN_START := Py64.Int 90;
  Binary64.HORN_FINISH := Py64.Int 90
|}.

(** Whether a number is an [int] or a finite [float]. *)
Definition finite_number (a : Py64.number) : bool :=
  match a with
  | Py64.Int _ => true
  | Py64.Float x => Py64.is_finite x
  end.

(** The turntable constants with another configured elevation range. *)
Definition with_elevation (cfg : Binary64.Turntable) (el_start el_finish : Py64.number)
  : Binary64.Turntable := {|
  Binary64.SWEEP_BOTH_DIRECTIONS := Binary64.SWEEP_BOTH_DIRECTIONS cfg;
  Binary64.ELEVATION_PHI_ADJUSTMENT := Binary64.ELEVATION_PHI_ADJUSTMENT cfg;
  Binary64.TURN_TABLE_ELV_LIMIT := Binary64.TURN_TABLE_ELV_LIMIT cfg;
  Binary64.EL_START := el_start;
  Binary64.EL_FINISH := el_finish;
  Binary64.POL_START := Binary64.POL_START cfg;
  Binary64.POL_FINISH := Binary64.POL_FINISH cfg;
  Binary64.AZ_START := Binary64.AZ_START cfg;
  Binary64.AZ_FINISH := Binary64.AZ_FINISH cfg;
  Binary64.HORN_START := Binary64.HORN_START cfg;
  Binary64.HORN_FINISH := Binary64.HORN_FINISH cfg
|}.

(** * Properties *)

(** ** AttenuationCodec *)

Lemma round_floor_or_next (q : Q) :
  Py.round q = Qfloor q \/ Py.round q = (Qfloor q + 1)%Z.
Proof.
  unfold Py.round.
  destruct (Qcompare _ _); [destruct (Z.even _)|..]; auto.
Qed.

Lemma round_nearest (q : Q) :
  (inject_Z (Py.round q) - (1 # 2) <= q /\ q <= inject_Z (Py.round q) + (1 # 2))%Q.
Proof.
  pose proof (Qfloor_le q) as Hlo.
  pose proof (Qlt_floor q) as Hhi.
  rewrite inject_Z_plus in Hhi.
  change (inject_Z 1) with 1%Q in Hhi.
  unfold Py.round.
  destruct (Qcompare (q - inject_Z (Qfloor q)) (1 # 2)) eqn:Hc.
  - apply Qeq_alt in Hc.
    destruct (Z.even (Qfloor q)); rewrite ?inject_Z_plus;
      change (inject_Z 1) with 1%Q; split; lra.
  - apply Qlt_alt in Hc. split; lra.
  - apply Qgt_alt in Hc. rewrite inject_Z_plus.
    change (inject_Z 1) with 1%Q. split; lra.
Qed.

Lemma round_nonneg (q : Q) : (0 <= q)%Q -> (0 <= Py.round q)%Z.
Proof.
  intros Hq.
  assert (0 <= Qfloor q)%Z as Hf.
  { change 0%Z with (Qfloor 0). now apply Qfloor_resp_le. }
  destruct (round_floor_or_next q) as [-> | ->]; lia.
Qed.

(** *** Binary64 arithmetic *)

Lemma shr_1_nonneg (mrs : SpecFloat.shr_record) :
  (0 <= SpecFloat.shr_m mrs)%Z -> (0 <= SpecFloat.shr_m (SpecFloat.shr_1 mrs))%Z.
Proof.
  destruct mrs as [[|p|p] r s]; cbn; intros H; [lia | destruct p; cbn; lia | lia].
Qed.

Lemma iter_shr_1_nonneg (p : positive) :
  forall mrs, (0 <= SpecFloat.shr_m mrs)%Z ->
              (0 <= SpecFloat.shr_m (SpecFloat.iter_pos SpecFloat.shr_1 p mrs))%Z.
Proof.
  induction p as [p IH | p IH |]; intros mrs H; cbn [SpecFloat.iter_pos].
  - apply IH, IH. now apply shr_1_nonneg.
  - now apply IH, IH.
  - now apply shr_1_nonneg.
Qed.

Lemma shr_fexp_nonneg (m e : Z) (l : SpecFloat.location) :
  (0 <= m)%Z ->
  (0 <= SpecFloat.shr_m (fst (SpecFloat.shr_fexp Py64.prec Py64.emax m e l)))%Z.
Proof.
  intros H. unfold SpecFloat.shr_fexp, SpecFloat.shr.
  assert (0 <= SpecFloat.shr_m (SpecFloat.shr_record_of_loc m l))%Z as Hrec
    by (destruct l as [|[]]; exact H).
  destruct (_ - e)%Z; cbn [fst]; [exact Hrec | now apply iter_shr_1_nonneg | exact Hrec].
Qed.

(** Rounding a non-negative mantissa gives a zero, a finite float or an
    infinity of the sign asked for, never a NaN. *)
Lemma binary_round_aux_outcome (sx : bool) (mx ex : Z) (lx : SpecFloat.location) :
  (0 <= mx)%Z ->
  SpecFloat.binary_round_aux Py64.prec Py64.emax sx mx ex lx = Py64.zero sx \/
  SpecFloat.binary_round_aux Py64.prec Py64.emax sx mx ex lx = Py64.infinity sx \/
  exists m e,
    SpecFloat.binary_round_aux Py64.prec Py64.emax sx mx ex lx = SpecFloat.S754_finite sx m e.
Proof.
  intros H. unfold SpecFloat.binary_round_aux.
  pose proof (shr_fexp_nonneg mx ex lx H) as H1.
  destruct (SpecFloat.shr_fexp Py64.prec Py64.emax mx ex lx) as [mrs' e'].
  cbn [fst] in H1.
  assert (0 <= SpecFloat.round_nearest_even (SpecFloat.shr_m mrs')
                 (SpecFloat.loc_of_shr_record mrs'))%Z as H2.
  { unfold SpecFloat.round_nearest_even.
    destruct (SpecFloat.loc_of_shr_record mrs') as [|[]]; try lia.
    destruct (Z.even _); lia. }
  pose proof (shr_fexp_nonneg _ e' SpecFloat.loc_Exact H2) as H3.
  destruct (SpecFloat.shr_fexp Py64.prec Py64.emax _ e' SpecFloat.loc_Exact) as [mrs'' e''].
  cbn [fst] in H3.
  destruct (SpecFloat.shr_m mrs'') as [|m|m]; [now left | | lia].
  right. destruct (e'' <=? _)%Z; [right; eauto | now left].
Qed.

Lemma magnitude_positive (m : positive) (e : Z) : (0 < Py64.magnitude m e)%Q.
Proof.
  unfold Py64.magnitude. destruct e as [|p|p]; unfold Qlt; cbn [Qnum Qden inject_Z].
  - lia.
  - pose proof (Z.pow_pos_nonneg 2 (Z.pos p) ltac:(lia) ltac:(lia)). nia.
  - lia.
Qed.

(** Which floats are [>= 0]: the zeros, the positive finite floats and
    [+inf]. *)
Lemma float_ge_zero (x : Py64.float) :
  Py64.ge (Py64.Float x) (Py64.Int 0) = true <->
  (exists s, x = Py64.zero s) \/ x = Py64.infinity false \/
  exists m e, x = SpecFloat.S754_finite false m e.
Proof.
  unfold Py64.ge, Py64.compare. cbn [Py64.number_worth].
  destruct x as [s | s | | s m e]; cbn [Py64.float_worth Py64.compare_worth].
  - split; [intros _; left; eauto | reflexivity].
  - destruct s; split; try discriminate; try reflexivity.
    + intros [[s H] | [H | (m & e & H)]]; discriminate H.
    + intros _. right. now left.
  - split; [discriminate|]. intros [[s H] | [H | (m & e & H)]]; discriminate H.
  - pose proof (magnitude_positive m e) as Hpos.
    destruct s.
    + assert ((- Py64.magnitude m e ?= inject_Z 0)%Q = Lt) as ->.
      { apply (proj1 (Qlt_alt _ _)). change (inject_Z 0) with 0%Q. lra. }
      split; [discriminate|].
      intros [[s H] | [H | (m' & e' & H)]]; discriminate H.
    + assert ((Py64.magnitude m e ?= inject_Z 0)%Q = Gt) as ->.
      { apply (proj1 (Qgt_alt _ _)). change (inject_Z 0) with 0%Q. lra. }
      split; [intros _; right; right; eauto | reflexivity].
Qed.

(** The product of a float that is [>= 0] and a positive finite float. *)
Lemma mul_of_nonnegative (x : Py64.float) (m : positive) (e : Z) :
  Py64.ge (Py64.Float x) (Py64.Int 0) = true ->
  (exists s, Py64.mul x (SpecFloat.S754_finite false m e) = Py64.zero s) \/
  Py64.mul x (SpecFloat.S754_finite false m e) = Py64.infinity false \/
  exists m' e', Py64.mul x (SpecFloat.S754_finite false m e) = SpecFloat.S754_finite false m' e'.
Proof.
  intros Hge. apply float_ge_zero in Hge as [[s ->] | [-> | (mx & ex & ->)]].
  - left. exists (xorb s false). reflexivity.
  - right. now left.
  - unfold Py64.mul, SpecFloat.SFmul. cbn [xorb].
    destruct (binary_round_aux_outcome false (Z.pos (mx * m)) (ex + e) SpecFloat.loc_Exact
                ltac:(lia)) as [H | [H | H]].
    + left. exists false. exact H.
    + right. now left.
    + right. now right.
Qed.

Lemma four_as_double :
  Py64.as_double (Py64.Int 4) = Py.Ok (SpecFloat.S754_finite false 4503599627370496 (-50)).
Proof. vm_compute. reflexivity. Qed.

(** What [to_attenuation_code] computes, step by step. *)
Lemma to_attenuation_code_steps (db insertion_loss_db : Py64.float) :
  Binary64.to_attenuation_code db insertion_loss_db
  = if Py64.ge (Py64.Float (Py64.sub db insertion_loss_db)) (Py64.Int 0)
    then Py64.round (Py64.mul (Py64.sub db insertion_loss_db)
                       (SpecFloat.S754_finite false 4503599627370496 (-50)))
    else Py.Ok 0%Z.
Proof.
  unfold Binary64.to_attenuation_code, Py64.scaled.
  rewrite four_as_double. reflexivity.
Qed.

(** C9. [to_attenuation_code] in binary64.  With [adjusted] the double
    [power_db - insertion_loss_db] and [product] the double [adjusted * 4]:
    when [adjusted >= 0] and [product] is finite it returns [round(product)],
    the integer nearest to the value of [product] (within one half of it),
    which is not negative; when [adjusted >= 0] and [product] is not finite,
    [product] is [+inf] and it raises [OverflowError]; when [adjusted >= 0]
    does not hold ([adjusted] negative or NaN) it returns 0.  So it returns a
    non-negative integer whenever it returns, and raises nothing but
    [OverflowError]; [to_attenuation_code(0.0, 1.6) = 0] and
    [to_attenuation_code(5.0, 1.6) = 14]. *)
Theorem attenuation_code_binary64 (power_db insertion_loss_db : Py64.float) :
  let adjusted := Py64.sub power_db insertion_loss_db in
  let product := Py64.mul adjusted (Py64.literal 4 0) in
  let outcome := Binary64.to_attenuation_code power_db insertion_loss_db in
  (Py64.ge (Py64.Float adjusted) (Py64.Int 0) = true ->
   (forall q, Py64.float_worth product = Py64.Exactly q ->
      outcome = Py.Ok (Py.round q) /\
      (inject_Z (Py.round q) - (1 # 2) <= q /\ q <= inject_Z (Py.round q) + (1 # 2))%Q /\
      (0 <= Py.round q)%Z) /\
   (Py64.is_finite product = false ->
      product = Py64.infinity false /\ outcome = Py.Raise Py.OverflowError)) /\
  (Py64.ge (Py64.Float adjusted) (Py64.Int 0) = false -> outcome = Py.Ok 0%Z) /\
  (forall code, outcome = Py.Ok code -> (0 <= code)%Z) /\
  (forall e, outcome = Py.Raise e -> e = Py.OverflowError) /\
  Binary64.to_attenuation_code (Py64.literal 0 0) (Py64.literal 16 (-1)) = Py.Ok 0%Z /\
  Binary64.to_attenuation_code (Py64.literal 5 0) (Py64.literal 16 (-1)) = Py.Ok 14%Z.
Proof.
  cbv zeta.
  change (Py64.literal 4 0) with (SpecFloat.S754_finite false 4503599627370496 (-50)).
  rewrite to_attenuation_code_steps.
  set (adjusted := Py64.sub power_db insertion_loss_db).
  set (product := Py64.mul adjusted _).
  assert (Py64.ge (Py64.Float adjusted) (Py64.Int 0) = true ->
          forall q, Py64.float_worth product = Py64.Exactly q -> (0 <= q)%Q) as Hsign.
  { intros Hge q Hq.
    destruct (mul_of_nonnegative adjusted 4503599627370496 (-50) Hge)
      as [[s H] | [H | (m & e & H)]]; fold product in H; rewrite H in Hq;
      cbn [Py64.float_worth Py64.zero Py64.infinity] in Hq; try discriminate Hq.
    - injection Hq as <-. lra.
    - injection Hq as <-. pose proof (magnitude_positive m e). lra. }
  assert (Py64.ge (Py64.Float adjusted) (Py64.Int 0) = true ->
          Py64.is_finite product = false -> product = Py64.infinity false) as Hinf.
  { intros Hge Hfin.
    destruct (mul_of_nonnegative adjusted 4503599627370496 (-50) Hge)
      as [[s H] | [H | (m & e & H)]]; fold product in H; rewrite H in Hfin |- *;
      first [discriminate Hfin | reflexivity]. }
  destruct (Py64.ge (Py64.Float adjusted) (Py64.Int 0)) eqn:Hge.
  - specialize (Hsign eq_refl). specialize (Hinf eq_refl).
    split; [intros _; split|].
    + intros q Hq. unfold Py64.round. rewrite Hq.
      split; [reflexivity|]. split; [apply round_nearest|].
      apply round_nonneg. now apply Hsign.
    + intros Hfin. split; [now apply Hinf|].
      rewrite (Hinf Hfin). reflexivity.
    + split; [discriminate|].
      split.
      * intros code. unfold Py64.round.
        destruct (Py64.float_worth product) as [| s | q] eqn:Hq; try discriminate.
        intros [= <-]. apply round_nonneg. now apply Hsign.
      * split.
        -- intros e. unfold Py64.round.
           destruct (Py64.float_worth product) as [| s | q] eqn:Hq; try discriminate.
           ++ assert (Py64.is_finite product = false) as Hfin
                by (destruct product; first [discriminate Hq | reflexivity]).
              rewrite (Hinf Hfin) in Hq. discriminate Hq.
           ++ now intros [= <-].
        -- split; vm_compute; reflexivity.
  - split; [discriminate|].
    split; [reflexivity|].
    split; [intros code [= <-]; lia|].
    split; [discriminate|].
    split; vm_compute; reflexivity.
Qed.

Lemma attenuation_code_binary64_witness :
  Py64.ge (Py64.Float (Py64.sub (Py64.literal 5 0) (Py64.literal 16 (-1)))) (Py64.Int 0) = true /\
  Py64.float_worth (Py64.mul (Py64.sub (Py64.literal 5 0) (Py64.literal 16 (-1)))
                      (Py64.literal 4 0))
  = Py64.Exactly (7656119366529843 # 562949953421312) /\
  Binary64.to_attenuation_code (Py64.literal 5 0) (Py64.literal 16 (-1))
  = Py.Ok (Py.round (7656119366529843 # 562949953421312)) /\
  Py.round (7656119366529843 # 562949953421312) = 14%Z.
Proof.
  assert (Py64.ge (Py64.Float (Py64.sub (Py64.literal 5 0) (Py64.literal 16 (-1))))
            (Py64.Int 0) = true) as Hge by (vm_compute; reflexivity).
  assert (Py64.float_worth (Py64.mul (Py64.sub (Py64.literal 5 0) (Py64.literal 16 (-1)))
                              (Py64.literal 4 0))
          = Py64.Exactly (7656119366529843 # 562949953421312)) as Hq
    by (vm_compute; reflexivity).
  split; [exact Hge|]. split; [exact Hq|]. split; [|vm_compute; reflexivity].
  exact (proj1 (proj1 (proj1 (attenuation_code_binary64 (Py64.literal 5 0)
                                (Py64.literal 16 (-1))) Hge) _ Hq)).
Defined.

(** [to_attenuation_code(1e308, 0.0)] raises [OverflowError]: the function
    is not total. *)
Lemma attenuation_code_overflows :
  Binary64.to_attenuation_code (Py64.literal 1 308) (Py64.literal 0 0)
  = Py.Raise Py.OverflowError /\
  Py64.is_finite (Py64.literal 1 308) = true.
Proof. split; vm_compute; reflexivity. Qed.

(** The difference is rounded to a double before it is multiplied:
    [to_attenuation_code(100.375, 2**-50)] is 402, although
    [(100.375 - 2**-50) * 4] is below 401.5; and
    [to_attenuation_code(4.975, 1.6)] is 13, because the doubles written
    [4.975] and [1.6] differ by less than 3.375. *)
Example attenuation_code_rounds_twice :
  Binary64.to_attenuation_code (Py64.literal 100375 (-3))
    (SpecFloat.S754_finite false 4503599627370496 (-102)) = Py.Ok 402%Z /\
  Py.round (((100375 # 1000) - (1 # 1125899906842624)) * 4)%Q = 401%Z /\
  Binary64.to_attenuation_code (Py64.literal 4975 (-3)) (Py64.literal 16 (-1)) = Py.Ok 13%Z.
Proof.
  split; [vm_compute; reflexivity|].
  split; [vm_compute; reflexivity|].
  vm_compute; reflexivity.
Qed.

(** At the two calls the sources make, the binary64 function returns the
    codes the model of a run uses. *)
Example default_codes_in_binary64 :
  Binary64.to_attenuation_code (Py64.literal 0 0) (Py64.literal 16 (-1))
  = Py.Ok (HardwareInterface.to_attenuation_code 0.0 1.6) /\
  Binary64.to_attenuation_code (Py64.literal 0 0) (Py64.literal 0 0)
  = Py.Ok (HardwareInterface.to_attenuation_code 0.0 0.0).
Proof. split; vm_compute; reflexivity. Qed.

(** ** NamingService *)

Lemma replace_dots (s : string) : dots_replaced s (Py.replace "." "_" s).
Proof.
  split.
  - induction s as [|c s IH]; simpl; [reflexivity | now rewrite IH].
  - induction s as [|c s IH]; intros i; simpl; [reflexivity|].
    destruct i; [reflexivity | apply IH].
Qed.

Lemma replace_leaves_no_dot (s : string) (i : nat) :
  String.get i (Py.replace "." "_" s) <> Some "."%char.
Proof.
  revert i. induction s as [|c s IH]; intros i; simpl; [discriminate|].
  destruct i; [|apply IH].
  destruct (Ascii.eqb c ".") eqn:E; [discriminate|].
  intros [= ->]. now rewrite Ascii.eqb_refl in E.
Qed.

Lemma truediv_by_giga (freq : Z) :
  (exists ghz, Py64.truediv freq 1000000000 = Py.Ok ghz) \/
  Py64.truediv freq 1000000000 = Py.Raise Py.OverflowError.
Proof.
  unfold Py64.truediv. cbn [Z.eqb].
  destruct (freq =? 0)%Z; [left; eauto|].
  destruct (Py64.is_inf _); [now right | left; eauto].
Qed.

Lemma str_outcome (a : Py64.number) :
  (exists text, Py64.str a = Py.Ok text) \/ Py64.str a = Py.Raise Py.ValueError.
Proof.
  destruct a as [z | x]; cbn [Py64.str]; [|left; eauto].
  destruct (_ <=? _)%Z; [now right | left; eauto].
Qed.

(** C8. [_generate_sweep_name] in binary64, with angles that are [int]s or
    [float]s.  Two invocations that read the same timestamp and get the same
    configuration identifiers, frequencies and angles have the same outcome.
    Whenever both frequencies divided by 1000000000 are doubles and both
    angles are printed, the outcome is the name made of the timestamp,
    [ARRAY_INTERFACE], [SYSTEM_CONFIGURATION] and the two frequency and two
    angle fields, where each of these four fields is the printed number with
    every decimal point replaced by an underscore and holds no decimal point.
    Otherwise the outcome is [OverflowError], for a quotient beyond the
    doubles, or [ValueError], for an [int] angle of more than 4300 digits. *)
Theorem sweep_name_binary64
    (cfg : Config) (env1 env2 : Env) (st1 st2 : State)
    (ku_freq l_band_freq : Z) (phi theta : Py64.number) :
  wall_clock env1 (clock_reads st1) = wall_clock env2 (clock_reads st2) ->
  let first := fst (Binary64._generate_sweep_name cfg env1 ku_freq l_band_freq phi theta st1) in
  let second := fst (Binary64._generate_sweep_name cfg env2 ku_freq l_band_freq phi theta st2) in
  first = second /\
  (forall ku_ghz l_ghz phi_text theta_text,
     Py64.truediv ku_freq 1000000000 = Py.Ok ku_ghz ->
     Py64.truediv l_band_freq 1000000000 = Py.Ok l_ghz ->
     Py64.str phi = Py.Ok phi_text ->
     Py64.str theta = Py.Ok theta_text ->
     exists ku_s l_s phi_s theta_s : string,
       dots_replaced (Py64.repr ku_ghz) ku_s /\
       dots_replaced (Py64.repr l_ghz) l_s /\
       dots_replaced phi_text phi_s /\
       dots_replaced theta_text theta_s /\
       (forall i, String.get i ku_s <> Some "."%char /\ String.get i l_s <> Some "."%char /\
                  String.get i phi_s <> Some "."%char /\ String.get i theta_s <> Some "."%char) /\
       first = Py.Ok (wall_clock env1 (clock_reads st1) ++ "_" ++ ARRAY_INTERFACE cfg ++ "_" ++
                      SYSTEM_CONFIGURATION cfg ++ "_Ku_Freq_" ++ ku_s ++ "GHz_L_Freq_" ++ l_s ++
                      "GHz_Phi_" ++ phi_s ++ "_Theta_" ++ theta_s)%string) /\
  (forall e, first = Py.Raise e ->
     (e = Py.OverflowError /\
      (Py64.truediv ku_freq 1000000000 = Py.Raise Py.OverflowError \/
       Py64.truediv l_band_freq 1000000000 = Py.Raise Py.OverflowError)) \/
     (e = Py.ValueError /\
      (Py64.str phi = Py.Raise Py.ValueError \/ Py64.str theta = Py.Raise Py.ValueError))).
Proof.
  intros Hclock. cbv zeta.
  unfold Binary64._generate_sweep_name, bind, lift, ret, ChamberController.strftime_now.
  destruct (truediv_by_giga ku_freq) as [[ku_ghz Hku] | Hku]; rewrite Hku;
    [|cbn [fst]; split; [reflexivity|]; split; [discriminate|];
      intros e [= <-]; left; split; [reflexivity | now left]].
  destruct (truediv_by_giga l_band_freq) as [[l_ghz Hl] | Hl]; rewrite Hl;
    [|cbn [fst]; split; [reflexivity|]; split; [discriminate|];
      intros e [= <-]; left; split; [reflexivity | now right]].
  destruct (str_outcome phi) as [[phi_text Hphi] | Hphi]; rewrite Hphi;
    [|cbn [fst]; split; [reflexivity|]; split; [discriminate|];
      intros e [= <-]; right; split; [reflexivity | now left]].
  destruct (str_outcome theta) as [[theta_text Htheta] | Htheta]; rewrite Htheta;
    [|cbn [fst]; split; [reflexivity|]; split; [discriminate|];
      intros e [= <-]; right; split; [reflexivity | now right]].
  cbn [fst]. rewrite <- Hclock.
  split; [reflexivity|]. split; [|discriminate].
  intros ku' l' phi' theta' [= <-] [= <-] [= <-] [= <-].
  exists (Py.replace "." "_" (Py64.repr ku_ghz)), (Py.replace "." "_" (Py64.repr l_ghz)),
         (Py.replace "." "_" phi_text), (Py.replace "." "_" theta_text).
  repeat (split; [apply replace_dots|]).
  split; [intros i; repeat split; apply replace_leaves_no_dot|].
  reflexivity.
Qed.

Lemma sweep_name_binary64_witness :
  wall_clock (steady_env 0) (clock_reads initial_state)
    = wall_clock (steady_env 7) (clock_reads initial_state) /\
  fst (Binary64._generate_sweep_name (configured MESSAGE_FORWARDING false false false false)
         (steady_env 0) 11600000000 1500000000
         (Py64.Float (Py64.literal 225 (-1))) (Py64.Int 5) initial_state)
  = fst (Binary64._generate_sweep_name (configured MESSAGE_FORWARDING false false false false)
           (steady_env 7) 11600000000 1500000000
           (Py64.Float (Py64.literal 225 (-1))) (Py64.Int 5) initial_state).
Proof.
  split; [reflexivity|].
  exact (proj1 (sweep_name_binary64 (configured MESSAGE_FORWARDING false false false false)
                  (steady_env 0) (steady_env 7) initial_state initial_state
                  11600000000 1500000000 (Py64.Float (Py64.literal 225 (-1))) (Py64.Int 5)
                  eq_refl)).
Defined.

(** The name of the point [phi = 22.5], [theta = 5] at the shipped
    frequencies; a frequency of 1 Hz is printed in exponent notation, which
    has no decimal point to replace; a frequency beyond the doubles and an
    angle of 4301 digits raise. *)
Example sweep_name_binary64_examples :
  fst (Binary64._generate_sweep_name (configured MESSAGE_FORWARDING false false false false)
         (steady_env 0) 11600000000 1500000000
         (Py64.Float (Py64.literal 225 (-1))) (Py64.Int 5) initial_state)
  = Py.Ok "2024-10-16_12-00-00_app_cli_message_forewarding__Ku_Freq_11_6GHz_L_Freq_1_5GHz_Phi_22_5_Theta_5"%string /\
  fst (Binary64._generate_sweep_name (configured MESSAGE_FORWARDING false false false false)
         (steady_env 0) 1 1500000000 (Py64.Int 180) (Py64.Int 5) initial_state)
  = Py.Ok "2024-10-16_12-00-00_app_cli_message_forewarding__Ku_Freq_1e-09GHz_L_Freq_1_5GHz_Phi_180_Theta_5"%string /\
  fst (Binary64._generate_sweep_name (configured MESSAGE_FORWARDING false false false false)
         (steady_env 0) (10 ^ 400) 1500000000 (Py64.Int 180) (Py64.Int 5) initial_state)
  = Py.Raise Py.OverflowError /\
  fst (Binary64._generate_sweep_name (configured MESSAGE_FORWARDING false false false false)
         (steady_env 0) 11600000000 1500000000 (Py64.Int (10 ^ 4300)) (Py64.Int 5)
         initial_state)
  = Py.Raise Py.ValueError.
Proof.
  split; [vm_compute; reflexivity|].
  split; [vm_compute; reflexivity|].
  split; [vm_compute; reflexivity|].
  vm_compute; reflexivity.
Qed.

Lemma str_of_int (z : Z) :
  (Z.abs z < 10 ^ 4300)%Z -> Py64.str (Py64.Int z) = Py.Ok (Py.str_int z).
Proof.
  intros Hz. cbn [Py64.str].
  destruct (Z.leb_spec (10 ^ 4300) (Z.abs z)) as [H | H]; [|reflexivity].
  exfalso. exact (Z.lt_irrefl _ (Z.lt_le_trans _ _ _ Hz H)).
Qed.

(** At the shipped frequencies and for [int] angles of at most 4300
    digits, the name generated in binary64 is the name the model of a run
    uses. *)
Lemma names_agree_at_shipped_frequencies
    (cfg : Config) (env : Env) (phi theta : Z) (st : State) :
  (Z.abs phi < 10 ^ 4300)%Z -> (Z.abs theta < 10 ^ 4300)%Z ->
  Binary64._generate_sweep_name cfg env 11600000000 1500000000
    (Py64.Int phi) (Py64.Int theta) st
  = ChamberController._generate_sweep_name cfg env 11600000000 1500000000 phi theta st.
Proof.
  intros Hphi Htheta.
  unfold Binary64._generate_sweep_name, ChamberController._generate_sweep_name, bind, lift.
  rewrite (str_of_int phi Hphi), (str_of_int theta Htheta).
  assert (Py64.truediv 11600000000 1000000000
          = Py.Ok (Py64.literal 116 (-1))) as -> by (vm_compute; reflexivity).
  assert (Py64.truediv 1500000000 1000000000
          = Py.Ok (Py64.literal 15 (-1))) as -> by (vm_compute; reflexivity).
  assert (Py64.repr (Py64.literal 116 (-1))
          = Py.str_float (Py.truediv 11600000000 1000000000)) as ->
    by (vm_compute; reflexivity).
  assert (Py64.repr (Py64.literal 15 (-1))
          = Py.str_float (Py.truediv 1500000000 1000000000)) as ->
    by (vm_compute; reflexivity).
  reflexivity.
Qed.

(** ** AngleConstraintSolver *)

Lemma clamp_inside (x limit : R) :
  (- limit <= x <= limit)%R -> Rmin (Rmax x (- limit)) limit = x.
Proof.
  intros [Hlo Hhi].
  rewrite Rmax_left by lra. now rewrite Rmin_left by lra.
Qed.

Lemma clamp_above (x limit : R) :
  (0 <= limit)%R -> (limit < x)%R -> Rmin (Rmax x (- limit)) limit = limit.
Proof.
  intros Hl Hx.
  rewrite Rmax_left by lra. now rewrite Rmin_right by lra.
Qed.

Lemma clamp_below (x limit : R) :
  (0 <= limit)%R -> (x < - limit)%R -> Rmin (Rmax x (- limit)) limit = (- limit)%R.
Proof.
  intros Hl Hx.
  rewrite Rmax_right by lra. now rewrite Rmin_left by lra.
Qed.

(** *** The order of Python numbers *)

Lemma compare_worth_swap (u v : Py64.worth) :
  Py64.compare_worth v u = option_map CompOpp (Py64.compare_worth u v).
Proof.
  destruct u as [| s | p], v as [| s' | q]; cbn; try reflexivity.
  - destruct s, s'; reflexivity.
  - destruct s; reflexivity.
  - destruct s'; reflexivity.
  - now rewrite Qcompare_antisym.
Qed.

Lemma gt_is_lt (a b : Py64.number) : Py64.gt a b = Py64.lt b a.
Proof.
  unfold Py64.gt, Py64.lt, Py64.compare.
  rewrite (compare_worth_swap (Py64.number_worth a) (Py64.number_worth b)).
  destruct (Py64.compare_worth _ _) as [[]|]; reflexivity.
Qed.

Lemma le_excludes_lt (a b : Py64.number) :
  Py64.le a b = true -> Py64.lt b a = false.
Proof.
  unfold Py64.le, Py64.lt, Py64.compare.
  rewrite (compare_worth_swap (Py64.number_worth a) (Py64.number_worth b)).
  destruct (Py64.compare_worth _ _) as [[]|]; cbn; congruence.
Qed.

Lemma not_lt_is_le (a b : Py64.number) :
  Py64.number_worth a <> Py64.NotANumber ->
  Py64.number_worth b <> Py64.NotANumber ->
  Py64.lt b a = false -> Py64.le a b = true.
Proof.
  unfold Py64.le, Py64.lt, Py64.compare.
  rewrite (compare_worth_swap (Py64.number_worth a) (Py64.number_worth b)).
  destruct (Py64.number_worth a) as [| s | p], (Py64.number_worth b) as [| s' | q];
    try congruence; intros _ _; cbn.
  - destruct s, s'; cbn; congruence.
  - destruct s; cbn; congruence.
  - destruct s'; cbn; congruence.
  - destruct (p ?= q)%Q; cbn; congruence.
Qed.

Lemma le_is_a_number (a b : Py64.number) :
  Py64.le a b = true ->
  Py64.number_worth a <> Py64.NotANumber /\ Py64.number_worth b <> Py64.NotANumber.
Proof.
  unfold Py64.le, Py64.compare.
  destruct (Py64.number_worth a), (Py64.number_worth b); cbn; try discriminate;
    intros _; split; discriminate.
Qed.

Lemma le_reflexive (a : Py64.number) :
  Py64.number_worth a <> Py64.NotANumber -> Py64.le a a = true.
Proof.
  unfold Py64.le, Py64.compare.
  destruct (Py64.number_worth a) as [| s | p]; [congruence | |]; intros _; cbn.
  - destruct s; reflexivity.
  - assert ((p ?= p)%Q = Eq) as -> by (apply (proj1 (Qeq_alt _ _)); reflexivity).
    reflexivity.
Qed.

Lemma eq_reflexive (a : Py64.number) :
  Py64.number_worth a <> Py64.NotANumber -> Py64.eq a a = true.
Proof.
  unfold Py64.eq, Py64.compare.
  destruct (Py64.number_worth a) as [| s | p]; [congruence | |]; intros _; cbn.
  - destruct s; reflexivity.
  - assert ((p ?= p)%Q = Eq) as -> by (apply (proj1 (Qeq_alt _ _)); reflexivity).
    reflexivity.
Qed.

Lemma lt_transitive (a b c : Py64.number) :
  Py64.lt a b = true -> Py64.lt b c = true -> Py64.lt a c = true.
Proof.
  unfold Py64.lt, Py64.compare.
  destruct (Py64.number_worth a) as [| s | p], (Py64.number_worth b) as [| s' | q],
    (Py64.number_worth c) as [| s'' | r]; cbn; try discriminate;
    try (destruct s); try (destruct s'); try (destruct s''); try discriminate;
    try reflexivity.
  destruct (p ?= q)%Q eqn:Hpq; try discriminate.
  destruct (q ?= r)%Q eqn:Hqr; try discriminate.
  intros _ _. apply Qlt_alt in Hpq, Hqr.
  assert ((p ?= r)%Q = Lt) as -> by (apply (proj1 (Qlt_alt _ _)); lra).
  reflexivity.
Qed.

Lemma Qcompare_inject_Z (a b : Z) : (inject_Z a ?= inject_Z b)%Q = (a ?= b)%Z.
Proof. unfold Qcompare. cbn [Qnum Qden inject_Z]. now rewrite !Z.mul_1_r. Qed.

(** A limit that is not negative is at least its own opposite. *)
Lemma opposite_below (limit : Py64.number) :
  Py64.le (Py64.Int 0) limit = true -> Py64.le (Py64.neg limit) limit = true.
Proof.
  unfold Py64.le, Py64.compare. destruct limit as [z | x]; cbn [Py64.neg Py64.number_worth].
  - cbn [Py64.compare_worth]. rewrite !Qcompare_inject_Z.
    destruct (Z.compare_spec 0 z) as [H0 | H0 | H0]; try discriminate; intros _;
      destruct (Z.compare_spec (- z) z) as [H | H | H]; first [reflexivity | lia].
  - destruct x as [s | s | | s m e]; cbn [Py64.opp SpecFloat.SFopp Py64.float_worth Py64.compare_worth].
    + reflexivity.
    + destruct s; [discriminate | reflexivity].
    + discriminate.
    + pose proof (magnitude_positive m e) as Hpos. destruct s; cbn [negb].
      * assert ((inject_Z 0 ?= - Py64.magnitude m e)%Q = Gt) as ->; [|discriminate].
        apply (proj1 (Qgt_alt _ _)). change (inject_Z 0) with 0%Q. lra.
      * intros _.
        assert ((- Py64.magnitude m e ?= Py64.magnitude m e)%Q = Lt) as ->; [|reflexivity].
        apply (proj1 (Qlt_alt _ _)). lra.
Qed.

(** [min(max(c, -limit), limit)] clamps a number [c] that is not a NaN to
    [[-limit, limit]] when [limit >= 0]. *)
Lemma clamp_binary64 (c limit : Py64.number) :
  Py64.number_worth c <> Py64.NotANumber ->
  Py64.le (Py64.Int 0) limit = true ->
  Py64.le (Py64.neg limit) (Py64.min (Py64.max c (Py64.neg limit)) limit) = true /\
  Py64.le (Py64.min (Py64.max c (Py64.neg limit)) limit) limit = true /\
  (Py64.le (Py64.neg limit) c = true -> Py64.le c limit = true ->
   Py64.min (Py64.max c (Py64.neg limit)) limit = c) /\
  (Py64.gt c limit = true -> Py64.min (Py64.max c (Py64.neg limit)) limit = limit) /\
  (Py64.lt c (Py64.neg limit) = true ->
   Py64.min (Py64.max c (Py64.neg limit)) limit = Py64.neg limit).
Proof.
  intros Hc Hlimit.
  pose proof (opposite_below limit Hlimit) as Hbelow.
  destruct (le_is_a_number _ _ Hbelow) as [Hn Hl].
  pose proof (le_excludes_lt _ _ Hbelow) as Hnot.
  unfold Py64.min, Py64.max. rewrite !gt_is_lt.
  destruct (Py64.lt c (Py64.neg limit)) eqn:Hlow.
  - rewrite Hnot.
    split; [now apply le_reflexive|]. split; [exact Hbelow|].
    split; [intros H; apply le_excludes_lt in H; congruence|].
    split; [|reflexivity].
    intros Hhigh. pose proof (lt_transitive _ _ _ Hhigh Hlow). congruence.
  - destruct (Py64.lt limit c) eqn:Hhigh.
    + split; [exact Hbelow|]. split; [now apply le_reflexive|].
      split; [intros _ H; apply le_excludes_lt in H; congruence|].
      split; [reflexivity | discriminate].
    + split; [now apply not_lt_is_le|]. split; [now apply not_lt_is_le|].
      split; [reflexivity|]. split; discriminate.
Qed.

(** *** Which floats an operation can give *)

Lemma binary_round_outcome (sx : bool) (mx : positive) (ex : Z) :
  Py64.is_nan (SpecFloat.binary_round Py64.prec Py64.emax sx mx ex) = false.
Proof.
  unfold SpecFloat.binary_round.
  destruct (SpecFloat.shl_align mx ex _) as [mz ez].
  destruct (binary_round_aux_outcome sx (Z.pos mz) ez SpecFloat.loc_Exact ltac:(lia))
    as [-> | [-> | (m & e & ->)]]; reflexivity.
Qed.

Lemma of_Z_is_a_number (z : Z) : Py64.is_nan (Py64.of_Z z) = false.
Proof.
  unfold Py64.of_Z, SpecFloat.binary_normalize.
  destruct z; [reflexivity | apply binary_round_outcome | apply binary_round_outcome].
Qed.

Lemma as_double_finite (a : Py64.number) (x : Py64.float) :
  finite_number a = true -> Py64.as_double a = Py.Ok x -> Py64.is_finite x = true.
Proof.
  destruct a as [z | y]; cbn [finite_number Py64.as_double].
  - intros _. unfold Py64.float_of_int.
    pose proof (of_Z_is_a_number z) as Hnan.
    destruct (Py64.of_Z z); cbn [Py64.is_inf]; try discriminate; intros [= <-];
      first [reflexivity | discriminate Hnan].
  - intros Hy [= <-]. exact Hy.
Qed.

Lemma mul_of_finite (x y : Py64.float) :
  Py64.is_finite x = true -> Py64.is_finite y = true -> Py64.is_nan (Py64.mul x y) = false.
Proof.
  destruct x as [sx | sx | | sx mx ex], y as [sy | sy | | sy my ey]; try discriminate;
    intros _ _; try reflexivity.
  unfold Py64.mul, SpecFloat.SFmul.
  destruct (binary_round_aux_outcome (xorb sx sy) (Z.pos (mx * my)) (ex + ey)
              SpecFloat.loc_Exact ltac:(lia)) as [-> | [-> | (m & e & ->)]]; reflexivity.
Qed.

Lemma sin_of_finite (libm_sin : Py64.float -> Py64.float) (angle sine : Py64.float) :
  Py64.is_finite angle = true ->
  Py64.sin libm_sin (Py64.Float angle) = Py.Ok sine ->
  Py64.is_finite sine = true.
Proof.
  intros Hfin. unfold Py64.sin. cbn [Py64.as_double Py.rbind]. rewrite Hfin.
  assert (Py64.is_nan angle = false) as -> by (destruct angle; first [reflexivity | discriminate]).
  destruct (libm_sin angle); cbn; intros [= <-]; reflexivity.
Qed.

Lemma sin_raises_value_error
    (libm_sin : Py64.float -> Py64.float) (angle : Py64.float) (e : Py.exn) :
  Py64.sin libm_sin (Py64.Float angle) = Py.Raise e -> e = Py.ValueError.
Proof.
  unfold Py64.sin. cbn [Py64.as_double Py.rbind].
  destruct (Py64.is_nan (libm_sin angle) && negb (Py64.is_nan angle)); [now intros [= <-]|].
  destruct (Py64.is_inf (libm_sin angle) && Py64.is_finite angle); [now intros [= <-]|].
  discriminate.
Qed.

Lemma as_double_raises_overflow (a : Py64.number) (e : Py.exn) :
  Py64.as_double a = Py.Raise e -> e = Py.OverflowError.
Proof.
  destruct a as [z | x]; cbn [Py64.as_double]; [|discriminate].
  unfold Py64.float_of_int. destruct (Py64.is_inf _); [now intros [= <-] | discriminate].
Qed.

(** What [_calculate_sweep_angles] computes for the elevation when
    [ELEVATION_PHI_ADJUSTMENT] is set. *)
Lemma adjusted_window_steps
    (libm_sin : Py64.float -> Py64.float) (cfg : Binary64.Turntable)
    (direction_forward : bool) (phi theta : Py64.number) :
  Binary64.ELEVATION_PHI_ADJUSTMENT cfg = true ->
  Binary64._calculate_sweep_angles libm_sin cfg direction_forward phi theta
  = (x <- Py64.as_double phi ;;;
     sine <- Py64.sin libm_sin (Py64.Float (Py64.mul x Py64.deg_to_rad)) ;;;
     y <- Py64.as_double theta ;;;
     let el :=
       Py64.min (Py64.max (Py64.Float (Py64.mul y sine))
                   (Py64.neg (Binary64.TURN_TABLE_ELV_LIMIT cfg)))
         (Binary64.TURN_TABLE_ELV_LIMIT cfg) in
     Py.Ok {| Binary64.az_start :=
                if Binary64.SWEEP_BOTH_DIRECTIONS cfg && negb direction_forward
                then Py64.neg (Binary64.AZ_START cfg) else Binary64.AZ_START cfg;
              Binary64.az_finish :=
                if Binary64.SWEEP_BOTH_DIRECTIONS cfg && negb direction_forward
                then Py64.neg (Binary64.AZ_FINISH cfg) else Binary64.AZ_FINISH cfg;
              Binary64.el_start := el;
              Binary64.el_finish := el;
              Binary64.pol_start := Binary64.POL_START cfg;
              Binary64.pol_finish := Binary64.POL_FINISH cfg;
              Binary64.horn_start := Binary64.HORN_START cfg;
              Binary64.horn_finish := Binary64.HORN_FINISH cfg |}).
Proof.
  intros Hadj. unfold Binary64._calculate_sweep_angles, Py64.radians, Py64.times.
  rewrite Hadj.
  destruct (Binary64.SWEEP_BOTH_DIRECTIONS cfg && negb direction_forward);
    (destruct (Py64.as_double phi) as [x | e]; cbn [Py.rbind]; [|reflexivity]);
    (destruct (Py64.sin libm_sin _) as [sine | e]; cbn [Py.rbind]; [|reflexivity]);
    (destruct (Py64.as_double theta) as [y | e]; cbn [Py.rbind]; reflexivity).
Qed.

(** C5. [_calculate_sweep_angles] in binary64 with
    [ELEVATION_PHI_ADJUSTMENT] set, whatever the direction flag.  A window it
    returns has [el_start] and [el_finish] both equal to
    [min(max(el, -limit), limit)] for the double [el = theta *
    sin(radians(phi))] and [limit = TURN_TABLE_ELV_LIMIT]; when [el] is not a
    NaN and [limit >= 0], the two compare equal and lie in [[-limit, limit]]:
    [el] itself inside, [limit] above and [-limit] below; [el] is not a NaN
    when [radians(phi)] is finite and [theta] is an [int] or a finite
    [float].  It raises only [OverflowError], for an [int] angle beyond the
    doubles, and [ValueError], from [math.sin]; it returns whenever both
    angles convert to doubles and the C library's sine of [radians(phi)] is
    finite.  The configured elevation range plays no part.  With [limit = 20],
    [phi = 90] and a sine of 1.0 there, [theta = 20] gives 20.0 unclamped and
    [theta = 50] gives 20 clamped. *)
Theorem elevation_window_binary64
    (libm_sin : Py64.float -> Py64.float) (cfg : Binary64.Turntable)
    (direction_forward : bool) (phi theta : Py64.number) :
  Binary64.ELEVATION_PHI_ADJUSTMENT cfg = true ->
  let limit := Binary64.TURN_TABLE_ELV_LIMIT cfg in
  let outcome := Binary64._calculate_sweep_angles libm_sin cfg direction_forward phi theta in
  (forall window, outcome = Py.Ok window ->
     exists angle sine el,
       Py64.radians phi = Py.Ok angle /\
       Py64.sin libm_sin (Py64.Float angle) = Py.Ok sine /\
       Py64.times theta sine = Py.Ok el /\
       Binary64.el_start window
       = Py64.min (Py64.max (Py64.Float el) (Py64.neg limit)) limit /\
       Binary64.el_finish window = Binary64.el_start window /\
       (Py64.is_nan el = false -> Py64.le (Py64.Int 0) limit = true ->
        Py64.eq (Binary64.el_start window) (Binary64.el_finish window) = true /\
        Py64.le (Py64.neg limit) (Binary64.el_start window) = true /\
        Py64.le (Binary64.el_start window) limit = true /\
        (Py64.le (Py64.neg limit) (Py64.Float el) = true ->
         Py64.le (Py64.Float el) limit = true ->
         Binary64.el_start window = Py64.Float el) /\
        (Py64.gt (Py64.Float el) limit = true -> Binary64.el_start window = limit) /\
        (Py64.lt (Py64.Float el) (Py64.neg limit) = true ->
         Binary64.el_start window = Py64.neg limit)) /\
       (Py64.is_finite angle = true -> finite_number theta = true ->
        Py64.is_nan el = false)) /\
  (forall e, outcome = Py.Raise e ->
     (e = Py.OverflowError /\
      (Py64.as_double phi = Py.Raise Py.OverflowError \/
       Py64.as_double theta = Py.Raise Py.OverflowError)) \/
     (e = Py.ValueError /\
      exists angle, Py64.radians phi = Py.Ok angle /\
                    Py64.sin libm_sin (Py64.Float angle) = Py.Raise Py.ValueError)) /\
  (forall angle y,
     Py64.radians phi = Py.Ok angle -> Py64.as_double theta = Py.Ok y ->
     Py64.is_finite (libm_sin angle) = true ->
     exists window, outcome = Py.Ok window) /\
  (forall el_start el_finish,
     Binary64._calculate_sweep_angles libm_sin (with_elevation cfg el_start el_finish)
       direction_forward phi theta = outcome) /\
  (limit = Py64.Int 20 -> phi = Py64.Int 90 ->
   libm_sin (Py64.literal 15707963267948966 (-16)) = Py64.literal 1 0 ->
   (theta = Py64.Int 20 ->
    exists window, outcome = Py.Ok window /\
                   Binary64.el_start window = Py64.Float (Py64.literal 20 0) /\
                   Binary64.el_finish window = Py64.Float (Py64.literal 20 0)) /\
   (theta = Py64.Int 50 ->
    exists window, outcome = Py.Ok window /\
                   Binary64.el_start window = Py64.Int 20 /\
                   Binary64.el_finish window = Py64.Int 20)).
Proof.
  intros Hadj. cbv zeta.
  rewrite (adjusted_window_steps libm_sin cfg direction_forward phi theta Hadj).
  split; [|split; [|split; [|split]]].
  - intros window. unfold Py64.radians, Py64.times.
    destruct (Py64.as_double phi) as [x | e] eqn:Hphi; cbn [Py.rbind]; [|discriminate].
    destruct (Py64.sin libm_sin _) as [sine | e] eqn:Hsin; cbn [Py.rbind]; [|discriminate].
    destruct (Py64.as_double theta) as [y | e] eqn:Htheta; cbn [Py.rbind]; [|discriminate].
    intros [= <-]. cbn [Binary64.el_start Binary64.el_finish].
    exists (Py64.mul x Py64.deg_to_rad), sine, (Py64.mul y sine).
    split; [reflexivity|]. split; [exact Hsin|]. split; [reflexivity|].
    split; [reflexivity|]. split; [reflexivity|]. split.
    + intros Hnan Hlimit.
      assert (Py64.number_worth (Py64.Float (Py64.mul y sine)) <> Py64.NotANumber) as Hc.
      { cbn [Py64.number_worth]. destruct (Py64.mul y sine); cbn; discriminate. }
      destruct (clamp_binary64 _ _ Hc Hlimit) as (Hlo & Hhi & Hin & Habove & Hbelow).
      split; [|repeat split; assumption].
      destruct (le_is_a_number _ _ Hlo) as [_ Hel].
      now apply eq_reflexive.
    + intros Hangle Hfinite. apply mul_of_finite.
      * exact (as_double_finite theta y Hfinite Htheta).
      * exact (sin_of_finite libm_sin _ sine Hangle Hsin).
  - intros e. unfold Py64.radians.
    destruct (Py64.as_double phi) as [x | e'] eqn:Hphi; cbn [Py.rbind].
    + destruct (Py64.sin libm_sin _) as [sine | e'] eqn:Hsin; cbn [Py.rbind].
      * destruct (Py64.as_double theta) as [y | e'] eqn:Htheta; cbn [Py.rbind]; [discriminate|].
        intros [= <-]. left. pose proof (as_double_raises_overflow _ _ Htheta) as ->. auto.
      * intros [= <-]. right. pose proof (sin_raises_value_error _ _ _ Hsin) as ->.
        split; [reflexivity|]. eexists. split; [reflexivity | exact Hsin].
    + intros [= <-]. left. pose proof (as_double_raises_overflow _ _ Hphi) as ->. auto.
  - intros angle y. unfold Py64.radians.
    destruct (Py64.as_double phi) as [x | e] eqn:Hphi; cbn [Py.rbind]; [|discriminate].
    intros [= <-] Htheta Hfinite. rewrite Htheta.
    unfold Py64.sin. cbn [Py64.as_double Py.rbind].
    destruct (libm_sin (Py64.mul x Py64.deg_to_rad)); try discriminate Hfinite;
      cbn [Py64.is_nan Py64.is_inf andb Py.rbind]; eauto.
  - intros el_start el_finish.
    rewrite (adjusted_window_steps libm_sin (with_elevation cfg el_start el_finish)
               direction_forward phi theta) by exact Hadj.
    reflexivity.
  - intros Hlimit -> Hsine.
    assert (Py64.sin libm_sin
              (Py64.Float (Py64.mul (SpecFloat.S754_finite false 6333186975989760 (-46))
                             Py64.deg_to_rad))
            = Py.Ok (Py64.literal 1 0)) as Hsin.
    { unfold Py64.sin. cbn [Py64.as_double Py.rbind].
      change (Py64.mul (SpecFloat.S754_finite false 6333186975989760 (-46)) Py64.deg_to_rad)
        with (Py64.literal 15707963267948966 (-16)).
      rewrite Hsine. reflexivity. }
    change (Py64.as_double (Py64.Int 90))
      with (Py.Ok (SpecFloat.S754_finite false 6333186975989760 (-46)) : Py.result Py64.float).
    cbn [Py.rbind]. rewrite Hsin. cbn [Py.rbind]. rewrite Hlimit.
    split; intros ->; eexists; (split; [vm_compute; reflexivity|]);
      cbn [Binary64.el_start Binary64.el_finish]; split; vm_compute; reflexivity.
Qed.

Lemma elevation_window_binary64_witness :
  Binary64.ELEVATION_PHI_ADJUSTMENT (shipped_turntable true) = true /\
  table_sin (Py64.literal 15707963267948966 (-16)) = Py64.literal 1 0 /\
  exists window,
    Binary64._calculate_sweep_angles table_sin (shipped_turntable true) true
      (Py64.Int 90) (Py64.Int 50) = Py.Ok window /\
    Binary64.el_start window = Py64.Int 20 /\
    Binary64.el_finish window = Py64.Int 20.
Proof.
  assert (table_sin (Py64.literal 15707963267948966 (-16)) = Py64.literal 1 0) as Hsine
    by (vm_compute; reflexivity).
  split; [reflexivity|]. split; [exact Hsine|].
  exact (proj2 (proj2 (proj2 (proj2 (proj2
           (elevation_window_binary64 table_sin (shipped_turntable true) true
              (Py64.Int 90) (Py64.Int 50) eq_refl))))
           eq_refl eq_refl Hsine) eq_refl).
Defined.

(** With an [int] angle beyond the doubles no window is returned.  With
    [theta] a NaN a window is returned, but its elevation is a NaN:
    [el_start == el_finish] is false and the value is not within the limit. *)
Lemma elevation_window_not_always :
  Binary64._calculate_sweep_angles table_sin (shipped_turntable true) true
    (Py64.Int (10 ^ 400)) (Py64.Int 5)
  = Py.Raise Py.OverflowError /\
  Binary64._calculate_sweep_angles table_sin (shipped_turntable true) true
    (Py64.Int 0) (Py64.Float Py64.nan)
  = Py.Ok {| Binary64.az_start := Py64.Int (-35);
             Binary64.az_finish := Py64.Int 35;
             Binary64.el_start := Py64.Float Py64.nan;
             Binary64.el_finish := Py64.Float Py64.nan;
             Binary64.pol_start := Py64.Int 0;
             Binary64.pol_finish := Py64.Int 0;
             Binary64.horn_start := Py64.Int 90;
             Binary64.horn_finish := Py64.Int 90 |} /\
  Py64.eq (Py64.Float Py64.nan) (Py64.Float Py64.nan) = false /\
  Py64.le (Py64.Float Py64.nan) (Py64.Int 20) = false.
Proof.
  split; [vm_compute; reflexivity|].
  split; [vm_compute; reflexivity|].
  split; [vm_compute; reflexivity|].
  vm_compute; reflexivity.
Qed.

(** At the points of the shipped configuration: [phi = 0] gives an
    elevation of 0.0, [phi = 180] gives [5 * 1.2246467991473532e-16], not
    0. *)
Example elevation_at_shipped_points :
  (exists window,
     Binary64._calculate_sweep_angles table_sin (shipped_turntable true) true
       (Py64.Int 0) (Py64.Int 5) = Py.Ok window /\
     Binary64.el_start window = Py64.Float (Py64.zero false)) /\
  (exists window,
     Binary64._calculate_sweep_angles table_sin (shipped_turntable true) true
       (Py64.Int 180) (Py64.Int 5) = Py.Ok window /\
     Binary64.el_start window = Py64.Float (Py64.literal 6123233995736766 (-31)) /\
     Py64.repr (Py64.literal 6123233995736766 (-31)) = "6.123233995736766e-16"%string).
Proof.
  split.
  - eexists. split; [vm_compute; reflexivity|]. vm_compute; reflexivity.
  - eexists. split; [vm_compute; reflexivity|].
    split; [vm_compute; reflexivity|]. vm_compute; reflexivity.
Qed.



(** ** Reasoning about computations in [M] *)

Lemma same_records_refl (st : State) : same_records st st.
Proof. repeat split. Qed.

Lemma same_records_trans (st1 st2 st3 : State) :
  same_records st1 st2 -> same_records st2 st3 -> same_records st1 st3.
Proof.
  intros (Ha & Hb & Hc & Hd) (Ha' & Hb' & Hc' & Hd').
  repeat split; congruence.
Qed.

Lemma quiet_ret {A} (a : A) : quiet (ret a).
Proof. intros st. apply same_records_refl. Qed.

Lemma quiet_raise {A} (e : Py.exn) : quiet (@raise A e).
Proof. intros st. apply same_records_refl. Qed.

Lemma quiet_lift {A} (r : Py.result A) : quiet (lift r).
Proof. intros st. apply same_records_refl. Qed.

Lemma quiet_bind {A B} (c : M A) (k : A -> M B) :
  quiet c -> (forall a, quiet (k a)) -> quiet (bind c k).
Proof.
  intros Hc Hk st. unfold bind.
  specialize (Hc st). destruct (c st) as [[a | e] st1]; simpl in *.
  - eapply same_records_trans; [exact Hc | apply Hk].
  - exact Hc.
Qed.

Lemma quiet_for_each {A} (l : list A) (body : A -> M unit) :
  (forall x, quiet (body x)) -> quiet (for_each l body).
Proof.
  intros Hbody. induction l as [|x l IH]; simpl.
  - apply quiet_ret.
  - apply quiet_bind; [apply Hbody | intros _; exact IH].
Qed.

Lemma quiet_repeat_collect {A} (n : nat) (c : M A) :
  quiet c -> quiet (repeat_collect n c).
Proof.
  intros Hc. induction n as [|n IH]; simpl.
  - apply quiet_ret.
  - apply quiet_bind; [exact Hc|]. intros x.
    apply quiet_bind; [exact IH|]. intros xs. apply quiet_ret.
Qed.

Lemma quiet_randint (env : Env) (a b : Z) : quiet (ChamberController.randint env a b).
Proof. intros st. repeat split. Qed.

Lemma quiet_strftime_now (env : Env) : quiet (ChamberController.strftime_now env).
Proof. intros st. repeat split. Qed.

Lemma bind_returns {A B} (c : M A) (k : A -> M B) (st st' : State) (b : B) :
  bind c k st = (Py.Ok b, st') ->
  exists a st1, c st = (Py.Ok a, st1) /\ k a st1 = (Py.Ok b, st').
Proof.
  unfold bind. destruct (c st) as [[a | e] st1]; intros H.
  - now exists a, st1.
  - discriminate.
Qed.

Lemma bind_ok {A B} (c : M A) (k : A -> M B) (st st1 : State) (a : A) :
  c st = (Py.Ok a, st1) -> bind c k st = k a st1.
Proof. intros H. unfold bind. now rewrite H. Qed.

Lemma bind_raise {A B} (c : M A) (k : A -> M B) (st st1 : State) (e : Py.exn) :
  c st = (Py.Raise e, st1) -> bind c k st = (Py.Raise e, st1).
Proof. intros H. unfold bind. now rewrite H. Qed.

Lemma for_each_raises_at_once {A} (l : list A) (body : A -> M unit) (e : Py.exn) (st : State) :
  (forall x st0, body x st0 = (Py.Raise e, st0)) ->
  for_each l body st = match l with [] => (Py.Ok tt, st) | _ => (Py.Raise e, st) end.
Proof.
  intros Hbody. destruct l as [|x l]; simpl; [reflexivity|].
  unfold bind. now rewrite Hbody.
Qed.

(** ** SweepPlanGenerator *)

Lemma randint_in_range (env : Env) (a b : Z) (st : State) :
  (a <= b)%Z ->
  exists x st',
    ChamberController.randint env a b st = (Py.Ok x, st') /\ (a <= x <= b)%Z.
Proof.
  intros Hab. eexists _, _. split; [reflexivity|].
  assert (0 <= random_source env (random_draws st) mod (b - a + 1) < b - a + 1)%Z
    by (apply Z.mod_pos_bound; lia).
  lia.
Qed.

Lemma repeat_collect_randint (env : Env) (a b : Z) (n : nat) (st : State) :
  (a <= b)%Z ->
  exists xs st',
    repeat_collect n (ChamberController.randint env a b) st = (Py.Ok xs, st') /\
    length xs = n /\
    Forall (fun x => (a <= x <= b)%Z) xs.
Proof.
  intros Hab. revert st. induction n as [|n IH]; intros st; simpl.
  - exists [], st. repeat split. constructor.
  - destruct (randint_in_range env a b st Hab) as (x & st1 & Hx & Hrange).
    destruct (IH st1) as (xs & st2 & Hxs & Hlen & Hall).
    exists (x :: xs), st2. unfold bind. rewrite Hx, Hxs. unfold ret.
    repeat split; [simpl; congruence | now constructor].
Qed.

(** C4 (as amended). With [PHI_RANGE_RANDOM] set, every call of
    [_select_phi_angles] returns exactly 10 values, each in the closed
    interval [[0, 360]], whatever the random source draws; with
    [THETA_RANGE_RANDOM] set, every call of [_select_theta_angles] returns
    exactly 10 values, each in [[5, 50]]. *)
Theorem random_selection_bounds (cfg : Config) (env : Env) (st : State) :
  (PHI_RANGE_RANDOM cfg = true ->
   exists phi_angles st',
     ChamberController._select_phi_angles cfg env st = (Py.Ok phi_angles, st') /\
     length phi_angles = 10%nat /\
     Forall (fun phi => (0 <= phi <= 360)%Z) phi_angles) /\
  (THETA_RANGE_RANDOM cfg = true ->
   exists theta_angles st',
     ChamberController._select_theta_angles cfg env st = (Py.Ok theta_angles, st') /\
     length theta_angles = 10%nat /\
     Forall (fun theta => (5 <= theta <= 50)%Z) theta_angles).
Proof.
  split; intros Hrandom.
  - unfold ChamberController._select_phi_angles. rewrite Hrandom.
    apply repeat_collect_randint. lia.
  - unfold ChamberController._select_theta_angles. rewrite Hrandom.
    apply repeat_collect_randint. lia.
Qed.

Lemma random_selection_bounds_witness :
  PHI_RANGE_RANDOM (configured LOCAL false false true true) = true /\
  THETA_RANGE_RANDOM (configured LOCAL false false true true) = true /\
  (exists phi_angles st',
     ChamberController._select_phi_angles (configured LOCAL false false true true)
       (steady_env 360) initial_state = (Py.Ok phi_angles, st') /\
     length phi_angles = 10%nat /\
     Forall (fun phi => (0 <= phi <= 360)%Z) phi_angles) /\
  (exists theta_angles st',
     ChamberController._select_theta_angles (configured LOCAL false false true true)
       (steady_env 360) initial_state = (Py.Ok theta_angles, st') /\
     length theta_angles = 10%nat /\
     Forall (fun theta => (5 <= theta <= 50)%Z) theta_angles).
Proof.
  split; [reflexivity|]. split; [reflexivity|].
  destruct (random_selection_bounds (configured LOCAL false false true true)
              (steady_env 360) initial_state) as [Hphi Htheta].
  split; [exact (Hphi eq_refl) | exact (Htheta eq_refl)].
Defined.

(** C4 (as stated) fails: a raw draw of 360 makes [random.randint(0, 360)]
    return 360, which is outside [[0, 360)]. *)
Lemma random_phi_reaches_360 :
  PHI_RANGE_RANDOM (configured LOCAL false false true true) = true /\
  exists phi_angles st',
    ChamberController._select_phi_angles (configured LOCAL false false true true)
      (steady_env 360) initial_state = (Py.Ok phi_angles, st') /\
    length phi_angles = 10%nat /\
    In 360%Z phi_angles /\
    ~ Forall (fun phi => (0 <= phi < 360)%Z) phi_angles.
Proof.
  split; [reflexivity|].
  exists (repeat 360%Z 10),
    {| random_draws := 10;
       clock_reads := 0;
       serial_opens := 0;
       sent := [];
       measured := [];
       direction_forward := true;
       sweep_name := "Default_file_name" |}.
  split; [vm_compute; reflexivity|].
  split; [reflexivity|].
  split; [left; reflexivity|].
  intros H. inversion H as [|x l Hx _]. lia.
Qed.

(** ** SweepOrchestrator outside MessageForwarding mode *)

Lemma control_pose_is_no_attribute :
  existsb (String.eqb "control_pose") ArrayController.attributes = false /\
  existsb (String.eqb "_control_pose") ArrayController.attributes = true.
Proof. split; reflexivity. Qed.

Lemma call_control_pose_raises
    (cls : SystemMessages.Catalog) (cfg : Config) (env : Env) (args : list Z) (st : State) :
  ArrayController.call_method cls cfg env "control_pose" args st
  = (Py.Raise Py.AttributeError, st).
Proof. reflexivity. Qed.

Lemma sweep_point_without_forwarding
    (cls : SystemMessages.Catalog) (cfg : Config) (env : Env)
    (ku_freq l_band_freq phi theta : Z) (st : State) :
  ARRAY_INTERFACE cfg <> MESSAGE_FORWARDING ->
  ChamberController.sweep_point cls cfg env ku_freq l_band_freq phi theta st
  = (Py.Raise Py.AttributeError, st).
Proof.
  intros Hmode. apply String.eqb_neq in Hmode.
  unfold ChamberController.sweep_point. rewrite Hmode.
  unfold bind. now rewrite call_control_pose_raises.
Qed.

Lemma setup_step_without_local
    (cls : SystemMessages.Catalog) (cfg : Config) (env : Env) (ku_freq : Z) (st : State) :
  (if String.eqb (ARRAY_INTERFACE cfg) POINTING_GENERATOR
   then ArrayController.call_method cls cfg env "setup_array" [ku_freq; 0%Z; 90%Z]
   else ret tt) st = (Py.Ok tt, st).
Proof.
  destruct (String.eqb (ARRAY_INTERFACE cfg) POINTING_GENERATOR) eqn:Hmode; [|reflexivity].
  apply String.eqb_eq in Hmode.
  change (ArrayController.call_method cls cfg env "setup_array" [ku_freq; 0%Z; 90%Z])
    with (ArrayController.setup_array cls cfg env ku_freq 0 90).
  unfold ArrayController.setup_array. now rewrite Hmode.
Qed.

Lemma select_phi_angles_returns (cfg : Config) (env : Env) (st : State) :
  exists phi_angles st',
    ChamberController._select_phi_angles cfg env st = (Py.Ok phi_angles, st') /\
    same_records st st' /\
    (PHI_RANGE_RANDOM cfg = true \/ PHI_RANGE cfg <> [] -> phi_angles <> []).
Proof.
  pose proof (quiet_repeat_collect 10 _ (quiet_randint env 0 360) st) as Hquiet.
  unfold ChamberController._select_phi_angles.
  destruct (PHI_RANGE_RANDOM cfg) eqn:Hrandom.
  - destruct (repeat_collect_randint env 0 360 10 st) as (xs & st' & Hrun & Hlen & _); [lia|].
    rewrite Hrun in Hquiet. exists xs, st'.
    split; [exact Hrun|]. split; [exact Hquiet|].
    intros _ ->. discriminate Hlen.
  - exists (PHI_RANGE cfg), st. split; [reflexivity|].
    split; [apply same_records_refl|]. intros [H | H]; [discriminate | exact H].
Qed.

Lemma select_theta_angles_returns (cfg : Config) (env : Env) (st : State) :
  exists theta_angles st',
    ChamberController._select_theta_angles cfg env st = (Py.Ok theta_angles, st') /\
    same_records st st' /\
    (THETA_RANGE_RANDOM cfg = true \/ THETA_RANGE cfg <> [] -> theta_angles <> []).
Proof.
  pose proof (quiet_repeat_collect 10 _ (quiet_randint env 5 50) st) as Hquiet.
  unfold ChamberController._select_theta_angles.
  destruct (THETA_RANGE_RANDOM cfg) eqn:Hrandom.
  - destruct (repeat_collect_randint env 5 50 10 st) as (xs & st' & Hrun & Hlen & _); [lia|].
    rewrite Hrun in Hquiet. exists xs, st'.
    split; [exact Hrun|]. split; [exact Hquiet|].
    intros _ ->. discriminate Hlen.
  - exists (THETA_RANGE cfg), st. split; [reflexivity|].
    split; [apply same_records_refl|]. intros [H | H]; [discriminate | exact H].
Qed.

Lemma phi_loop_without_forwarding
    (cls : SystemMessages.Catalog) (cfg : Config) (env : Env)
    (ku_freq l_band_freq : Z) (phi_angles : list Z) (st : State) :
  ARRAY_INTERFACE cfg <> MESSAGE_FORWARDING ->
  let run :=
    for_each phi_angles (fun phi_angle =>
      theta_angles <- ChamberController._select_theta_angles cfg env ;;
      for_each theta_angles (fun theta_angle =>
        ChamberController.sweep_point cls cfg env ku_freq l_band_freq phi_angle theta_angle))
      st in
  same_records st (snd run) /\
  (THETA_RANGE_RANDOM cfg = true \/ THETA_RANGE cfg <> [] ->
   phi_angles <> [] -> fst run = Py.Raise Py.AttributeError).
Proof.
  intros Hmode. cbv zeta. revert st.
  induction phi_angles as [|phi rest IH]; intros st.
  - split; [apply same_records_refl|]. intros _ H. now contradiction H.
  - destruct (select_theta_angles_returns cfg env st) as (thetas & st1 & Hsel & Hsame & Hne).
    cbn [for_each]. destruct thetas as [|theta thetas].
    + rewrite (bind_ok _ _ st st1 tt) by (now rewrite (bind_ok _ _ _ _ _ Hsel)).
      destruct (IH st1) as [IHsame IHraise].
      split; [eapply same_records_trans; eassumption|].
      intros Htheta _. now contradiction (Hne Htheta).
    + rewrite (bind_raise _ _ st st1 Py.AttributeError).
      * split; [exact Hsame | reflexivity].
      * rewrite (bind_ok _ _ _ _ _ Hsel).
        rewrite (for_each_raises_at_once _ _ Py.AttributeError);
          [reflexivity | intros; now apply sweep_point_without_forwarding].
Qed.

(** C2. For every configuration whose interface mode is not
    MessageForwarding (Local and PointingGenerator included), every catalog,
    world and start state: [control_pose] is not a name of [ArrayController]
    (only [_control_pose] is), a run of [run_sweep_sequence] writes nothing to
    the serial link and never invokes the measurement collaborator, and if
    there is a first sweep point (the phi and theta selections are not empty)
    the run raises [AttributeError]. *)
Theorem non_forwarding_run_raises
    (cls : SystemMessages.Catalog) (cfg : Config) (env : Env)
    (ku_freq l_band_freq : Z) (st : State) :
  ARRAY_INTERFACE cfg <> MESSAGE_FORWARDING ->
  let run := ChamberController.run_sweep_sequence cls cfg env ku_freq l_band_freq st in
  existsb (String.eqb "control_pose") ArrayController.attributes = false /\
  existsb (String.eqb "_control_pose") ArrayController.attributes = true /\
  sent (snd run) = sent st /\
  measured (snd run) = measured st /\
  (PHI_RANGE_RANDOM cfg = true \/ PHI_RANGE cfg <> [] ->
   THETA_RANGE_RANDOM cfg = true \/ THETA_RANGE cfg <> [] ->
   fst run = Py.Raise Py.AttributeError).
Proof.
  intros Hmode. cbv zeta.
  split; [reflexivity|]. split; [reflexivity|].
  unfold ChamberController.run_sweep_sequence.
  rewrite (bind_ok _ _ st st tt) by apply setup_step_without_local.
  destruct (select_phi_angles_returns cfg env st) as (phis & st1 & Hsel & Hsame & Hne).
  rewrite (bind_ok _ _ _ _ _ Hsel).
  destruct (phi_loop_without_forwarding cls cfg env ku_freq l_band_freq phis st1 Hmode)
    as [Hloop Hraise].
  pose proof (same_records_trans _ _ _ Hsame Hloop) as (Hsent & Hmeasured & _).
  split; [exact Hsent|]. split; [exact Hmeasured|].
  intros Hphi Htheta. apply Hraise; [exact Htheta | now apply Hne].
Qed.

Lemma non_forwarding_run_raises_witness :
  ARRAY_INTERFACE (configured POINTING_GENERATOR false false false true) <> MESSAGE_FORWARDING /\
  fst (ChamberController.run_sweep_sequence example_catalog
         (configured POINTING_GENERATOR false false false true) (steady_env 3)
         11600000000 1500000000 initial_state) = Py.Raise Py.AttributeError /\
  sent (snd (ChamberController.run_sweep_sequence example_catalog
               (configured POINTING_GENERATOR false false false true) (steady_env 3)
               11600000000 1500000000 initial_state)) = [] /\
  measured (snd (ChamberController.run_sweep_sequence example_catalog
               (configured POINTING_GENERATOR false false false true) (steady_env 3)
               11600000000 1500000000 initial_state)) = [].
Proof.
  assert (ARRAY_INTERFACE (configured POINTING_GENERATOR false false false true)
          <> MESSAGE_FORWARDING) as Hmode by discriminate.
  split; [exact Hmode|].
  destruct (non_forwarding_run_raises example_catalog
              (configured POINTING_GENERATOR false false false true) (steady_env 3)
              11600000000 1500000000 initial_state Hmode)
    as (_ & _ & Hsent & Hmeasured & Hraise).
  split; [|split; [exact Hsent | exact Hmeasured]].
  apply Hraise.
  - right. discriminate.
  - left. reflexivity.
Defined.

(** C3, at the configuration config.py ships with (Local mode, one
    frequency, phi = [0, 180], theta = [0, 5, ..., 30]): for every catalog and
    every world the run of [run_sweep_sequence] raises [AttributeError] at the
    first point, before anything is written or measured; the measurement
    collaborator is invoked 0 times, not 14. *)
Theorem default_run_raises_before_measuring
    (cls : SystemMessages.Catalog) (env : Env) (st : State) :
  KU_FREQ_RANGE default_config = [11600000000%Z] /\
  PHI_RANGE default_config = [0; 180]%Z /\
  THETA_RANGE default_config = [0; 5; 10; 15; 20; 25; 30]%Z /\
  PHI_RANGE_RANDOM default_config = false /\
  THETA_RANGE_RANDOM default_config = false /\
  ChamberController.run_sweep_sequence cls default_config env
    11600000000 (MODEM_FREQ default_config) st
  = (Py.Raise Py.AttributeError, st).
Proof.
  repeat (split; [reflexivity|]).
  destruct st. reflexivity.
Qed.

(** The same frequency and angle ranges in MessageForwarding mode, the
    one mode in which points complete, with the link up and the chamber
    software returning: the run returns after 14 invocations of the
    measurement collaborator, phi-major and theta-minor, each with its own
    sweep name. *)
Example forwarding_run_measures_14_points :
  fst (ChamberController.run_sweep_sequence example_catalog
         (configured MESSAGE_FORWARDING false false false false) (steady_env 0)
         11600000000 1500000000 initial_state) = Py.Ok tt /\
  map call_sweep_name
    (measured (snd (ChamberController.run_sweep_sequence example_catalog
                      (configured MESSAGE_FORWARDING false false false false) (steady_env 0)
                      11600000000 1500000000 initial_state)))
  = map (fun point : Z * Z =>
           ("2024-10-16_12-00-00_app_cli_message_forewarding__Ku_Freq_11_6GHz_L_Freq_1_5GHz_Phi_"
            ++ Py.str_int (fst point) ++ "_Theta_" ++ Py.str_int (snd point))%string)
      [(0, 0); (0, 5); (0, 10); (0, 15); (0, 20); (0, 25); (0, 30);
       (180, 0); (180, 5); (180, 10); (180, 15); (180, 20); (180, 25); (180, 30)]%Z /\
  NoDup (map call_sweep_name
           (measured (snd (ChamberController.run_sweep_sequence example_catalog
                             (configured MESSAGE_FORWARDING false false false false)
                             (steady_env 0) 11600000000 1500000000 initial_state)))).
Proof.
  split; [vm_compute; reflexivity|].
  split; [vm_compute; reflexivity|].
  apply (bool_decide_unpack _). vm_compute. exact I.
Qed.

(** ** CommandEncoder in MessageForwarding mode *)

Lemma call_control_array
    (cls : SystemMessages.Catalog) (cfg : Config) (env : Env) (ku_freq phi theta : Z) :
  ArrayController.call_method cls cfg env "control_array" [ku_freq; phi; theta]
  = ArrayController.control_array cls cfg env ku_freq phi theta.
Proof. reflexivity. Qed.

Lemma control_array_forwards_to_pose
    (cls : SystemMessages.Catalog) (cfg : Config) (env : Env) (ku_freq phi theta : Z) :
  ARRAY_INTERFACE cfg <> LOCAL ->
  ArrayController.control_array cls cfg env ku_freq phi theta
  = ArrayController._control_pose cls env phi theta.
Proof.
  intros Hmode. apply String.eqb_neq in Hmode.
  unfold ArrayController.control_array. unfold LOCAL in Hmode. now rewrite Hmode.
Qed.

Lemma pose_commands_shape (cls : SystemMessages.Catalog) (pitch : Z) (commands : list string) :
  SystemMessages.get_pose_commands cls pitch = Py.Ok commands ->
  exists pose,
    Py.format (SystemMessages.POSE_CMD cls)
      [("roll", Py.VInt 0); ("pitch", Py.VInt pitch); ("yaw", Py.VInt 0);
       ("x", Py.VInt 0); ("y", Py.VInt 0)]%string = Py.Ok pose /\
    commands = [pose; Py.source (SystemMessages.POINTING_GEN_CMD cls)].
Proof.
  unfold SystemMessages.get_pose_commands.
  destruct (Py.format _ _) as [pose | e]; simpl; intros H; [|discriminate].
  exists pose. split; [reflexivity | congruence].
Qed.

(** What follows the dispatch in [sweep_point]: read the flag, sweep, store
    the returned flag. *)
Lemma sweep_and_store
    (cfg : Config) (env : Env) (ku_freq l_band_freq phi theta : Z) (st : State) :
  let run :=
    (d <- ChamberController.get_direction_forward ;;
     d' <- ChamberController.perform_sweep cfg env d ku_freq l_band_freq phi theta ;;
     ChamberController.set_direction_forward d') st in
  sent (snd run) = sent st /\
  length (measured (snd run)) = S (length (measured st)) /\
  (fst run = Py.Ok tt ->
   direction_forward (snd run) =
     if SWEEP_BOTH_DIRECTIONS cfg then negb (direction_forward st) else direction_forward st) /\
  (fst run <> Py.Ok tt -> direction_forward (snd run) = direction_forward st).
Proof.
  cbv zeta.
  unfold bind, ret, ChamberController.get_direction_forward, ChamberController.perform_sweep,
    ChamberController._run_chamber_sweep, ChamberController._generate_sweep_name,
    ChamberController.strftime_now, ChamberController.set_sweep_name,
    ChamberController.run_sweep_test_swt, ChamberController.set_direction_forward, bind, ret.
  cbn [fst snd sent measured direction_forward].
  destruct (chamber_software env (length (measured st)));
    cbn [fst snd sent measured direction_forward];
    rewrite length_app; cbn [length];
    (split; [reflexivity|]); (split; [lia|]); split; intros H;
    first [reflexivity | discriminate | now contradiction H].
Qed.

(** C1 (as amended). In MessageForwarding mode, for every point,
    [sweep_point] dispatches through [control_array], which takes its
    branch for a non-empty [ARRAY_INTERFACE]: the only batch handed to
    [send_commands] is the pose pair, [POSE_CMD] formatted with roll 0,
    [pitch = theta if phi > 90 else 360 - theta], yaw 0, x 0, y 0, followed by
    [POINTING_GEN_CMD]; if the pose template cannot be formatted the point
    raises with nothing written. *)
Theorem message_forwarding_point_dispatch
    (cls : SystemMessages.Catalog) (cfg : Config) (env : Env)
    (ku_freq l_band_freq phi theta : Z) (st : State) :
  ARRAY_INTERFACE cfg = MESSAGE_FORWARDING ->
  let pitch := if (90 <? phi)%Z then theta else (360 - theta)%Z in
  match SystemMessages.get_pose_commands cls pitch with
  | Py.Ok commands =>
      (exists pose,
         Py.format (SystemMessages.POSE_CMD cls)
           [("roll", Py.VInt 0); ("pitch", Py.VInt pitch); ("yaw", Py.VInt 0);
            ("x", Py.VInt 0); ("y", Py.VInt 0)]%string = Py.Ok pose /\
         commands = [pose; Py.source (SystemMessages.POINTING_GEN_CMD cls)]) /\
      sent (snd (ChamberController.sweep_point cls cfg env ku_freq l_band_freq phi theta st))
      = sent (snd (HardwareInterface.send_commands env commands st))
  | Py.Raise e =>
      ChamberController.sweep_point cls cfg env ku_freq l_band_freq phi theta st
      = (Py.Raise e, st)
  end.
Proof.
  intros Hmode. cbv zeta.
  assert (ARRAY_INTERFACE cfg <> LOCAL) as Hlocal by (rewrite Hmode; discriminate).
  unfold ChamberController.sweep_point.
  rewrite Hmode. cbn [String.eqb]. change (String.eqb MESSAGE_FORWARDING MESSAGE_FORWARDING) with true.
  cbv iota. rewrite call_control_array, (control_array_forwards_to_pose _ _ _ _ _ _ Hlocal).
  unfold ArrayController._control_pose.
  destruct (SystemMessages.get_pose_commands cls _) as [commands | e] eqn:Hpose.
  - split; [now apply pose_commands_shape|].
    unfold bind at 1. unfold bind at 1. unfold lift.
    destruct (HardwareInterface.send_commands env commands st) as [[[] | e] st1] eqn:Hsend;
      [|reflexivity].
    apply sweep_and_store.
  - reflexivity.
Qed.

Lemma message_forwarding_point_dispatch_witness :
  ARRAY_INTERFACE (configured MESSAGE_FORWARDING false false false false) = MESSAGE_FORWARDING /\
  sent (snd (ChamberController.sweep_point example_catalog
               (configured MESSAGE_FORWARDING false false false false) (steady_env 0)
               11600000000 1500000000 180 5 initial_state))
  = [["pose 0 5 0 0 0"; "point"]%string].
Proof.
  split; [reflexivity|].
  pose proof (message_forwarding_point_dispatch example_catalog
                (configured MESSAGE_FORWARDING false false false false) (steady_env 0)
                11600000000 1500000000 180 5 initial_state eq_refl) as H.
  cbv zeta in H.
  change (SystemMessages.get_pose_commands example_catalog (if (90 <? 180)%Z then 5 else 360 - 5)%Z)
    with (@Py.Ok (list string) ["pose 0 5 0 0 0"; "point"]%string) in H.
  destruct H as [_ H]. rewrite H. reflexivity.
Defined.

(** C1 (as stated) fails: with a filled-in catalog, the commands written
    for a point in MessageForwarding mode are the pose pair; none of the 15
    commands of the Local command set is among them. *)
Lemma message_forwarding_sends_no_local_command :
  ARRAY_INTERFACE (configured MESSAGE_FORWARDING false false false false) = MESSAGE_FORWARDING /\
  Spec.local_command_set example_catalog
    (configured MESSAGE_FORWARDING false false false false) 11600000000 0 5
  = Py.Ok ["band 0 1"; "chan 0 11600000 1500000";
           "bpl 0 0 0"; "bpl 0 1 0"; "bpl 0 2 0"; "bpl 0 3 0"; "ifatt 0 0";
           "steer  0 5 0 11600000000 90 1"; "rf  1";
           "steer  0 5 0 11600000000 90 1"; "rf  1";
           "steer  0 5 0 11600000000 90 1"; "rf  1";
           "steer  0 5 0 11600000000 90 1"; "rf  1"]%string /\
  Spec.dispatched initial_state
    (snd (ChamberController.sweep_point example_catalog
            (configured MESSAGE_FORWARDING false false false false) (steady_env 0)
            11600000000 1500000000 0 5 initial_state))
  = ["pose 0 355 0 0 0"; "point"]%string /\
  (forall command,
     In command ["band 0 1"; "chan 0 11600000 1500000";
                 "bpl 0 0 0"; "bpl 0 1 0"; "bpl 0 2 0"; "bpl 0 3 0"; "ifatt 0 0";
                 "steer  0 5 0 11600000000 90 1"; "rf  1"]%string ->
     ~ In command
         (Spec.dispatched initial_state
            (snd (ChamberController.sweep_point example_catalog
                    (configured MESSAGE_FORWARDING false false false false) (steady_env 0)
                    11600000000 1500000000 0 5 initial_state)))).
Proof.
  split; [reflexivity|].
  split; [vm_compute; reflexivity|].
  assert (Spec.dispatched initial_state
            (snd (ChamberController.sweep_point example_catalog
                    (configured MESSAGE_FORWARDING false false false false) (steady_env 0)
                    11600000000 1500000000 0 5 initial_state))
          = ["pose 0 355 0 0 0"; "point"]%string) as H by (vm_compute; reflexivity).
  split; [exact H|].
  rewrite H. intros command Hin Hout.
  simpl in Hin, Hout.
  repeat (destruct Hin as [<- | Hin]);
    try (repeat (destruct Hout as [Hout | Hout]; [discriminate Hout|]); exact Hout).
  exact Hin.
Qed.

(** ** RunDirectionState *)

Lemma calm_ret {A} (a : A) : calm (ret a).
Proof. intros st. split; reflexivity. Qed.

Lemma calm_raise {A} (e : Py.exn) : calm (@raise A e).
Proof. intros st. split; reflexivity. Qed.

Lemma calm_lift {A} (r : Py.result A) : calm (lift r).
Proof. intros st. split; reflexivity. Qed.

Lemma calm_bind {A B} (c : M A) (k : A -> M B) :
  calm c -> (forall a, calm (k a)) -> calm (bind c k).
Proof.
  intros Hc Hk st. unfold bind.
  specialize (Hc st). destruct (c st) as [[a | e] st1]; simpl in *.
  - destruct Hc as [Hm1 Hd1]. destruct (Hk a st1) as [Hm Hd].
    split; [now rewrite Hm | now rewrite Hd].
  - exact Hc.
Qed.

Lemma calm_send_commands (env : Env) (commands : list string) :
  calm (HardwareInterface.send_commands env commands).
Proof.
  intros st. unfold HardwareInterface.send_commands.
  destruct (serial_link env (serial_opens st)) as [|n|];
    [|destruct (n <? length commands)%nat|]; split; reflexivity.
Qed.

Lemma calm_of_quiet {A} (c : M A) : quiet c -> calm c.
Proof. intros Hq st. destruct (Hq st) as (_ & Hm & Hd & _). now split. Qed.

Lemma calm_control_array
    (cls : SystemMessages.Catalog) (cfg : Config) (env : Env) (ku_freq phi theta : Z) :
  calm (ArrayController.control_array cls cfg env ku_freq phi theta).
Proof.
  unfold ArrayController.control_array, ArrayController._control_pose.
  destruct (String.eqb (ARRAY_INTERFACE cfg) EmptyString);
    repeat (apply calm_bind; [apply calm_lift | intros ?]);
    apply calm_send_commands.
Qed.

Lemma calm_dispatch
    (cls : SystemMessages.Catalog) (cfg : Config) (env : Env) (ku_freq phi theta : Z) :
  calm (if String.eqb (ARRAY_INTERFACE cfg) MESSAGE_FORWARDING
        then ArrayController.call_method cls cfg env "control_array" [ku_freq; phi; theta]
        else ArrayController.call_method cls cfg env "control_pose" [phi; theta]).
Proof.
  destruct (String.eqb (ARRAY_INTERFACE cfg) MESSAGE_FORWARDING).
  - rewrite call_control_array. apply calm_control_array.
  - intros st. rewrite call_control_pose_raises. split; reflexivity.
Qed.

Lemma advanced_refl (b : bool) (st : State) : advanced b 0 st st.
Proof. split; [simpl; lia | now destruct b]. Qed.

Lemma advanced_calm (b : bool) {A} (c : M A) (st : State) :
  calm c -> advanced b 0 st (snd (c st)).
Proof.
  intros Hc. destruct (Hc st) as [Hm Hd]. split.
  - rewrite Hm. lia.
  - rewrite Hd. now destruct b.
Qed.

Lemma advanced_trans (b : bool) (n m : nat) (st1 st2 st3 : State) :
  advanced b n st1 st2 -> advanced b m st2 st3 -> advanced b (n + m) st1 st3.
Proof.
  intros [Hm1 Hd1] [Hm2 Hd2]. split; [lia|].
  rewrite Hd2, Hd1. destruct b; [|reflexivity].
  rewrite (Nat.add_comm n m). symmetry. apply Nat.iter_add.
Qed.

Lemma sweep_point_advances
    (cls : SystemMessages.Catalog) (cfg : Config) (env : Env)
    (ku_freq l_band_freq phi theta : Z) (st st' : State) :
  ChamberController.sweep_point cls cfg env ku_freq l_band_freq phi theta st = (Py.Ok tt, st') ->
  advanced (SWEEP_BOTH_DIRECTIONS cfg) 1 st st'.
Proof.
  unfold ChamberController.sweep_point. intros Hrun.
  apply bind_returns in Hrun as ([] & st1 & Hdispatch & Hrest).
  pose proof (advanced_calm (SWEEP_BOTH_DIRECTIONS cfg) _ st
                (calm_dispatch cls cfg env ku_freq phi theta)) as Hcalm.
  rewrite Hdispatch in Hcalm. cbn [snd] in Hcalm.
  apply (advanced_trans _ 0 1 st st1 st'); [exact Hcalm|].
  destruct (sweep_and_store cfg env ku_freq l_band_freq phi theta st1) as (_ & Hm & Hd & _).
  cbv zeta in Hm, Hd. rewrite Hrest in Hm, Hd. cbn [fst snd] in Hm, Hd.
  split; [lia|]. rewrite (Hd eq_refl). now destruct (SWEEP_BOTH_DIRECTIONS cfg).
Qed.

Lemma counts_of_calm (b : bool) {A} (c : M A) : calm c -> counts b c.
Proof.
  intros Hc st a st' Hrun. exists 0%nat.
  pose proof (advanced_calm b c st Hc) as H. now rewrite Hrun in H.
Qed.

Lemma counts_bind (b : bool) {A B} (c : M A) (k : A -> M B) :
  counts b c -> (forall a, counts b (k a)) -> counts b (bind c k).
Proof.
  intros Hc Hk st r st' Hrun.
  apply bind_returns in Hrun as (a & st1 & Hfirst & Hrest).
  destruct (Hc _ _ _ Hfirst) as [n Hn].
  destruct (Hk a _ _ _ Hrest) as [m Hm].
  exists (n + m)%nat. eapply advanced_trans; eassumption.
Qed.

Lemma counts_for_each (b : bool) {A} (l : list A) (body : A -> M unit) :
  (forall x, counts b (body x)) -> counts b (for_each l body).
Proof.
  intros Hbody. induction l as [|x l IH]; simpl.
  - apply counts_of_calm, calm_ret.
  - apply counts_bind; [apply Hbody | intros _; exact IH].
Qed.

Lemma counts_run_sweep_sequence
    (cls : SystemMessages.Catalog) (cfg : Config) (env : Env) (ku_freq l_band_freq : Z) :
  counts (SWEEP_BOTH_DIRECTIONS cfg)
    (ChamberController.run_sweep_sequence cls cfg env ku_freq l_band_freq).
Proof.
  unfold ChamberController.run_sweep_sequence.
  apply counts_bind.
  { intros st a st' Hrun. rewrite setup_step_without_local in Hrun.
    injection Hrun as _ <-. exists 0%nat. apply advanced_refl. }
  intros _. apply counts_bind.
  { apply counts_of_calm, calm_of_quiet.
    unfold ChamberController._select_phi_angles.
    destruct (PHI_RANGE_RANDOM cfg);
      [apply quiet_repeat_collect, quiet_randint | apply quiet_ret]. }
  intros phis. apply counts_for_each. intros phi.
  apply counts_bind.
  { apply counts_of_calm, calm_of_quiet.
    unfold ChamberController._select_theta_angles.
    destruct (THETA_RANGE_RANDOM cfg);
      [apply quiet_repeat_collect, quiet_randint | apply quiet_ret]. }
  intros thetas. apply counts_for_each. intros theta.
  intros st [] st' Hrun. exists 1%nat. eapply sweep_point_advances; eassumption.
Qed.

(** C7. Whatever the serial link and the chamber software do: after a
    sequence of sweep points has completed, one more measurement was
    requested per point and the direction flag has been negated once per
    point when [SWEEP_BOTH_DIRECTIONS] is set (so it alternates from one
    point to the next), and is the flag the sequence started with when it is
    not set.  The same holds for every run of [run_sweep_sequence] that
    returns, counted by the measurements it requested. *)
Theorem direction_flag_alternates
    (cls : SystemMessages.Catalog) (cfg : Config) (env : Env) (ku_freq l_band_freq : Z) :
  (forall (points : list (Z * Z)) (st st' : State),
     for_each points
       (fun point =>
          ChamberController.sweep_point cls cfg env ku_freq l_band_freq (fst point) (snd point))
       st = (Py.Ok tt, st') ->
     length (measured st') = (length (measured st) + length points)%nat /\
     (SWEEP_BOTH_DIRECTIONS cfg = true ->
      direction_forward st' = Nat.iter (length points) negb (direction_forward st)) /\
     (SWEEP_BOTH_DIRECTIONS cfg = false ->
      direction_forward st' = direction_forward st)) /\
  (forall (st st' : State),
     ChamberController.run_sweep_sequence cls cfg env ku_freq l_band_freq st = (Py.Ok tt, st') ->
     (SWEEP_BOTH_DIRECTIONS cfg = true ->
      direction_forward st' =
        Nat.iter (length (measured st') - length (measured st)) negb (direction_forward st)) /\
     (SWEEP_BOTH_DIRECTIONS cfg = false ->
      direction_forward st' = direction_forward st)).
Proof.
  split.
  - intros points st st' Hrun.
    assert (advanced (SWEEP_BOTH_DIRECTIONS cfg) (length points) st st') as [Hm Hd].
    { revert st Hrun. induction points as [|point points IH]; intros st Hrun.
      - injection Hrun as <-. apply advanced_refl.
      - cbn [for_each] in Hrun.
        apply bind_returns in Hrun as ([] & st1 & Hpoint & Hrest).
        apply (advanced_trans _ 1 (length points) st st1 st').
        + eapply sweep_point_advances; eassumption.
        + now apply IH. }
    split; [exact Hm|]. split; intros Hflag; rewrite Hflag in Hd; exact Hd.
  - intros st st' Hrun.
    destruct (counts_run_sweep_sequence cls cfg env ku_freq l_band_freq _ _ _ Hrun)
      as (n & Hm & Hd).
    replace (length (measured st') - length (measured st))%nat with n by lia.
    split; intros Hflag; rewrite Hflag in Hd; exact Hd.
Qed.

Lemma direction_flag_alternates_witness :
  three_point_run = (Py.Ok tt, snd three_point_run) /\
  SWEEP_BOTH_DIRECTIONS (configured MESSAGE_FORWARDING true false false false) = true /\
  length (measured (snd three_point_run))
    = (length (measured initial_state) + length three_points)%nat /\
  direction_forward (snd three_point_run)
    = Nat.iter (length three_points) negb (direction_forward initial_state).
Proof.
  assert (fst three_point_run = Py.Ok tt) as Hfst by (vm_compute; reflexivity).
  assert (three_point_run = (Py.Ok tt, snd three_point_run)) as Hrun.
  { rewrite <- Hfst. apply surjective_pairing. }
  split; [exact Hrun|]. split; [reflexivity|].
  destruct (direction_flag_alternates example_catalog
              (configured MESSAGE_FORWARDING true false false false) (steady_env 0)
              11600000000 1500000000) as [Hpoints _].
  apply Hpoints in Hrun as (Hm & Hd & _).
  split; [exact Hm|]. apply Hd. reflexivity.
Defined.

Example three_point_run_directions :
  map (fun call => az_start (angles_list call)) (measured (snd three_point_run))
    = [AZ_START default_config; (- AZ_START default_config)%R; AZ_START default_config] /\
  direction_forward (snd three_point_run) = false.
Proof. split; vm_compute; reflexivity. Qed.

(** ** Grid rotation *)

Lemma coordinates (n x y : Z) :
  (0 <= x < n)%Z -> ((x + y * n) mod n = x /\ (x + y * n) / n = y)%Z.
Proof.
  intros Hx. split.
  - rewrite Z_mod_plus_full. now apply Z.mod_small.
  - rewrite Z_div_plus_full by lia. rewrite Z.div_small by lia. lia.
Qed.

Lemma cell_coordinates (n i : Z) :
  (1 <= n)%Z -> (0 <= i < n * n)%Z ->
  (0 <= i mod n < n /\ 0 <= i / n < n /\ i = i mod n + (i / n) * n)%Z.
Proof.
  intros Hn Hi.
  pose proof (Z.mod_pos_bound i n ltac:(lia)) as Hmod.
  pose proof (Z.div_mod i n ltac:(lia)) as Hdm.
  split; [exact Hmod|]. split; [|lia].
  split; [apply Z.div_pos; lia | apply Z.div_lt_upper_bound; lia].
Qed.

Lemma quarter_turn_in_grid (n i : Z) :
  (1 <= n)%Z -> (0 <= i < n * n)%Z -> (0 <= quarter_turn n i < n * n)%Z.
Proof.
  intros Hn Hi. destruct (cell_coordinates n i Hn Hi) as (Hx & Hy & _).
  unfold quarter_turn. nia.
Qed.

Lemma half_turn_in_grid (n i : Z) :
  (1 <= n)%Z -> (0 <= i < n * n)%Z -> (0 <= half_turn n i < n * n)%Z.
Proof.
  intros Hn Hi. destruct (cell_coordinates n i Hn Hi) as (Hx & Hy & _).
  unfold half_turn. nia.
Qed.

Lemma quarter_turn_twice (n i : Z) :
  (1 <= n)%Z -> (0 <= i < n * n)%Z -> quarter_turn n (quarter_turn n i) = half_turn n i.
Proof.
  intros Hn Hi. destruct (cell_coordinates n i Hn Hi) as (Hx & Hy & _).
  unfold quarter_turn at 1.
  destruct (coordinates n (i / n) (n - 1 - i mod n) Hy) as [Hm Hd].
  unfold quarter_turn. rewrite Hm, Hd. unfold half_turn. lia.
Qed.

Lemma half_turn_twice (n i : Z) :
  (1 <= n)%Z -> (0 <= i < n * n)%Z -> half_turn n (half_turn n i) = i.
Proof.
  intros Hn Hi. destruct (cell_coordinates n i Hn Hi) as (Hx & Hy & Hi').
  unfold half_turn at 1.
  destruct (coordinates n (n - 1 - i mod n) (n - 1 - i / n) ltac:(lia)) as [Hm Hd].
  unfold half_turn. rewrite Hm, Hd. lia.
Qed.

Lemma quarter_turn_four_times (n i : Z) :
  (1 <= n)%Z -> (0 <= i < n * n)%Z ->
  quarter_turn n (quarter_turn n (quarter_turn n (quarter_turn n i))) = i.
Proof.
  intros Hn Hi.
  rewrite quarter_turn_twice by (repeat apply quarter_turn_in_grid; assumption).
  rewrite quarter_turn_twice by assumption.
  now apply half_turn_twice.
Qed.

Lemma half_turn_injective (n a b : Z) :
  (1 <= n)%Z -> (0 <= a < n * n)%Z -> (0 <= b < n * n)%Z ->
  half_turn n a = half_turn n b -> a = b.
Proof.
  intros Hn Ha Hb Heq.
  rewrite <- (half_turn_twice n a Hn Ha), <- (half_turn_twice n b Hn Hb).
  now rewrite Heq.
Qed.

Lemma quarter_turn_injective (n a b : Z) :
  (1 <= n)%Z -> (0 <= a < n * n)%Z -> (0 <= b < n * n)%Z ->
  quarter_turn n a = quarter_turn n b -> a = b.
Proof.
  intros Hn Ha Hb Heq.
  rewrite <- (quarter_turn_four_times n a Hn Ha), <- (quarter_turn_four_times n b Hn Hb).
  now rewrite Heq.
Qed.

Lemma matrix_rotation_quarter (n i : Z) :
  (1 <= n)%Z ->
  PatchRotation.matrix_rotation i n n PatchRotation.ROT_90 = Py.Ok (quarter_turn n i).
Proof.
  intros Hn. unfold PatchRotation.matrix_rotation.
  destruct (n =? 0)%Z eqn:E; [lia | reflexivity].
Qed.

Lemma matrix_rotation_half (n i : Z) :
  (1 <= n)%Z ->
  PatchRotation.matrix_rotation i n n PatchRotation.ROT_180 = Py.Ok (half_turn n i).
Proof.
  intros Hn. unfold PatchRotation.matrix_rotation.
  destruct (n =? 0)%Z eqn:E; [lia | reflexivity].
Qed.

Lemma range_from_zero (stop : Z) :
  Py.range 0 stop 1 = map Z.of_nat (seq 0 (Z.to_nat stop)).
Proof.
  unfold Py.range. cbn [Z.ltb Z.compare].
  replace ((stop - 0 + 1 - 1) / 1)%Z with stop by (rewrite Z.div_1_r; lia).
  apply map_ext. intros k. lia.
Qed.

Lemma getitem_at {A} (l : list A) (k : nat) (a : A) :
  l !! k = Some a -> Py.getitem l (Z.of_nat k) = Py.Ok a.
Proof.
  intros Hk. pose proof (lookup_lt_Some _ _ _ Hk) as Hlt.
  unfold Py.getitem, Py.index.
  replace ((0 <=? Z.of_nat k)%Z && (Z.of_nat k <? Z.of_nat (length l))%Z) with true
    by (symmetry; apply andb_true_intro; split; [apply Z.leb_le | apply Z.ltb_lt]; lia).
  now rewrite Nat2Z.id, Hk.
Qed.

Lemma setitem_at {A} (l : list A) (i : Z) (a : A) :
  (0 <= i < Z.of_nat (length l))%Z -> Py.setitem l i a = Py.Ok (<[Z.to_nat i := a]> l).
Proof.
  intros Hi. unfold Py.setitem, Py.index.
  replace ((0 <=? i)%Z && (i <? Z.of_nat (length l))%Z) with true
    by (symmetry; apply andb_true_intro; split; [apply Z.leb_le | apply Z.ltb_lt]; lia).
  reflexivity.
Qed.

Section Rotation.
Context {Patch : Type}.

(** The loop of [patch_pos_update] over the indices [s, ..., s + c - 1],
    when [matrix_rotation] sends them one-to-one to cells [f i] of the new
    list. *)
Lemma place_seq (rotation nx ny : Z) (patches : list (option Patch)) (f : Z -> Z) (c : nat) :
  forall (s : nat) (new_patches : list (option Patch)),
    (forall k, (s <= k < s + c)%nat ->
       PatchRotation.matrix_rotation (Z.of_nat k) nx ny rotation = Py.Ok (f (Z.of_nat k)) /\
       (k < length patches)%nat /\
       (0 <= f (Z.of_nat k) < Z.of_nat (length new_patches))%Z) ->
    (forall a b, (s <= a < s + c)%nat -> (s <= b < s + c)%nat ->
       f (Z.of_nat a) = f (Z.of_nat b) -> a = b) ->
    exists res,
      PatchRotation.place rotation nx ny patches (map Z.of_nat (seq s c)) new_patches
        = Py.Ok res /\
      length res = length new_patches /\
      (forall k, (s <= k < s + c)%nat -> res !! Z.to_nat (f (Z.of_nat k)) = patches !! k) /\
      (forall p, (forall k, (s <= k < s + c)%nat -> Z.to_nat (f (Z.of_nat k)) <> p) ->
         res !! p = new_patches !! p).
Proof.
  induction c as [|c IH]; intros s new_patches Hcells Hinj.
  - exists new_patches. cbn [seq map PatchRotation.place].
    split; [reflexivity|]. split; [reflexivity|].
    split; [intros k Hk; lia | intros p _; reflexivity].
  - cbn [seq map PatchRotation.place].
    destruct (Hcells s ltac:(lia)) as (Hrot & Hlt & Hrange).
    destruct (lookup_lt_is_Some_2 patches s Hlt) as [a Ha].
    rewrite Hrot. cbn [Py.rbind].
    rewrite (getitem_at _ _ _ Ha). cbn [Py.rbind].
    rewrite (setitem_at _ _ a Hrange). cbn [Py.rbind].
    destruct (IH (S s) (<[Z.to_nat (f (Z.of_nat s)) := a]> new_patches))
      as (res & Hres & Hlen & Hmoved & Hkept).
    { intros k Hk. rewrite length_insert. apply Hcells. lia. }
    { intros x y Hx Hy. apply Hinj; lia. }
    exists res. split; [exact Hres|].
    split; [now rewrite Hlen, length_insert|].
    split.
    + intros k Hk. destruct (Nat.eq_dec k s) as [-> | Hne].
      * rewrite Hkept.
        -- rewrite list_lookup_insert_eq by lia. now rewrite Ha.
        -- intros k' Hk' Heq.
           destruct (Hcells k' ltac:(lia)) as (_ & _ & Hrange').
           assert (k' = s) by (apply Hinj; lia). lia.
      * apply Hmoved. lia.
    + intros p Hp. rewrite Hkept by (intros k Hk; apply Hp; lia).
      apply list_lookup_insert_ne. apply Hp. lia.
Qed.

(** One call of [patch_pos_update] on an [n] x [n] grid, for a rotation
    that acts as the one-to-one map [f] of the cells. *)
Lemma patch_pos_update_moves (rotation n : Z) (f : Z -> Z) (patches : list (option Patch)) :
  (1 <= n)%Z ->
  length patches = Z.to_nat (n * n) ->
  (forall i, (0 <= i < n * n)%Z ->
     PatchRotation.matrix_rotation i n n rotation = Py.Ok (f i) /\ (0 <= f i < n * n)%Z) ->
  (forall a b, (0 <= a < n * n)%Z -> (0 <= b < n * n)%Z -> f a = f b -> a = b) ->
  exists res,
    PatchRotation.patch_pos_update rotation n n patches = Py.Ok res /\
    length res = Z.to_nat (n * n) /\
    (forall i, (0 <= i < n * n)%Z -> res !! Z.to_nat (f i) = patches !! Z.to_nat i).
Proof.
  intros Hn Hlen Hcells Hinj.
  unfold PatchRotation.patch_pos_update. rewrite range_from_zero.
  destruct (place_seq rotation n n patches f (Z.to_nat (n * n)) 0
              (replicate (length patches) None))
    as (res & Hres & Hreslen & Hmoved & _).
  { intros k Hk. rewrite length_replicate, Hlen.
    destruct (Hcells (Z.of_nat k) ltac:(lia)) as [Hrot Hrange].
    split; [exact Hrot|]. split; lia. }
  { intros a b Ha Hb Heq. apply Nat2Z.inj. apply Hinj; [lia | lia | exact Heq]. }
  exists res. split; [exact Hres|].
  split; [now rewrite Hreslen, length_replicate|].
  intros i Hi. specialize (Hmoved (Z.to_nat i) ltac:(lia)).
  now rewrite Z2Nat.id in Hmoved by lia.
Qed.

Lemma quarter_turn_moves (n : Z) (patches : list (option Patch)) :
  (1 <= n)%Z ->
  length patches = Z.to_nat (n * n) ->
  exists res,
    PatchRotation.patch_pos_update PatchRotation.ROT_90 n n patches = Py.Ok res /\
    length res = Z.to_nat (n * n) /\
    (forall i, (0 <= i < n * n)%Z ->
       res !! Z.to_nat (quarter_turn n i) = patches !! Z.to_nat i).
Proof.
  intros Hn Hlen. apply patch_pos_update_moves; try assumption.
  - intros i Hi. split; [now apply matrix_rotation_quarter | now apply quarter_turn_in_grid].
  - intros a b. now apply quarter_turn_injective.
Qed.

Lemma half_turn_moves (n : Z) (patches : list (option Patch)) :
  (1 <= n)%Z ->
  length patches = Z.to_nat (n * n) ->
  exists res,
    PatchRotation.patch_pos_update PatchRotation.ROT_180 n n patches = Py.Ok res /\
    length res = Z.to_nat (n * n) /\
    (forall i, (0 <= i < n * n)%Z ->
       res !! Z.to_nat (half_turn n i) = patches !! Z.to_nat i).
Proof.
  intros Hn Hlen. apply patch_pos_update_moves; try assumption.
  - intros i Hi. split; [now apply matrix_rotation_half | now apply half_turn_in_grid].
  - intros a b. now apply half_turn_injective.
Qed.

Lemma same_cells (n : Z) (patches res : list (option Patch)) :
  length patches = Z.to_nat (n * n) ->
  length res = Z.to_nat (n * n) ->
  (forall i, (0 <= i < n * n)%Z -> res !! Z.to_nat i = patches !! Z.to_nat i) ->
  res = patches.
Proof.
  intros Hlen Hreslen Hcells. apply list_eq. intros k.
  destruct (Nat.lt_ge_cases k (Z.to_nat (n * n))) as [Hlt | Hge].
  - specialize (Hcells (Z.of_nat k) ltac:(lia)). now rewrite Nat2Z.id in Hcells.
  - rewrite !lookup_ge_None_2 by lia. reflexivity.
Qed.

(** C10. For every [n >= 1] and every list of [n * n] patches, four
    successive calls of [patch_pos_update] with [ROT_90], and two successive
    calls with [ROT_180], each return and give back the list they started
    from: every patch is at its original index. *)
Theorem rotation_round_trip (n : Z) (patches : list (option Patch)) :
  (1 <= n)%Z ->
  length patches = Z.to_nat (n * n) ->
  PatchRotation.rotate_times 4 PatchRotation.ROT_90 n n patches = Py.Ok patches /\
  PatchRotation.rotate_times 2 PatchRotation.ROT_180 n n patches = Py.Ok patches.
Proof.
  intros Hn Hlen. split.
  - destruct (quarter_turn_moves n patches Hn Hlen) as (r1 & Hr1 & Hl1 & Hm1).
    destruct (quarter_turn_moves n r1 Hn Hl1) as (r2 & Hr2 & Hl2 & Hm2).
    destruct (quarter_turn_moves n r2 Hn Hl2) as (r3 & Hr3 & Hl3 & Hm3).
    destruct (quarter_turn_moves n r3 Hn Hl3) as (r4 & Hr4 & Hl4 & Hm4).
    cbn [PatchRotation.rotate_times].
    rewrite Hr1. cbn [Py.rbind]. rewrite Hr2. cbn [Py.rbind].
    rewrite Hr3. cbn [Py.rbind]. rewrite Hr4. cbn [Py.rbind].
    f_equal. apply (same_cells n); try assumption.
    intros i Hi.
    pose proof (quarter_turn_in_grid n i Hn Hi) as H1.
    pose proof (quarter_turn_in_grid n _ Hn H1) as H2.
    pose proof (quarter_turn_in_grid n _ Hn H2) as H3.
    rewrite <- (quarter_turn_four_times n i Hn Hi) at 1.
    rewrite Hm4, Hm3, Hm2, Hm1 by assumption. reflexivity.
  - destruct (half_turn_moves n patches Hn Hlen) as (r1 & Hr1 & Hl1 & Hm1).
    destruct (half_turn_moves n r1 Hn Hl1) as (r2 & Hr2 & Hl2 & Hm2).
    cbn [PatchRotation.rotate_times].
    rewrite Hr1. cbn [Py.rbind]. rewrite Hr2. cbn [Py.rbind].
    f_equal. apply (same_cells n); try assumption.
    intros i Hi.
    pose proof (half_turn_in_grid n i Hn Hi) as H1.
    rewrite <- (half_turn_twice n i Hn Hi) at 1.
    rewrite Hm2, Hm1 by assumption. reflexivity.
Qed.

End Rotation.

Lemma rotation_round_trip_witness :
  (1 <= 4)%Z /\
  length grid_4x4 = Z.to_nat (4 * 4) /\
  PatchRotation.rotate_times 4 PatchRotation.ROT_90 4 4 grid_4x4 = Py.Ok grid_4x4 /\
  PatchRotation.rotate_times 2 PatchRotation.ROT_180 4 4 grid_4x4 = Py.Ok grid_4x4.
Proof.
  assert (1 <= 4)%Z as Hn by lia.
  split; [exact Hn|]. split; [reflexivity|].
  exact (rotation_round_trip 4 grid_4x4 Hn eq_refl).
Defined.

Example rotation_2x2 :
  PatchRotation.patch_pos_update PatchRotation.ROT_90 2 2 grid_2x2
    = Py.Ok [Some "B"; Some "D"; Some "A"; Some "C"]%string /\
  PatchRotation.patch_pos_update PatchRotation.ROT_180 2 2 grid_2x2
    = Py.Ok [Some "D"; Some "C"; Some "B"; Some "A"]%string /\
  PatchRotation.rotate_times 4 PatchRotation.ROT_90 2 2 grid_2x2 = Py.Ok grid_2x2 /\
  PatchRotation.rotate_times 2 PatchRotation.ROT_180 2 2 grid_2x2 = Py.Ok grid_2x2.
Proof. repeat split; reflexivity. Qed.

(** * Further properties *)

(** ** Grid rotation on rectangular grids and with the other rotations *)

Lemma grid_cell_coordinates (nx ny i : Z) :
  (1 <= nx)%Z -> (0 <= i < nx * ny)%Z ->
  (0 <= i mod nx < nx /\ 0 <= i / nx < ny /\ i = i mod nx + (i / nx) * nx)%Z.
Proof.
  intros Hn Hi.
  pose proof (Z.mod_pos_bound i nx ltac:(lia)) as Hmod.
  pose proof (Z.div_mod i nx ltac:(lia)) as Hdm.
  split; [exact Hmod|]. split; [|lia].
  split; [apply Z.div_pos; lia | apply Z.div_lt_upper_bound; lia].
Qed.

Lemma half_turn_grid_in_grid (nx ny i : Z) :
  (1 <= nx)%Z -> (0 <= i < nx * ny)%Z -> (0 <= half_turn_grid nx ny i < nx * ny)%Z.
Proof.
  intros Hn Hi. destruct (grid_cell_coordinates nx ny i Hn Hi) as (Hx & Hy & _).
  unfold half_turn_grid. nia.
Qed.

Lemma half_turn_grid_twice (nx ny i : Z) :
  (1 <= nx)%Z -> (0 <= i < nx * ny)%Z ->
  half_turn_grid nx ny (half_turn_grid nx ny i) = i.
Proof.
  intros Hn Hi. destruct (grid_cell_coordinates nx ny i Hn Hi) as (Hx & Hy & Hi').
  unfold half_turn_grid at 1.
  destruct (coordinates nx (nx - 1 - i mod nx) (ny - 1 - i / nx) ltac:(lia)) as [Hm Hd].
  unfold half_turn_grid. rewrite Hm, Hd. lia.
Qed.

Lemma quarter_turn_grid_in_grid (nx ny i : Z) :
  (1 <= nx)%Z -> (0 <= i < nx * ny)%Z -> (0 <= quarter_turn_grid nx ny i < nx * ny)%Z.
Proof.
  intros Hn Hi. destruct (grid_cell_coordinates nx ny i Hn Hi) as (Hx & Hy & _).
  unfold quarter_turn_grid. nia.
Qed.

Lemma quarter_turn_back_in_grid (nx ny k : Z) :
  (1 <= nx)%Z -> (0 <= k < nx * ny)%Z -> (0 <= quarter_turn_back nx ny k < nx * ny)%Z.
Proof.
  intros Hn Hk.
  assert (1 <= ny)%Z as Hny by nia.
  destruct (grid_cell_coordinates ny nx k Hny ltac:(lia)) as (Ha & Hb & _).
  unfold quarter_turn_back. nia.
Qed.

Lemma quarter_turn_back_grid (nx ny i : Z) :
  (1 <= nx)%Z -> (0 <= i < nx * ny)%Z ->
  quarter_turn_back nx ny (quarter_turn_grid nx ny i) = i.
Proof.
  intros Hn Hi. destruct (grid_cell_coordinates nx ny i Hn Hi) as (Hx & Hy & Hi').
  unfold quarter_turn_grid.
  destruct (coordinates ny (i / nx) (nx - 1 - i mod nx) Hy) as [Hm Hd].
  unfold quarter_turn_back. rewrite Hm, Hd. lia.
Qed.

Lemma quarter_turn_grid_back (nx ny k : Z) :
  (1 <= nx)%Z -> (0 <= k < nx * ny)%Z ->
  quarter_turn_grid nx ny (quarter_turn_back nx ny k) = k.
Proof.
  intros Hn Hk.
  assert (1 <= ny)%Z as Hny by nia.
  destruct (grid_cell_coordinates ny nx k Hny ltac:(lia)) as (Ha & Hb & Hk').
  unfold quarter_turn_back.
  destruct (coordinates nx (nx - 1 - k / ny) (k mod ny) ltac:(lia)) as [Hm Hd].
  unfold quarter_turn_grid. rewrite Hm, Hd. lia.
Qed.

Lemma three_quarter_turn_in_grid (n i : Z) :
  (1 <= n)%Z -> (0 <= i < n * n)%Z -> (0 <= three_quarter_turn n i < n * n)%Z.
Proof.
  intros Hn Hi. destruct (cell_coordinates n i Hn Hi) as (Hx & Hy & _).
  unfold three_quarter_turn. nia.
Qed.

Lemma quarter_after_three_quarter (n i : Z) :
  (1 <= n)%Z -> (0 <= i < n * n)%Z -> quarter_turn n (three_quarter_turn n i) = i.
Proof.
  intros Hn Hi. destruct (cell_coordinates n i Hn Hi) as (Hx & Hy & Hi').
  unfold three_quarter_turn.
  replace (i mod n * n + (n - 1 - i / n))%Z with ((n - 1 - i / n) + (i mod n) * n)%Z by lia.
  destruct (coordinates n (n - 1 - i / n) (i mod n) ltac:(lia)) as [Hm Hd].
  unfold quarter_turn. rewrite Hm, Hd. lia.
Qed.

Lemma three_quarter_after_quarter (n i : Z) :
  (1 <= n)%Z -> (0 <= i < n * n)%Z -> three_quarter_turn n (quarter_turn n i) = i.
Proof.
  intros Hn Hi. destruct (cell_coordinates n i Hn Hi) as (Hx & Hy & Hi').
  unfold quarter_turn.
  destruct (coordinates n (i / n) (n - 1 - i mod n) Hy) as [Hm Hd].
  unfold three_quarter_turn. rewrite Hm, Hd. lia.
Qed.

Lemma quarter_after_half (n i : Z) :
  (1 <= n)%Z -> (0 <= i < n * n)%Z -> quarter_turn n (half_turn n i) = three_quarter_turn n i.
Proof.
  intros Hn Hi. destruct (cell_coordinates n i Hn Hi) as (Hx & Hy & Hi').
  unfold half_turn.
  destruct (coordinates n (n - 1 - i mod n) (n - 1 - i / n) ltac:(lia)) as [Hm Hd].
  unfold quarter_turn. rewrite Hm, Hd. unfold three_quarter_turn. lia.
Qed.

Lemma matrix_rotation_half_grid (nx ny i : Z) :
  (1 <= nx)%Z ->
  PatchRotation.matrix_rotation i nx ny PatchRotation.ROT_180
  = Py.Ok (half_turn_grid nx ny i).
Proof.
  intros Hn. unfold PatchRotation.matrix_rotation.
  destruct (nx =? 0)%Z eqn:E; [lia | reflexivity].
Qed.

Lemma matrix_rotation_quarter_grid (nx ny i : Z) :
  (1 <= nx)%Z ->
  PatchRotation.matrix_rotation i nx ny PatchRotation.ROT_90
  = Py.Ok (quarter_turn_grid nx ny i).
Proof.
  intros Hn. unfold PatchRotation.matrix_rotation.
  destruct (nx =? 0)%Z eqn:E; [lia | reflexivity].
Qed.

Lemma matrix_rotation_three_quarter (n i : Z) :
  (1 <= n)%Z ->
  PatchRotation.matrix_rotation i n n PatchRotation.ROT_270
  = Py.Ok (three_quarter_turn n i).
Proof.
  intros Hn. unfold PatchRotation.matrix_rotation.
  destruct (n =? 0)%Z eqn:E; [lia | reflexivity].
Qed.

Lemma matrix_rotation_other (nx ny i rotation : Z) :
  nx <> 0%Z ->
  rotation <> PatchRotation.ROT_90 -> rotation <> PatchRotation.ROT_180 ->
  rotation <> PatchRotation.ROT_270 ->
  PatchRotation.matrix_rotation i nx ny rotation = Py.Ok i.
Proof.
  intros Hn H1 H2 H3. unfold PatchRotation.matrix_rotation.
  apply Z.eqb_neq in Hn, H1, H2, H3. now rewrite Hn, H1, H2, H3.
Qed.

Section RotationGrid.
Context {Patch : Type}.

Lemma patch_pos_update_places
    (rotation nx ny : Z) (f : Z -> Z) (patches : list (option Patch)) :
  length patches = Z.to_nat (nx * ny) ->
  (forall i, (0 <= i < nx * ny)%Z ->
     PatchRotation.matrix_rotation i nx ny rotation = Py.Ok (f i) /\
     (0 <= f i < nx * ny)%Z) ->
  (forall a b, (0 <= a < nx * ny)%Z -> (0 <= b < nx * ny)%Z -> f a = f b -> a = b) ->
  exists res,
    PatchRotation.patch_pos_update rotation nx ny patches = Py.Ok res /\
    length res = Z.to_nat (nx * ny) /\
    (forall i, (0 <= i < nx * ny)%Z -> res !! Z.to_nat (f i) = patches !! Z.to_nat i).
Proof.
  intros Hlen Hcells Hinj.
  unfold PatchRotation.patch_pos_update. rewrite range_from_zero.
  destruct (place_seq rotation nx ny patches f (Z.to_nat (nx * ny)) 0
              (replicate (length patches) None))
    as (res & Hres & Hreslen & Hmoved & _).
  { intros k Hk. rewrite length_replicate, Hlen.
    destruct (Hcells (Z.of_nat k) ltac:(lia)) as [Hrot Hrange].
    split; [exact Hrot|]. split; lia. }
  { intros a b Ha Hb Heq. apply Nat2Z.inj. apply Hinj; [lia | lia | exact Heq]. }
  exists res. split; [exact Hres|].
  split; [now rewrite Hreslen, length_replicate|].
  intros i Hi. specialize (Hmoved (Z.to_nat i) ltac:(lia)).
  now rewrite Z2Nat.id in Hmoved by lia.
Qed.

Lemma same_cells_upto (N : Z) (patches res : list (option Patch)) :
  length patches = Z.to_nat N ->
  length res = Z.to_nat N ->
  (forall i, (0 <= i < N)%Z -> res !! Z.to_nat i = patches !! Z.to_nat i) ->
  res = patches.
Proof.
  intros Hlen Hreslen Hcells. apply list_eq. intros k.
  destruct (Nat.lt_ge_cases k (Z.to_nat N)) as [Hlt | Hge].
  - specialize (Hcells (Z.of_nat k) ltac:(lia)). now rewrite Nat2Z.id in Hcells.
  - rewrite !lookup_ge_None_2 by lia. reflexivity.
Qed.

Lemma half_turn_grid_moves (nx ny : Z) (patches : list (option Patch)) :
  (1 <= nx)%Z ->
  length patches = Z.to_nat (nx * ny) ->
  exists res,
    PatchRotation.patch_pos_update PatchRotation.ROT_180 nx ny patches = Py.Ok res /\
    length res = Z.to_nat (nx * ny) /\
    (forall i, (0 <= i < nx * ny)%Z ->
       res !! Z.to_nat (half_turn_grid nx ny i) = patches !! Z.to_nat i).
Proof.
  intros Hn Hlen. apply patch_pos_update_places; [assumption| |].
  - intros i Hi. split; [now apply matrix_rotation_half_grid | now apply half_turn_grid_in_grid].
  - intros a b Ha Hb Heq.
    rewrite <- (half_turn_grid_twice nx ny a Hn Ha), <- (half_turn_grid_twice nx ny b Hn Hb).
    now rewrite Heq.
Qed.

(** X1. On every [nx] x [ny] grid, square or not ([nx >= 1], a list of
    [nx * ny] cells), two successive calls of [patch_pos_update] with
    [ROT_180] return and give back the list they started from. *)
Theorem half_turn_round_trip_on_grid (nx ny : Z) (patches : list (option Patch)) :
  (1 <= nx)%Z ->
  length patches = Z.to_nat (nx * ny) ->
  PatchRotation.rotate_times 2 PatchRotation.ROT_180 nx ny patches = Py.Ok patches.
Proof.
  intros Hn Hlen.
  destruct (half_turn_grid_moves nx ny patches Hn Hlen) as (r1 & Hr1 & Hl1 & Hm1).
  destruct (half_turn_grid_moves nx ny r1 Hn Hl1) as (r2 & Hr2 & Hl2 & Hm2).
  cbn [PatchRotation.rotate_times].
  rewrite Hr1. cbn [Py.rbind]. rewrite Hr2. cbn [Py.rbind].
  f_equal. apply (same_cells_upto (nx * ny)); try assumption.
  intros i Hi.
  pose proof (half_turn_grid_in_grid nx ny i Hn Hi) as H1.
  rewrite <- (half_turn_grid_twice nx ny i Hn Hi) at 1.
  rewrite Hm2, Hm1 by assumption. reflexivity.
Qed.

Lemma quarter_turn_back_position_inj (nx ny : Z) :
  (1 <= nx)%Z -> Inj eq eq (quarter_turn_back_position nx ny).
Proof.
  intros Hn a b. unfold quarter_turn_back_position.
  destruct (Nat.ltb_spec a (Z.to_nat (nx * ny))) as [Ha | Ha];
    destruct (Nat.ltb_spec b (Z.to_nat (nx * ny))) as [Hb | Hb]; intros Heq.
  - pose proof (quarter_turn_back_in_grid nx ny (Z.of_nat a) Hn ltac:(lia)) as Hra.
    pose proof (quarter_turn_back_in_grid nx ny (Z.of_nat b) Hn ltac:(lia)) as Hrb.
    apply Z2Nat.inj in Heq; [|lia|lia].
    apply Nat2Z.inj.
    rewrite <- (quarter_turn_grid_back nx ny (Z.of_nat a) Hn ltac:(lia)).
    rewrite <- (quarter_turn_grid_back nx ny (Z.of_nat b) Hn ltac:(lia)).
    now rewrite Heq.
  - pose proof (quarter_turn_back_in_grid nx ny (Z.of_nat a) Hn ltac:(lia)). lia.
  - pose proof (quarter_turn_back_in_grid nx ny (Z.of_nat b) Hn ltac:(lia)). lia.
  - exact Heq.
Qed.

(** X2. On every [nx] x [ny] grid ([nx >= 1], a list of [nx * ny] cells),
    [patch_pos_update] with [ROT_90] returns a rearrangement of the list it
    was given: the patch of cell [i] is at cell [y + (nx - 1 - x) * ny] for
    [x = i mod nx], [y = i / nx], and the result is a permutation of the
    input, so no patch is lost and no cell is left [None]. *)
Theorem quarter_turn_rearranges_grid (nx ny : Z) (patches : list (option Patch)) :
  (1 <= nx)%Z ->
  length patches = Z.to_nat (nx * ny) ->
  exists res,
    PatchRotation.patch_pos_update PatchRotation.ROT_90 nx ny patches = Py.Ok res /\
    (forall i, (0 <= i < nx * ny)%Z ->
       res !! Z.to_nat (i / nx + (nx - 1 - i mod nx) * ny) = patches !! Z.to_nat i) /\
    res ≡ₚ patches.
Proof.
  intros Hn Hlen.
  destruct (patch_pos_update_places PatchRotation.ROT_90 nx ny (quarter_turn_grid nx ny) patches
              Hlen) as (res & Hres & Hreslen & Hmoved).
  { intros i Hi.
    split; [now apply matrix_rotation_quarter_grid | now apply quarter_turn_grid_in_grid]. }
  { intros a b Ha Hb Heq.
    rewrite <- (quarter_turn_back_grid nx ny a Hn Ha), <- (quarter_turn_back_grid nx ny b Hn Hb).
    now rewrite Heq. }
  exists res. split; [exact Hres|]. split; [exact Hmoved|].
  apply Permutation_inj. split; [congruence|].
  exists (quarter_turn_back_position nx ny).
  split; [now apply quarter_turn_back_position_inj|].
  intros k. unfold quarter_turn_back_position.
  destruct (Nat.ltb_spec k (Z.to_nat (nx * ny))) as [Hk | Hk].
  - pose proof (quarter_turn_back_in_grid nx ny (Z.of_nat k) Hn ltac:(lia)) as Hr.
    rewrite <- (Hmoved _ Hr).
    rewrite (quarter_turn_grid_back nx ny (Z.of_nat k) Hn ltac:(lia)).
    now rewrite Nat2Z.id.
  - rewrite !lookup_ge_None_2 by lia. reflexivity.
Qed.

End RotationGrid.

Lemma half_turn_round_trip_on_grid_witness :
  (1 <= 2)%Z /\
  length (take 6 grid_4x4) = Z.to_nat (2 * 3) /\
  PatchRotation.rotate_times 2 PatchRotation.ROT_180 2 3 (take 6 grid_4x4)
  = Py.Ok (take 6 grid_4x4).
Proof.
  assert (1 <= 2)%Z as Hn by lia.
  split; [exact Hn|]. split; [reflexivity|].
  exact (half_turn_round_trip_on_grid 2 3 (take 6 grid_4x4) Hn eq_refl).
Defined.

Lemma quarter_turn_rearranges_grid_witness :
  (1 <= 2)%Z /\
  length (take 6 grid_4x4) = Z.to_nat (2 * 3) /\
  exists res,
    PatchRotation.patch_pos_update PatchRotation.ROT_90 2 3 (take 6 grid_4x4) = Py.Ok res /\
    res ≡ₚ take 6 grid_4x4.
Proof.
  assert (1 <= 2)%Z as Hn by lia.
  split; [exact Hn|]. split; [reflexivity|].
  destruct (quarter_turn_rearranges_grid 2 3 (take 6 grid_4x4) Hn eq_refl)
    as (res & Hres & _ & Hperm).
  exists res. split; [exact Hres | exact Hperm].
Defined.

Lemma in_range_from_zero (stop i : Z) :
  In i (Py.range 0 stop 1) <-> (0 <= i < stop)%Z.
Proof.
  rewrite range_from_zero, in_map_iff. split.
  - intros (k & <- & Hk). apply in_seq in Hk. lia.
  - intros Hi. exists (Z.to_nat i). split; [lia|]. apply in_seq. lia.
Qed.

Lemma index_in_range {A} (l : list A) (i : Z) (k : nat) :
  Py.index l i = Some k -> (- Z.of_nat (length l) <= i < Z.of_nat (length l))%Z.
Proof.
  unfold Py.index.
  destruct ((0 <=? i)%Z && (i <? Z.of_nat (length l))%Z) eqn:E1.
  - apply andb_prop in E1 as [H1 H2]. apply Z.leb_le in H1. apply Z.ltb_lt in H2. lia.
  - destruct ((- Z.of_nat (length l) <=? i)%Z && (i <? 0)%Z) eqn:E2; [|discriminate].
    apply andb_prop in E2 as [H1 H2]. apply Z.leb_le in H1. apply Z.ltb_lt in H2. lia.
Qed.

Lemma getitem_outcome {A} (l : list A) (i : Z) :
  (exists a, Py.getitem l i = Py.Ok a /\
             (- Z.of_nat (length l) <= i < Z.of_nat (length l))%Z) \/
  Py.getitem l i = Py.Raise Py.IndexError.
Proof.
  unfold Py.getitem. destruct (Py.index l i) as [k|] eqn:E; [|now right].
  destruct (l !! k) as [a|]; [|now right].
  left. exists a. split; [reflexivity | now apply index_in_range in E].
Qed.

Lemma setitem_outcome {A} (l : list A) (i : Z) (a : A) :
  (exists l', Py.setitem l i a = Py.Ok l' /\ length l' = length l /\
              (- Z.of_nat (length l) <= i < Z.of_nat (length l))%Z) \/
  Py.setitem l i a = Py.Raise Py.IndexError.
Proof.
  unfold Py.setitem. destruct (Py.index l i) as [k|] eqn:E; [|now right].
  left. eexists. split; [reflexivity|].
  split; [apply length_insert | now apply index_in_range in E].
Qed.

Lemma matrix_rotation_returns (i nx ny rotation : Z) :
  nx <> 0%Z -> exists k, PatchRotation.matrix_rotation i nx ny rotation = Py.Ok k.
Proof.
  intros Hn. unfold PatchRotation.matrix_rotation.
  apply Z.eqb_neq in Hn. rewrite Hn.
  destruct (rotation =? PatchRotation.ROT_90)%Z; [eauto|].
  destruct (rotation =? PatchRotation.ROT_180)%Z; [eauto|].
  destruct (rotation =? PatchRotation.ROT_270)%Z; eauto.
Qed.

Section RotationFailures.
Context {Patch : Type}.

(** The loop of [patch_pos_update] either returns, and then every index it
    visited was inside the old list and was sent inside the new one, or it
    raises [IndexError]. *)
Lemma place_outcome (rotation nx ny : Z) (patches : list (option Patch)) (indices : list Z) :
  nx <> 0%Z ->
  forall new_patches : list (option Patch),
    (exists res,
       PatchRotation.place rotation nx ny patches indices new_patches = Py.Ok res /\
       length res = length new_patches /\
       forall i, In i indices ->
         (- Z.of_nat (length patches) <= i < Z.of_nat (length patches))%Z /\
         exists k,
           PatchRotation.matrix_rotation i nx ny rotation = Py.Ok k /\
           (- Z.of_nat (length new_patches) <= k < Z.of_nat (length new_patches))%Z) \/
    PatchRotation.place rotation nx ny patches indices new_patches = Py.Raise Py.IndexError.
Proof.
  intros Hn. induction indices as [|i rest IH]; intros new_patches.
  - left. exists new_patches. split; [reflexivity|]. split; [reflexivity|].
    intros i [].
  - cbn [PatchRotation.place].
    destruct (matrix_rotation_returns i nx ny rotation Hn) as [k Hk].
    rewrite Hk. cbn [Py.rbind].
    destruct (getitem_outcome patches i) as [(a & Ha & Hi) | Ha];
      rewrite Ha; cbn [Py.rbind]; [|now right].
    destruct (setitem_outcome new_patches k a) as [(l' & Hl' & Hlen & Hkr) | Hl'];
      rewrite Hl'; cbn [Py.rbind]; [|now right].
    destruct (IH l') as [(res & Hres & Hreslen & Hall) | Hraise]; [|now right].
    left. exists res. split; [exact Hres|]. split; [congruence|].
    intros j [<- | Hj].
    + split; [exact Hi|]. exists k. split; [exact Hk | exact Hkr].
    + rewrite <- Hlen. now apply Hall.
Qed.

Lemma patch_pos_update_outcome (rotation nx ny : Z) (patches : list (option Patch)) :
  nx <> 0%Z ->
  (exists res,
     PatchRotation.patch_pos_update rotation nx ny patches = Py.Ok res /\
     forall i, (0 <= i < nx * ny)%Z ->
       (i < Z.of_nat (length patches))%Z /\
       exists k,
         PatchRotation.matrix_rotation i nx ny rotation = Py.Ok k /\
         (- Z.of_nat (length patches) <= k < Z.of_nat (length patches))%Z) \/
  PatchRotation.patch_pos_update rotation nx ny patches = Py.Raise Py.IndexError.
Proof.
  intros Hn. unfold PatchRotation.patch_pos_update.
  destruct (place_outcome rotation nx ny patches (Py.range 0 (nx * ny) 1) Hn
              (replicate (length patches) None)) as [(res & Hres & _ & Hall) | Hraise];
    [|now right].
  left. exists res. split; [exact Hres|].
  intros i Hi. destruct (Hall i) as [Hin (k & Hk & Hkr)]; [now apply in_range_from_zero|].
  rewrite length_replicate in Hkr.
  split; [lia|]. exists k. split; assumption.
Qed.

(** X3. [patch_pos_update] with [ROT_270] on a grid that is wider than
    tall ([nx > ny >= 1], a list of [nx * ny] cells) raises [IndexError]:
    [matrix_rotation] sends cell [nx - 1] to index [(nx - 1) * nx + ny - 1],
    which is outside the list. *)
Theorem three_quarter_turn_overruns_wide_grid
    (nx ny : Z) (patches : list (option Patch)) :
  (1 <= ny < nx)%Z ->
  length patches = Z.to_nat (nx * ny) ->
  PatchRotation.matrix_rotation (nx - 1) nx ny PatchRotation.ROT_270
    = Py.Ok ((nx - 1) * nx + ny - 1)%Z /\
  (nx * ny <= (nx - 1) * nx + ny - 1)%Z /\
  PatchRotation.patch_pos_update PatchRotation.ROT_270 nx ny patches
    = Py.Raise Py.IndexError.
Proof.
  intros Hgrid Hlen.
  assert (PatchRotation.matrix_rotation (nx - 1) nx ny PatchRotation.ROT_270
          = Py.Ok ((nx - 1) * nx + ny - 1)%Z) as Hcell.
  { unfold PatchRotation.matrix_rotation.
    destruct (nx =? 0)%Z eqn:E; [lia|]. cbn [Z.eqb PatchRotation.ROT_270 PatchRotation.ROT_90
      PatchRotation.ROT_180 Pos.eqb].
    rewrite Z.mod_small, Z.div_small by lia. f_equal. lia. }
  split; [exact Hcell|]. split; [nia|].
  destruct (patch_pos_update_outcome PatchRotation.ROT_270 nx ny patches ltac:(lia))
    as [(res & _ & Hall) | Hraise]; [|exact Hraise].
  destruct (Hall (nx - 1)%Z ltac:(nia)) as (_ & k & Hk & Hkr).
  rewrite Hcell in Hk. injection Hk as <-. nia.
Qed.

(** X4. [patch_pos_update] on a list that has fewer cells than the grid
    ([nx >= 1], [len(patches) < nx * ny]) raises [IndexError], whatever the
    rotation. *)
Theorem short_patch_list_raises
    (rotation nx ny : Z) (patches : list (option Patch)) :
  (1 <= nx)%Z ->
  (Z.of_nat (length patches) < nx * ny)%Z ->
  PatchRotation.patch_pos_update rotation nx ny patches = Py.Raise Py.IndexError.
Proof.
  intros Hn Hshort.
  destruct (patch_pos_update_outcome rotation nx ny patches ltac:(lia))
    as [(res & _ & Hall) | Hraise]; [|exact Hraise].
  destruct (Hall (Z.of_nat (length patches)) ltac:(lia)) as [Hlt _]. lia.
Qed.

(** X5. A rotation code other than [ROT_90], [ROT_180] and [ROT_270]
    ([ROT_0] included) leaves a grid as it is: for [nx <> 0] and a list of
    [nx * ny] cells [patch_pos_update] returns the list it was given. *)
Theorem other_rotation_keeps_grid
    (rotation nx ny : Z) (patches : list (option Patch)) :
  nx <> 0%Z ->
  rotation <> PatchRotation.ROT_90 ->
  rotation <> PatchRotation.ROT_180 ->
  rotation <> PatchRotation.ROT_270 ->
  length patches = Z.to_nat (nx * ny) ->
  PatchRotation.patch_pos_update rotation nx ny patches = Py.Ok patches.
Proof.
  intros Hn H1 H2 H3 Hlen.
  destruct (patch_pos_update_places rotation nx ny (fun i => i) patches Hlen)
    as (res & Hres & Hreslen & Hmoved).
  { intros i Hi. split; [now apply matrix_rotation_other | exact Hi]. }
  { intros a b _ _ Heq. exact Heq. }
  rewrite Hres. f_equal. now apply (same_cells_upto (nx * ny)).
Qed.

Lemma three_quarter_turn_moves (n : Z) (patches : list (option Patch)) :
  (1 <= n)%Z ->
  length patches = Z.to_nat (n * n) ->
  exists res,
    PatchRotation.patch_pos_update PatchRotation.ROT_270 n n patches = Py.Ok res /\
    length res = Z.to_nat (n * n) /\
    (forall i, (0 <= i < n * n)%Z ->
       res !! Z.to_nat (three_quarter_turn n i) = patches !! Z.to_nat i).
Proof.
  intros Hn Hlen. apply patch_pos_update_places; [assumption| |].
  - intros i Hi.
    split; [now apply matrix_rotation_three_quarter | now apply three_quarter_turn_in_grid].
  - intros a b Ha Hb Heq.
    rewrite <- (quarter_after_three_quarter n a Hn Ha),
            <- (quarter_after_three_quarter n b Hn Hb).
    now rewrite Heq.
Qed.

(** X6. On a square grid ([n >= 1], [n * n] cells) [ROT_270] undoes
    [ROT_90] and [ROT_90] undoes [ROT_270]: [patch_pos_update] with the one
    applied to the result of [patch_pos_update] with the other gives back the
    original list. *)
Theorem quarter_turns_undo_each_other (n : Z) (patches : list (option Patch)) :
  (1 <= n)%Z ->
  length patches = Z.to_nat (n * n) ->
  (rotated <- PatchRotation.patch_pos_update PatchRotation.ROT_90 n n patches ;;;
   PatchRotation.patch_pos_update PatchRotation.ROT_270 n n rotated) = Py.Ok patches /\
  (rotated <- PatchRotation.patch_pos_update PatchRotation.ROT_270 n n patches ;;;
   PatchRotation.patch_pos_update PatchRotation.ROT_90 n n rotated) = Py.Ok patches.
Proof.
  intros Hn Hlen. split.
  - destruct (quarter_turn_moves n patches Hn Hlen) as (r1 & Hr1 & Hl1 & Hm1).
    destruct (three_quarter_turn_moves n r1 Hn Hl1) as (r2 & Hr2 & Hl2 & Hm2).
    rewrite Hr1. cbn [Py.rbind]. rewrite Hr2.
    f_equal. apply (same_cells_upto (n * n)); try assumption.
    intros i Hi.
    pose proof (quarter_turn_in_grid n i Hn Hi) as H1.
    rewrite <- (three_quarter_after_quarter n i Hn Hi) at 1.
    rewrite Hm2, Hm1 by assumption. reflexivity.
  - destruct (three_quarter_turn_moves n patches Hn Hlen) as (r1 & Hr1 & Hl1 & Hm1).
    destruct (quarter_turn_moves n r1 Hn Hl1) as (r2 & Hr2 & Hl2 & Hm2).
    rewrite Hr1. cbn [Py.rbind]. rewrite Hr2.
    f_equal. apply (same_cells_upto (n * n)); try assumption.
    intros i Hi.
    pose proof (three_quarter_turn_in_grid n i Hn Hi) as H1.
    rewrite <- (quarter_after_three_quarter n i Hn Hi) at 1.
    rewrite Hm2, Hm1 by assumption. reflexivity.
Qed.

(** X7. On a square grid ([n >= 1], [n * n] cells) the rotations compose
    as their names say: two successive [ROT_90] give what one [ROT_180]
    gives, and three successive [ROT_90] give what one [ROT_270] gives. *)
Theorem quarter_turns_compose (n : Z) (patches : list (option Patch)) :
  (1 <= n)%Z ->
  length patches = Z.to_nat (n * n) ->
  PatchRotation.rotate_times 2 PatchRotation.ROT_90 n n patches
    = PatchRotation.patch_pos_update PatchRotation.ROT_180 n n patches /\
  PatchRotation.rotate_times 3 PatchRotation.ROT_90 n n patches
    = PatchRotation.patch_pos_update PatchRotation.ROT_270 n n patches.
Proof.
  intros Hn Hlen.
  destruct (quarter_turn_moves n patches Hn Hlen) as (r1 & Hr1 & Hl1 & Hm1).
  destruct (quarter_turn_moves n r1 Hn Hl1) as (r2 & Hr2 & Hl2 & Hm2).
  destruct (quarter_turn_moves n r2 Hn Hl2) as (r3 & Hr3 & Hl3 & Hm3).
  destruct (half_turn_moves n patches Hn Hlen) as (h & Hh & Hlh & Hmh).
  destruct (three_quarter_turn_moves n patches Hn Hlen) as (t & Ht & Hlt & Hmt).
  assert (r2 = h) as Hr2h.
  { apply (same_cells_upto (n * n)); try assumption.
    intros k Hk.
    pose proof (half_turn_in_grid n k Hn Hk) as Hj.
    rewrite <- (half_turn_twice n k Hn Hk).
    rewrite Hmh by assumption.
    rewrite <- (quarter_turn_twice n _ Hn Hj).
    rewrite Hm2 by (now apply quarter_turn_in_grid).
    now rewrite Hm1. }
  split.
  - cbn [PatchRotation.rotate_times].
    rewrite Hr1. cbn [Py.rbind]. rewrite Hr2. cbn [Py.rbind]. now rewrite Hh, Hr2h.
  - cbn [PatchRotation.rotate_times].
    rewrite Hr1. cbn [Py.rbind]. rewrite Hr2. cbn [Py.rbind]. rewrite Hr3. cbn [Py.rbind].
    rewrite Ht. f_equal.
    apply (same_cells_upto (n * n)); try assumption.
    intros k Hk.
    pose proof (quarter_turn_in_grid n k Hn Hk) as Hj.
    rewrite <- (three_quarter_after_quarter n k Hn Hk).
    rewrite Hmt by assumption.
    rewrite <- (quarter_after_half n _ Hn Hj).
    pose proof (half_turn_in_grid n _ Hn Hj) as Hhj.
    rewrite Hm3 by assumption.
    rewrite <- Hr2h in Hmh. now rewrite Hmh.
Qed.

End RotationFailures.

Lemma three_quarter_turn_overruns_wide_grid_witness :
  (1 <= 2 < 3)%Z /\
  length (take 6 grid_4x4) = Z.to_nat (3 * 2) /\
  PatchRotation.patch_pos_update PatchRotation.ROT_270 3 2 (take 6 grid_4x4)
  = Py.Raise Py.IndexError.
Proof.
  assert (1 <= 2 < 3)%Z as Hgrid by lia.
  split; [exact Hgrid|]. split; [reflexivity|].
  exact (proj2 (proj2 (three_quarter_turn_overruns_wide_grid 3 2 (take 6 grid_4x4)
                         Hgrid eq_refl))).
Defined.

Lemma short_patch_list_raises_witness :
  (1 <= 2)%Z /\
  (Z.of_nat (length (take 3 grid_2x2)) < 2 * 2)%Z /\
  PatchRotation.patch_pos_update PatchRotation.ROT_90 2 2 (take 3 grid_2x2)
  = Py.Raise Py.IndexError.
Proof.
  assert (1 <= 2)%Z as Hn by lia.
  assert (Z.of_nat (length (take 3 grid_2x2)) < 2 * 2)%Z as Hshort by (cbn; lia).
  split; [exact Hn|]. split; [exact Hshort|].
  exact (short_patch_list_raises PatchRotation.ROT_90 2 2 (take 3 grid_2x2) Hn Hshort).
Defined.

Lemma other_rotation_keeps_grid_witness :
  (2 <> 0)%Z /\
  PatchRotation.ROT_0 <> PatchRotation.ROT_90 /\
  PatchRotation.ROT_0 <> PatchRotation.ROT_180 /\
  PatchRotation.ROT_0 <> PatchRotation.ROT_270 /\
  length (take 6 grid_4x4) = Z.to_nat (2 * 3) /\
  PatchRotation.patch_pos_update PatchRotation.ROT_0 2 3 (take 6 grid_4x4)
  = Py.Ok (take 6 grid_4x4).
Proof.
  assert (2 <> 0)%Z as Hn by discriminate.
  assert (PatchRotation.ROT_0 <> PatchRotation.ROT_90) as H1 by discriminate.
  assert (PatchRotation.ROT_0 <> PatchRotation.ROT_180) as H2 by discriminate.
  assert (PatchRotation.ROT_0 <> PatchRotation.ROT_270) as H3 by discriminate.
  repeat (split; [assumption|]). split; [reflexivity|].
  exact (other_rotation_keeps_grid PatchRotation.ROT_0 2 3 (take 6 grid_4x4)
           Hn H1 H2 H3 eq_refl).
Defined.

Lemma quarter_turns_undo_each_other_witness :
  (1 <= 4)%Z /\
  length grid_4x4 = Z.to_nat (4 * 4) /\
  (rotated <- PatchRotation.patch_pos_update PatchRotation.ROT_90 4 4 grid_4x4 ;;;
   PatchRotation.patch_pos_update PatchRotation.ROT_270 4 4 rotated) = Py.Ok grid_4x4.
Proof.
  assert (1 <= 4)%Z as Hn by lia.
  split; [exact Hn|]. split; [reflexivity|].
  exact (proj1 (quarter_turns_undo_each_other 4 grid_4x4 Hn eq_refl)).
Defined.

Lemma quarter_turns_compose_witness :
  (1 <= 4)%Z /\
  length grid_4x4 = Z.to_nat (4 * 4) /\
  PatchRotation.rotate_times 3 PatchRotation.ROT_90 4 4 grid_4x4
  = PatchRotation.patch_pos_update PatchRotation.ROT_270 4 4 grid_4x4.
Proof.
  assert (1 <= 4)%Z as Hn by lia.
  split; [exact Hn|]. split; [reflexivity|].
  exact (proj2 (quarter_turns_compose 4 grid_4x4 Hn eq_refl)).
Defined.

(** ** Command templates *)






(** ** ArrayController *)

Lemma phased_array_commands_reject_array_keyword
    (cls : SystemMessages.Catalog) (array phi theta gain freq_hz pol : Py.value) :
  SystemMessages.get_phased_array_commands cls
    [("array", array); ("phi", phi); ("theta", theta); ("gain", gain);
     ("freq_hz", freq_hz); ("pol", pol)]%string
  = Py.Raise Py.TypeError.
Proof. reflexivity. Qed.

(** X9. In Local mode ([ARRAY_INTERFACE] empty) [control_array] never
    reaches [send_commands]: for every catalog, world, state and point it
    raises with the state unchanged.  It raises what
    [_get_rx_atten_commands] raises when the band, channel or attenuation
    commands cannot be built, and [TypeError] otherwise, because the sub-array
    loop passes the keyword [array] to [get_phased_array_commands], whose
    parameter is [phased_array]. *)
Theorem local_control_array_never_sends
    (cls : SystemMessages.Catalog) (cfg : Config) (env : Env)
    (ku_freq phi theta : Z) (st : State) :
  ARRAY_INTERFACE cfg = LOCAL ->
  ArrayController.control_array cls cfg env ku_freq phi theta st
  = (Py.Raise
       match ArrayController._get_rx_atten_commands cls cfg ku_freq
               ArrayController._get_default_attenuation_codes with
       | Py.Ok _ => Py.TypeError
       | Py.Raise e => e
       end, st).
Proof.
  intros Hmode. unfold ArrayController.control_array, ArrayController._get_rx_atten_commands.
  rewrite Hmode. cbn [String.eqb LOCAL]. unfold bind, lift.
  destruct (ArrayController.band_config_command cls) as [band | e]; cbn [Py.rbind];
    [|reflexivity].
  destruct (ArrayController.channel_config_command cls _ _) as [channel | e];
    cbn [Py.rbind]; [|reflexivity].
  destruct (Py.comprehension _ (Py.range 0 4 1)) as [bpl | e]; cbn [Py.rbind];
    [|reflexivity].
  destruct (ArrayController.if_atten_command cls _) as [ifa | e]; cbn [Py.rbind];
    [|reflexivity].
  cbn [Py.comprehension]. rewrite phased_array_commands_reject_array_keyword.
  reflexivity.
Qed.

Lemma local_control_array_never_sends_witness :
  ARRAY_INTERFACE default_config = LOCAL /\
  ArrayController.control_array example_catalog default_config (steady_env 0)
    11600000000 0 5 initial_state
  = (Py.Raise Py.TypeError, initial_state) /\
  ArrayController.control_array SystemMessages.shipped default_config (steady_env 0)
    11600000000 0 5 initial_state
  = (Py.Raise Py.KeyError, initial_state).
Proof.
  split; [reflexivity|]. split.
  - rewrite (local_control_array_never_sends example_catalog default_config (steady_env 0)
               11600000000 0 5 initial_state eq_refl).
    reflexivity.
  - rewrite (local_control_array_never_sends SystemMessages.shipped default_config
               (steady_env 0) 11600000000 0 5 initial_state eq_refl).
    reflexivity.
Defined.

Lemma comprehension_length {A B} (f : A -> Py.result B) (l : list A) (ys : list B) :
  Py.comprehension f l = Py.Ok ys -> length ys = length l.
Proof.
  revert ys. induction l as [|x l IH]; intros ys; cbn [Py.comprehension].
  - intros [= <-]. reflexivity.
  - destruct (f x) as [y | e]; cbn [Py.rbind]; [|discriminate].
    destruct (Py.comprehension f l) as [ys' | e]; cbn [Py.rbind]; [|discriminate].
    intros [= <-]. cbn [length]. f_equal. now apply IH.
Qed.

Lemma comprehension_each {A B} (f : A -> Py.result B) (l : list A) (ys : list B) (x : A) :
  Py.comprehension f l = Py.Ok ys -> In x l -> exists y, f x = Py.Ok y.
Proof.
  revert ys. induction l as [|x' l IH]; intros ys; cbn [Py.comprehension]; [intros _ []|].
  destruct (f x') as [y | e] eqn:Hx; cbn [Py.rbind]; [|discriminate].
  destruct (Py.comprehension f l) as [ys' | e]; cbn [Py.rbind]; [|discriminate].
  intros _ [<- | Hin]; [eauto | eapply IH; eauto].
Qed.

(** X10. [_get_rx_atten_commands] returns only if [BAND_CODES] has the
    key ['L'], the attenuation tuple holds at least four array codes and one
    SM code, and then it returns exactly seven commands; without the key
    ['L'] it raises [KeyError] whatever the templates are. *)
Theorem rx_atten_commands_requirements
    (cls : SystemMessages.Catalog) (cfg : Config) (f_hz : Z) (atten : list Z * list Z) :
  (forall commands,
     ArrayController._get_rx_atten_commands cls cfg f_hz atten = Py.Ok commands ->
     length commands = 7%nat /\
     SystemMessages.BAND_CODES cls !! "L"%string <> None /\
     (4 <= length (fst atten))%nat /\
     (1 <= length (snd atten))%nat) /\
  (SystemMessages.BAND_CODES cls !! "L"%string = None ->
   ArrayController._get_rx_atten_commands cls cfg f_hz atten = Py.Raise Py.KeyError).
Proof.
  split.
  - intros commands. unfold ArrayController._get_rx_atten_commands.
    destruct (ArrayController.band_config_command cls) as [band | e] eqn:Hband;
      cbn [Py.rbind]; [|discriminate].
    destruct (ArrayController.channel_config_command cls _ _) as [channel | e];
      cbn [Py.rbind]; [|discriminate].
    destruct (Py.comprehension _ (Py.range 0 4 1)) as [bpl | e] eqn:Hbpl; cbn [Py.rbind];
      [|discriminate].
    destruct (ArrayController.if_atten_command cls atten) as [ifa | e] eqn:Hifa;
      cbn [Py.rbind]; [|discriminate].
    intros [= <-].
    split.
    { apply comprehension_length in Hbpl. cbn [app length].
      rewrite length_app, Hbpl. reflexivity. }
    split.
    { unfold ArrayController.band_config_command in Hband.
      destruct (SystemMessages.BAND_CODES cls !! "L"%string); [discriminate | discriminate]. }
    split.
    { destruct (comprehension_each _ _ _ 3%Z Hbpl) as [y Hy];
        [apply in_range_from_zero; lia|].
      unfold ArrayController.bpl_atten_command in Hy.
      destruct (getitem_outcome (fst atten) 3) as [(a & _ & Hr) | Hr];
        [lia | rewrite Hr in Hy; discriminate]. }
    { unfold ArrayController.if_atten_command in Hifa.
      destruct (getitem_outcome (snd atten) 0) as [(a & _ & Hr) | Hr];
        [lia | rewrite Hr in Hifa; discriminate]. }
  - intros Hmissing. unfold ArrayController._get_rx_atten_commands,
      ArrayController.band_config_command.
    now rewrite Hmissing.
Qed.

Lemma rx_atten_commands_requirements_witness :
  SystemMessages.BAND_CODES SystemMessages.shipped !! "L"%string = None /\
  ArrayController._get_rx_atten_commands SystemMessages.shipped default_config 11600000000
    ArrayController._get_default_attenuation_codes = Py.Raise Py.KeyError.
Proof.
  split; [reflexivity|].
  exact (proj2 (rx_atten_commands_requirements SystemMessages.shipped default_config
                  11600000000 ArrayController._get_default_attenuation_codes) eq_refl).
Defined.



Lemma send_commands_link_up (env : Env) (commands : list string) (st : State) :
  serial_link env (serial_opens st) = LinkUp ->
  fst (HardwareInterface.send_commands env commands st) = Py.Ok tt /\
  sent (snd (HardwareInterface.send_commands env commands st)) = sent st ++ [commands] /\
  serial_opens (snd (HardwareInterface.send_commands env commands st)) = S (serial_opens st).
Proof.
  intros Hup. unfold HardwareInterface.send_commands. rewrite Hup. repeat split.
Qed.

Lemma pointing_commands_length
    (cls : SystemMessages.Catalog) (freq_hz az el pol : Z) (commands : list string) :
  SystemMessages.get_pointing_commands cls freq_hz az el pol = Py.Ok commands ->
  length commands = 3%nat.
Proof.
  unfold SystemMessages.get_pointing_commands.
  destruct (Py.format (SystemMessages.MODEM_IF_CMD cls) _); cbn [Py.rbind]; [|discriminate].
  destruct (Py.format (SystemMessages.BEAM_INFO_CMD cls) _); cbn [Py.rbind]; [|discriminate].
  intros [= <-]. reflexivity.
Qed.

Lemma rx_atten_commands_length
    (cls : SystemMessages.Catalog) (cfg : Config) (f_hz : Z) (atten : list Z * list Z)
    (commands : list string) :
  ArrayController._get_rx_atten_commands cls cfg f_hz atten = Py.Ok commands ->
  length commands = 7%nat.
Proof.
  unfold ArrayController._get_rx_atten_commands.
  destruct (ArrayController.band_config_command cls) as [band | e];
    cbn [Py.rbind]; [|discriminate].
  destruct (ArrayController.channel_config_command cls _ _) as [channel | e];
    cbn [Py.rbind]; [|discriminate].
  destruct (Py.comprehension _ (Py.range 0 4 1)) as [bpl | e] eqn:Hbpl; cbn [Py.rbind];
    [|discriminate].
  destruct (ArrayController.if_atten_command cls atten) as [ifa | e];
    cbn [Py.rbind]; [|discriminate].
  intros [= <-]. apply comprehension_length in Hbpl. cbn [app length].
  rewrite length_app, Hbpl. reflexivity.
Qed.

(** X12. [setup_array] returns at once, leaving the state untouched,
    whenever [ARRAY_INTERFACE] is not empty.  In Local mode it raises with
    nothing written if the attenuation commands cannot be built; otherwise,
    with the link up, it writes the seven attenuation commands as one batch
    and then the three pointing commands (for [POL_ANGLE = 0]) as a second
    batch; if the pointing commands cannot be built it raises after the
    attenuation batch has been written. *)
Theorem setup_array_behaviour
    (cls : SystemMessages.Catalog) (cfg : Config) (env : Env)
    (ku_freq azimuth elevation : Z) (st : State) :
  (ARRAY_INTERFACE cfg <> LOCAL ->
   ArrayController.setup_array cls cfg env ku_freq azimuth elevation st = (Py.Ok tt, st)) /\
  (ARRAY_INTERFACE cfg = LOCAL ->
   match ArrayController._get_rx_atten_commands cls cfg ku_freq
           ArrayController._get_default_attenuation_codes with
   | Py.Raise e =>
       ArrayController.setup_array cls cfg env ku_freq azimuth elevation st = (Py.Raise e, st)
   | Py.Ok rx =>
       serial_link env (serial_opens st) = LinkUp ->
       length rx = 7%nat /\
       match SystemMessages.get_pointing_commands cls ku_freq azimuth elevation 0 with
       | Py.Raise e =>
           fst (ArrayController.setup_array cls cfg env ku_freq azimuth elevation st)
             = Py.Raise e /\
           sent (snd (ArrayController.setup_array cls cfg env ku_freq azimuth elevation st))
             = sent st ++ [rx]
       | Py.Ok pointing =>
           serial_link env (S (serial_opens st)) = LinkUp ->
           length pointing = 3%nat /\
           fst (ArrayController.setup_array cls cfg env ku_freq azimuth elevation st)
             = Py.Ok tt /\
           sent (snd (ArrayController.setup_array cls cfg env ku_freq azimuth elevation st))
             = sent st ++ [rx; pointing]
       end
   end).
Proof.
  split.
  - intros Hmode. apply String.eqb_neq in Hmode. unfold LOCAL in Hmode.
    unfold ArrayController.setup_array. now rewrite Hmode.
  - intros Hmode.
    assert (POL_ANGLE cfg = 0%Z) as Hpol by (unfold POL_ANGLE; now rewrite Hmode).
    unfold ArrayController.setup_array. rewrite Hmode, Hpol. cbn [String.eqb LOCAL negb].
    destruct (ArrayController._get_rx_atten_commands cls cfg ku_freq
                ArrayController._get_default_attenuation_codes) as [rx | e] eqn:Hrx.
    + intros Hup.
      split; [now apply rx_atten_commands_length in Hrx|].
      destruct (send_commands_link_up env rx st Hup) as (Hr & Hs & Ho).
      rewrite (bind_ok _ _ st st rx) by reflexivity.
      destruct (HardwareInterface.send_commands env rx st) as [r1 st1] eqn:Hsend.
      cbn [fst snd] in Hr, Hs, Ho. subst r1.
      rewrite (bind_ok _ _ _ _ _ Hsend).
      destruct (SystemMessages.get_pointing_commands cls ku_freq azimuth elevation 0)
        as [pointing | e] eqn:Hpointing.
      * intros Hup2. rewrite <- Ho in Hup2.
        destruct (send_commands_link_up env pointing st1 Hup2) as (Hr2 & Hs2 & _).
        split; [now apply pointing_commands_length in Hpointing|].
        rewrite (bind_ok _ _ st1 st1 pointing) by reflexivity.
        split; [exact Hr2|].
        rewrite Hs2, Hs, <- app_assoc. reflexivity.
      * rewrite (bind_raise _ _ st1 st1 e) by reflexivity.
        cbn [fst snd]. split; [reflexivity | exact Hs].
    + now rewrite (bind_raise _ _ st st e) by reflexivity.
Qed.

Lemma setup_array_behaviour_witness :
  ARRAY_INTERFACE (configured POINTING_GENERATOR false false false false) <> LOCAL /\
  ArrayController.setup_array example_catalog
    (configured POINTING_GENERATOR false false false false) (steady_env 0)
    11600000000 0 90 initial_state = (Py.Ok tt, initial_state).
Proof.
  assert (ARRAY_INTERFACE (configured POINTING_GENERATOR false false false false) <> LOCAL)
    as Hmode by discriminate.
  split; [exact Hmode|].
  exact (proj1 (setup_array_behaviour example_catalog
                  (configured POINTING_GENERATOR false false false false) (steady_env 0)
                  11600000000 0 90 initial_state) Hmode).
Defined.

Example setup_array_local :
  sent (snd (ArrayController.setup_array example_catalog default_config (steady_env 0)
               11600000000 0 90 initial_state))
  = [["band 0 1"; "chan 0 11600000 1500000"; "bpl 0 0 0"; "bpl 0 1 0"; "bpl 0 2 0";
      "bpl 0 3 0"; "ifatt 0 0"];
     ["modem 11600000000 1"; "beam 0 90 11600000000 0 1"; "point"]]%string.
Proof. vm_compute. reflexivity. Qed.

Lemma send_one_command (env : Env) (command : string) (st : State) :
  let run := HardwareInterface.send_commands env [command] st in
  serial_opens (snd run) = S (serial_opens st) /\
  ((fst run = Py.Ok tt /\ sent (snd run) = sent st ++ [[command]]) \/
   (fst run = Py.Raise Py.SerialException /\
    (sent (snd run) = sent st \/ sent (snd run) = sent st ++ [[]]))).
Proof.
  cbv zeta. unfold HardwareInterface.send_commands.
  destruct (serial_link env (serial_opens st)) as [|n|].
  - split; [reflexivity|]. right. split; [reflexivity|]. now left.
  - destruct n as [|n]; cbn [Nat.ltb Nat.leb length].
    + split; [reflexivity|]. right. split; [reflexivity|]. now right.
    + split; [reflexivity|]. now left.
  - split; [reflexivity|]. now left.
Qed.

(** X13. [power_cycle] writes at most the power-off command followed by
    the power-on command, never power-on alone or first.  When the port
    cannot be opened for the connection check it returns normally with
    nothing written; when it returns after a successful check, both commands
    were written, power-off first. *)
Theorem power_cycle_order
    (cls : SystemMessages.Catalog) (env : Env) (st : State) :
  let run := ArrayController.power_cycle cls env st in
  let off := SystemMessages.get_power_command cls false in
  let on := SystemMessages.get_power_command cls true in
  (Spec.dispatched st (snd run) = [] \/
   Spec.dispatched st (snd run) = [off] \/
   Spec.dispatched st (snd run) = [off; on]) /\
  (serial_link env (serial_opens st) = PortUnavailable ->
   fst run = Py.Ok tt /\ sent (snd run) = sent st) /\
  (serial_link env (serial_opens st) <> PortUnavailable ->
   fst run = Py.Ok tt ->
   sent (snd run) = sent st ++ [[off]; [on]]).
Proof.
  cbv zeta. unfold Spec.dispatched.
  set (off := SystemMessages.get_power_command cls false).
  set (on := SystemMessages.get_power_command cls true).
  set (st0 := {| random_draws := random_draws st;
                 clock_reads := clock_reads st;
                 serial_opens := S (serial_opens st);
                 sent := sent st;
                 measured := measured st;
                 direction_forward := direction_forward st;
                 sweep_name := sweep_name st |}).
  assert (ArrayController.power_cycle cls env st
          = (if negb match serial_link env (serial_opens st) with
                     | PortUnavailable => false
                     | _ => true
                     end
             then ret tt
             else _ <- HardwareInterface.send_commands env [off] ;;
                  HardwareInterface.send_commands env [on]) st0) as Hcycle.
  { unfold ArrayController.power_cycle, bind at 1, HardwareInterface.check_connection.
    destruct (serial_link env (serial_opens st)); reflexivity. }
  rewrite Hcycle. clear Hcycle.
  assert (forall (connected : bool),
            let run := (if negb connected then ret tt
                        else _ <- HardwareInterface.send_commands env [off] ;;
                             HardwareInterface.send_commands env [on]) st0 in
            (concat (drop (length (sent st)) (sent (snd run))) = [] \/
             concat (drop (length (sent st)) (sent (snd run))) = [off] \/
             concat (drop (length (sent st)) (sent (snd run))) = [off; on]) /\
            (connected = false -> fst run = Py.Ok tt /\ sent (snd run) = sent st) /\
            (connected = true -> fst run = Py.Ok tt ->
             sent (snd run) = sent st ++ [[off]; [on]])) as Hbody.
  { intros [|]; cbv zeta; cbn [negb].
    - destruct (send_one_command env off st0) as (Ho1 & H1). cbv zeta in Ho1, H1.
      unfold bind.
      destruct (HardwareInterface.send_commands env [off] st0) as [r1 st1].
      cbn [fst snd] in Ho1, H1.
      destruct H1 as [[-> Hs1] | [-> Hs1]]; cbn [fst snd].
      + destruct (send_one_command env on st1) as (Ho2 & H2). cbv zeta in Ho2, H2.
        destruct (HardwareInterface.send_commands env [on] st1) as [r2 st2].
        cbn [fst snd] in Ho2, H2 |- *.
        change (sent st0) with (sent st) in Hs1.
        destruct H2 as [[-> Hs2] | [-> [Hs2 | Hs2]]]; rewrite Hs2, Hs1.
        * split; [|split; [discriminate|]].
          -- right. right. rewrite <- app_assoc, drop_app_length. reflexivity.
          -- intros _ _. now rewrite <- app_assoc.
        * split; [|split; discriminate].
          right. left. now rewrite drop_app_length.
        * split; [|split; discriminate].
          right. left. rewrite <- app_assoc, drop_app_length. reflexivity.
      + change (sent st0) with (sent st) in Hs1.
        split; [|split; discriminate].
        left. destruct Hs1 as [-> | ->].
        * now rewrite drop_all.
        * now rewrite drop_app_length.
    - change (sent (snd (ret tt st0))) with (sent st). rewrite drop_all.
      split; [now left|]. split; [intros _; split; reflexivity | discriminate]. }
  destruct (serial_link env (serial_opens st)) eqn:Hlink.
  - destruct (Hbody false) as (H1 & H2 & _).
    split; [exact H1|]. split; [intros _; now apply H2 | intros H; now contradiction H].
  - destruct (Hbody true) as (H1 & _ & H3).
    split; [exact H1|]. split; [discriminate | intros _; now apply H3].
  - destruct (Hbody true) as (H1 & _ & H3).
    split; [exact H1|]. split; [discriminate | intros _; now apply H3].
Qed.

Lemma power_cycle_order_witness :
  serial_link (steady_env 0) (serial_opens initial_state) <> PortUnavailable /\
  fst (ArrayController.power_cycle example_catalog (steady_env 0) initial_state) = Py.Ok tt /\
  sent (snd (ArrayController.power_cycle example_catalog (steady_env 0) initial_state))
  = sent initial_state
    ++ [[SystemMessages.get_power_command example_catalog false];
        [SystemMessages.get_power_command example_catalog true]].
Proof.
  assert (serial_link (steady_env 0) (serial_opens initial_state) <> PortUnavailable)
    as Hlink by discriminate.
  assert (fst (ArrayController.power_cycle example_catalog (steady_env 0) initial_state)
          = Py.Ok tt) as Hrun by reflexivity.
  split; [exact Hlink|]. split; [exact Hrun|].
  exact (proj2 (proj2 (power_cycle_order example_catalog (steady_env 0) initial_state))
           Hlink Hrun).
Defined.

(** ** SweepOrchestrator: what a run asks of the measurement collaborator *)

Lemma window_of_config (cfg : Config) (direction : bool) (phi theta : R) :
  window_within_config cfg (ChamberController._calculate_sweep_angles cfg direction phi theta).
Proof.
  unfold window_within_config, ChamberController._calculate_sweep_angles.
  destruct (SWEEP_BOTH_DIRECTIONS cfg) eqn:Hboth; destruct direction;
    destruct (ELEVATION_PHI_ADJUSTMENT cfg) eqn:Hadj; cbn [andb negb];
    cbn [az_start az_finish el_start el_finish pol_start pol_finish horn_start horn_finish];
    repeat (split; [reflexivity|]);
    (split; [first [left; split; reflexivity | right; repeat split; reflexivity]|]);
    try (split; reflexivity);
    (split; [reflexivity|]); intros Hlimit;
    set (el := (theta * sin (ChamberController.radians phi))%R);
    set (limit := TURN_TABLE_ELV_LIMIT cfg) in *;
    (destruct (Rle_or_lt el limit) as [Hle | Hgt];
     [destruct (Rle_or_lt (- limit) el) as [Hge | Hlt];
      [rewrite clamp_inside by lra | rewrite clamp_below by lra]
     | rewrite clamp_above by lra]); lra.
Qed.

Lemma sweep_and_store_call
    (cfg : Config) (env : Env) (ku_freq l_band_freq phi theta : Z) (st : State) :
  let run :=
    (d <- ChamberController.get_direction_forward ;;
     d' <- ChamberController.perform_sweep cfg env d ku_freq l_band_freq phi theta ;;
     ChamberController.set_direction_forward d') st in
  measured (snd run)
    = measured st
      ++ [call_for cfg env ku_freq l_band_freq (clock_reads st) (direction_forward st)
            (phi, theta)] /\
  fst run = (if chamber_software env (length (measured st))
             then Py.Ok tt else Py.Raise Py.ChamberError) /\
  clock_reads (snd run) = S (clock_reads st) /\
  serial_opens (snd run) = serial_opens st /\
  random_draws (snd run) = random_draws st /\
  sent (snd run) = sent st.
Proof.
  cbv zeta.
  unfold bind, ret, ChamberController.get_direction_forward, ChamberController.perform_sweep,
    ChamberController._run_chamber_sweep, ChamberController._generate_sweep_name,
    ChamberController.strftime_now, ChamberController.set_sweep_name,
    ChamberController.run_sweep_test_swt, ChamberController.set_direction_forward, bind, ret.
  cbn [fst snd sent measured direction_forward clock_reads sweep_name].
  destruct (chamber_software env (length (measured st))); repeat split.
Qed.

Lemma call_for_well_formed
    (cfg : Config) (env : Env) (ku_freq l_band_freq : Z)
    (clock : nat) (direction : bool) (point : Z * Z) :
  well_formed_call cfg env ku_freq l_band_freq
    (call_for cfg env ku_freq l_band_freq clock direction point).
Proof.
  split; [exists clock, (fst point), (snd point); reflexivity|].
  split; [apply window_of_config|]. split; reflexivity.
Qed.

Lemma appends_calm (P : SweepCall -> Prop) {A} (c : M A) : calm c -> appends P c.
Proof.
  intros Hc st. exists []. destruct (Hc st) as [Hm _].
  rewrite Hm, app_nil_r. split; [reflexivity | constructor].
Qed.

Lemma appends_bind (P : SweepCall -> Prop) {A B} (c : M A) (k : A -> M B) :
  appends P c -> (forall a, appends P (k a)) -> appends P (bind c k).
Proof.
  intros Hc Hk st. unfold bind.
  destruct (Hc st) as (calls & Hm & HP).
  destruct (c st) as [[a | e] st1]; cbn [snd] in Hm.
  - destruct (Hk a st1) as (calls' & Hm' & HP').
    exists (calls ++ calls'). rewrite Hm', Hm, app_assoc.
    split; [reflexivity | now apply Forall_app].
  - exists calls. now split.
Qed.

Lemma appends_for_each (P : SweepCall -> Prop) {A} (l : list A) (body : A -> M unit) :
  (forall x, appends P (body x)) -> appends P (for_each l body).
Proof.
  intros Hbody. induction l as [|x l IH]; cbn [for_each].
  - apply appends_calm, calm_ret.
  - apply appends_bind; [apply Hbody | intros _; exact IH].
Qed.

Lemma appends_sweep_point
    (cls : SystemMessages.Catalog) (cfg : Config) (env : Env)
    (ku_freq l_band_freq phi theta : Z) :
  appends (well_formed_call cfg env ku_freq l_band_freq)
    (ChamberController.sweep_point cls cfg env ku_freq l_band_freq phi theta).
Proof.
  unfold ChamberController.sweep_point.
  apply appends_bind; [apply appends_calm, calm_dispatch|].
  intros _ st.
  destruct (sweep_and_store_call cfg env ku_freq l_band_freq phi theta st) as (Hm & _).
  cbv zeta in Hm. eexists. split; [exact Hm|].
  constructor; [apply call_for_well_formed | constructor].
Qed.

(** X15. Whatever the mode, the catalog and the world, and whether the
    run returns or raises, [run_sweep_sequence] only appends to the log of
    measurement requests, and every request it appends carries a sweep name
    generated by [_generate_sweep_name] (never the name the runner was built
    with), the configured save path, [sPar = False], the configured
    polarisation and horn positions, an azimuth window that is the
    configured one or (only with [SWEEP_BOTH_DIRECTIONS]) its negation, and
    an elevation that is the configured one or (with
    [ELEVATION_PHI_ADJUSTMENT]) a single value within the turntable limit. *)
Theorem run_requests_well_formed_measurements
    (cls : SystemMessages.Catalog) (cfg : Config) (env : Env)
    (ku_freq l_band_freq : Z) (st : State) :
  exists calls,
    measured (snd (ChamberController.run_sweep_sequence cls cfg env ku_freq l_band_freq st))
      = measured st ++ calls /\
    Forall (well_formed_call cfg env ku_freq l_band_freq) calls.
Proof.
  revert st.
  change (appends (well_formed_call cfg env ku_freq l_band_freq)
            (ChamberController.run_sweep_sequence cls cfg env ku_freq l_band_freq)).
  unfold ChamberController.run_sweep_sequence.
  apply appends_bind.
  { intros st. rewrite setup_step_without_local. exists [].
    rewrite app_nil_r. split; [reflexivity | constructor]. }
  intros _. apply appends_bind.
  { apply appends_calm, calm_of_quiet.
    unfold ChamberController._select_phi_angles.
    destruct (PHI_RANGE_RANDOM cfg);
      [apply quiet_repeat_collect, quiet_randint | apply quiet_ret]. }
  intros phis. apply appends_for_each. intros phi.
  apply appends_bind.
  { apply appends_calm, calm_of_quiet.
    unfold ChamberController._select_theta_angles.
    destruct (THETA_RANGE_RANDOM cfg);
      [apply quiet_repeat_collect, quiet_randint | apply quiet_ret]. }
  intros thetas. apply appends_for_each. intros theta.
  apply appends_sweep_point.
Qed.

(** X16. A sweep point that raises, in the dispatch or in the
    measurement, leaves the direction flag as it was: the flag is stored only
    when a point completes.  At most one measurement was requested by then. *)
Theorem failed_point_keeps_direction
    (cls : SystemMessages.Catalog) (cfg : Config) (env : Env)
    (ku_freq l_band_freq phi theta : Z) (st : State) :
  fst (ChamberController.sweep_point cls cfg env ku_freq l_band_freq phi theta st)
    <> Py.Ok tt ->
  direction_forward
    (snd (ChamberController.sweep_point cls cfg env ku_freq l_band_freq phi theta st))
    = direction_forward st /\
  (length (measured
             (snd (ChamberController.sweep_point cls cfg env ku_freq l_band_freq phi theta st)))
   <= S (length (measured st)))%nat.
Proof.
  unfold ChamberController.sweep_point.
  destruct (calm_dispatch cls cfg env ku_freq phi theta st) as [Hm Hd].
  destruct ((if String.eqb (ARRAY_INTERFACE cfg) MESSAGE_FORWARDING
             then ArrayController.call_method cls cfg env "control_array"
                    [ku_freq; phi; theta]
             else ArrayController.call_method cls cfg env "control_pose" [phi; theta]) st)
    as [[[] | e] st1] eqn:Hdispatch; cbn [fst snd] in Hm, Hd.
  - rewrite (bind_ok _ _ _ _ _ Hdispatch). intros Hfail.
    destruct (sweep_and_store cfg env ku_freq l_band_freq phi theta st1)
      as (_ & Hlen & _ & Hkeep).
    cbv zeta in Hlen, Hkeep. split.
    + rewrite (Hkeep Hfail). exact Hd.
    + rewrite Hlen, Hm. lia.
  - rewrite (bind_raise _ _ _ _ _ Hdispatch). intros _. cbn [fst snd].
    split; [exact Hd|]. rewrite Hm. lia.
Qed.

Lemma failed_point_keeps_direction_witness :
  fst (ChamberController.sweep_point example_catalog default_config (steady_env 0)
         11600000000 1500000000 0 5 initial_state) <> Py.Ok tt /\
  direction_forward
    (snd (ChamberController.sweep_point example_catalog default_config (steady_env 0)
            11600000000 1500000000 0 5 initial_state))
  = direction_forward initial_state.
Proof.
  assert (fst (ChamberController.sweep_point example_catalog default_config (steady_env 0)
                 11600000000 1500000000 0 5 initial_state) <> Py.Ok tt) as Hfail
    by discriminate.
  split; [exact Hfail|].
  exact (proj1 (failed_point_keeps_direction example_catalog default_config (steady_env 0)
                  11600000000 1500000000 0 5 initial_state Hfail)).
Defined.

(** ** SweepOrchestrator in MessageForwarding mode: the whole run *)

Lemma for_each_app {A} (l1 l2 : list A) (body : A -> M unit) (st : State) :
  for_each (l1 ++ l2) body st = (_ <- for_each l1 body ;; for_each l2 body) st.
Proof.
  revert st. induction l1 as [|x l1 IH]; intros st; cbn [app for_each].
  - reflexivity.
  - unfold bind. destruct (body x st) as [[[] | e] st1]; [|reflexivity].
    rewrite IH. reflexivity.
Qed.

Lemma for_each_map {A B} (g : A -> B) (l : list A) (body : B -> M unit) (st : State) :
  for_each (map g l) body st = for_each l (fun x => body (g x)) st.
Proof.
  revert st. induction l as [|x l IH]; intros st; cbn [map for_each]; [reflexivity|].
  unfold bind. destruct (body (g x) st) as [[[] | e] st1]; [apply IH | reflexivity].
Qed.

Lemma nested_loops_flatten {A B} (xs : list A) (ys : list B) (body : A -> B -> M unit)
    (st : State) :
  for_each xs (fun x => inner <- ret ys ;; for_each inner (body x)) st
  = for_each (list_prod xs ys) (fun point => body (fst point) (snd point)) st.
Proof.
  revert st. induction xs as [|x xs IH]; intros st; cbn [list_prod for_each]; [reflexivity|].
  rewrite for_each_app. unfold bind, ret. cbv beta iota. rewrite for_each_map.
  cbn [fst snd].
  destruct (for_each ys (body x) st) as [[[] | e] st1]; [apply IH | reflexivity].
Qed.

Lemma deterministic_forwarding_run
    (cls : SystemMessages.Catalog) (cfg : Config) (env : Env)
    (ku_freq l_band_freq : Z) (st : State) :
  ARRAY_INTERFACE cfg = MESSAGE_FORWARDING ->
  PHI_RANGE_RANDOM cfg = false ->
  THETA_RANGE_RANDOM cfg = false ->
  ChamberController.run_sweep_sequence cls cfg env ku_freq l_band_freq st
  = for_each (list_prod (PHI_RANGE cfg) (THETA_RANGE cfg))
      (fun point =>
         ChamberController.sweep_point cls cfg env ku_freq l_band_freq (fst point) (snd point))
      st.
Proof.
  intros Hmode Hphi Htheta.
  unfold ChamberController.run_sweep_sequence, ChamberController._select_phi_angles,
    ChamberController._select_theta_angles.
  rewrite Hmode, Hphi, Htheta.
  change (String.eqb MESSAGE_FORWARDING POINTING_GENERATOR) with false. cbv iota.
  rewrite <- nested_loops_flatten. reflexivity.
Qed.




(** X18. In MessageForwarding mode with both angle ranges taken from the
    configuration and not empty, and a pose template that can be formatted:
    if the serial port cannot be opened for the first dispatch, the run
    raises [SerialException] at once; nothing is written and the measurement
    collaborator is not invoked. *)
Theorem unreachable_link_aborts_run
    (cls : SystemMessages.Catalog) (cfg : Config) (env : Env)
    (ku_freq l_band_freq : Z) (st : State) :
  ARRAY_INTERFACE cfg = MESSAGE_FORWARDING ->
  PHI_RANGE_RANDOM cfg = false ->
  THETA_RANGE_RANDOM cfg = false ->
  PHI_RANGE cfg <> [] ->
  THETA_RANGE cfg <> [] ->
  (forall pitch, exists commands, SystemMessages.get_pose_commands cls pitch = Py.Ok commands) ->
  serial_link env (serial_opens st) = PortUnavailable ->
  fst (ChamberController.run_sweep_sequence cls cfg env ku_freq l_band_freq st)
    = Py.Raise Py.SerialException /\
  sent (snd (ChamberController.run_sweep_sequence cls cfg env ku_freq l_band_freq st))
    = sent st /\
  measured (snd (ChamberController.run_sweep_sequence cls cfg env ku_freq l_band_freq st))
    = measured st.
Proof.
  intros Hmode Hphi Htheta Hphis Hthetas Hpose Hdown.
  rewrite (deterministic_forwarding_run cls cfg env ku_freq l_band_freq st Hmode Hphi Htheta).
  destruct (PHI_RANGE cfg) as [|phi phis]; [now contradiction Hphis|].
  destruct (THETA_RANGE cfg) as [|theta thetas]; [now contradiction Hthetas|].
  cbn [list_prod map app for_each fst snd].
  assert (ARRAY_INTERFACE cfg <> LOCAL) as Hlocal by (rewrite Hmode; discriminate).
  destruct (Hpose (if (90 <? phi)%Z then theta else (360 - theta)%Z)) as [batch Hbatch].
  assert (ChamberController.sweep_point cls cfg env ku_freq l_band_freq phi theta st
          = (Py.Raise Py.SerialException,
             {| random_draws := random_draws st;
                clock_reads := clock_reads st;
                serial_opens := S (serial_opens st);
                sent := sent st;
                measured := measured st;
                direction_forward := direction_forward st;
                sweep_name := sweep_name st |})) as Hpoint.
  { unfold ChamberController.sweep_point.
    rewrite Hmode. change (String.eqb MESSAGE_FORWARDING MESSAGE_FORWARDING) with true.
    cbv iota. rewrite call_control_array, (control_array_forwards_to_pose _ _ _ _ _ _ Hlocal).
    unfold ArrayController._control_pose.
    apply bind_raise.
    rewrite (bind_ok _ _ st st batch) by (unfold lift; now rewrite Hbatch).
    unfold HardwareInterface.send_commands. now rewrite Hdown. }
  rewrite (bind_raise _ _ _ _ _ Hpoint). repeat split.
Qed.

Lemma example_pose_commands_return (pitch : Z) :
  exists commands, SystemMessages.get_pose_commands example_catalog pitch = Py.Ok commands.
Proof.
  exists ["pose 0 " ++ Py.str_int pitch ++ " 0 0 0"; "point"]%string.
  reflexivity.
Qed.


Lemma unreachable_link_aborts_run_witness :
  ARRAY_INTERFACE (configured MESSAGE_FORWARDING true false false false) = MESSAGE_FORWARDING /\
  PHI_RANGE (configured MESSAGE_FORWARDING true false false false) <> [] /\
  THETA_RANGE (configured MESSAGE_FORWARDING true false false false) <> [] /\
  serial_link unplugged_env (serial_opens initial_state) = PortUnavailable /\
  fst (ChamberController.run_sweep_sequence example_catalog
         (configured MESSAGE_FORWARDING true false false false) unplugged_env
         11600000000 1500000000 initial_state) = Py.Raise Py.SerialException.
Proof.
  assert (PHI_RANGE (configured MESSAGE_FORWARDING true false false false) <> []) as Hphi
    by discriminate.
  assert (THETA_RANGE (configured MESSAGE_FORWARDING true false false false) <> []) as Htheta
    by discriminate.
  split; [reflexivity|]. split; [exact Hphi|]. split; [exact Htheta|].
  split; [reflexivity|].
  exact (proj1 (unreachable_link_aborts_run example_catalog
                  (configured MESSAGE_FORWARDING true false false false) unplugged_env
                  11600000000 1500000000 initial_state eq_refl eq_refl eq_refl
                  Hphi Htheta example_pose_commands_return eq_refl)).
Defined.

(** ** NamingService: names tell points apart *)

Lemma to_int_not_nil (z : Z) :
  Z.to_int z <> Decimal.Pos Decimal.Nil /\ Z.to_int z <> Decimal.Neg Decimal.Nil.
Proof.
  destruct z as [|p|p]; cbn [Z.to_int]; split; try discriminate;
    intros [= H]; now apply DecimalPos.Unsigned.to_uint_nonnil in H.
Qed.

Lemma str_int_injective (z z' : Z) : Py.str_int z = Py.str_int z' -> z = z'.
Proof.
  unfold Py.str_int. intros Heq.
  destruct (to_int_not_nil z) as [Hp Hn]. destruct (to_int_not_nil z') as [Hp' Hn'].
  pose proof (NilZero.isi (Z.to_int z) Hp Hn) as H.
  pose proof (NilZero.isi (Z.to_int z') Hp' Hn') as H'.
  rewrite Heq, H' in H. injection H as H.
  rewrite <- (DecimalZ.of_to z), <- (DecimalZ.of_to z'). now rewrite H.
Qed.

Lemma uint_string_has_no_underscore (d : Decimal.uint) :
  ~ occurs "_" (NilEmpty.string_of_uint d).
Proof.
  induction d; cbn [NilEmpty.string_of_uint occurs]; intros H;
    try (destruct H as [H | H]; [discriminate H | now apply IHd]).
  exact H.
Qed.

Lemma uint_string_has_no_dot (d : Decimal.uint) :
  ~ occurs "." (NilEmpty.string_of_uint d).
Proof.
  induction d; cbn [NilEmpty.string_of_uint occurs]; intros H;
    try (destruct H as [H | H]; [discriminate H | now apply IHd]).
  exact H.
Qed.

Lemma str_int_has_no_underscore_or_dot (z : Z) :
  ~ occurs "_" (Py.str_int z) /\ ~ occurs "." (Py.str_int z).
Proof.
  unfold Py.str_int.
  assert (forall d, ~ occurs "_" (NilZero.string_of_uint d) /\
                    ~ occurs "." (NilZero.string_of_uint d)) as Huint.
  { intros d. destruct d;
      try (split; [apply uint_string_has_no_underscore | apply uint_string_has_no_dot]).
    split; cbn [NilZero.string_of_uint occurs]; intros [H | []]; discriminate H. }
  destruct (Z.to_int z) as [d | d]; cbn [NilZero.string_of_int]; [apply Huint|].
  destruct (Huint d) as [H1 H2].
  split; cbn [occurs]; intros [H | H]; try discriminate H; auto.
Qed.

Lemma replace_without_occurrence (old new : ascii) (s : string) :
  ~ occurs old s -> Py.replace old new s = s.
Proof.
  induction s as [|c s IH]; cbn [Py.replace occurs]; intros H; [reflexivity|].
  destruct (Ascii.eqb_spec c old) as [-> | Hne].
  - contradiction H. now left.
  - f_equal. apply IH. intros Hs. apply H. now right.
Qed.

Lemma append_cancel_left (a b c : string) : (a ++ b = a ++ c)%string -> b = c.
Proof.
  induction a as [|x a IH]; cbn [append]; intros H; [exact H|].
  injection H as H. now apply IH.
Qed.

Lemma split_at_separator (u : ascii) (p p' r r' : string) :
  ~ occurs u p -> ~ occurs u p' ->
  (p ++ String u r = p' ++ String u r')%string -> p = p' /\ r = r'.
Proof.
  revert p'. induction p as [|c p IH]; intros [|c' p'] Hp Hp' H; cbn [append] in H.
  - injection H as H. now split.
  - injection H as Hc _. contradiction Hp'. cbn [occurs]. now left.
  - injection H as Hc _. contradiction Hp. cbn [occurs]. left. now symmetry.
  - injection H as Hc H. subst c'.
    destruct (IH p') as [-> ->]; [| |exact H|now split].
    + intros Ho. apply Hp. cbn [occurs]. now right.
    + intros Ho. apply Hp'. cbn [occurs]. now right.
Qed.

(** X19. Sweep names tell points apart even within one second: two
    calls of [_generate_sweep_name] under the same configuration that read
    the same timestamp and get the same frequencies return the same name only
    if they were given the same phi and the same theta. *)
Theorem sweep_names_tell_points_apart
    (cfg : Config) (env1 env2 : Env) (st1 st2 : State)
    (ku_freq l_band_freq phi theta phi' theta' : Z) :
  wall_clock env1 (clock_reads st1) = wall_clock env2 (clock_reads st2) ->
  fst (ChamberController._generate_sweep_name cfg env1 ku_freq l_band_freq phi theta st1)
  = fst (ChamberController._generate_sweep_name cfg env2 ku_freq l_band_freq phi' theta' st2) ->
  phi = phi' /\ theta = theta'.
Proof.
  intros Hclock.
  unfold ChamberController._generate_sweep_name, bind, ret, ChamberController.strftime_now.
  cbn [fst]. rewrite Hclock. intros [= H].
  do 13 apply append_cancel_left in H.
  destruct (str_int_has_no_underscore_or_dot phi) as [Hu Hd].
  destruct (str_int_has_no_underscore_or_dot phi') as [Hu' Hd'].
  destruct (str_int_has_no_underscore_or_dot theta) as [_ Ht].
  destruct (str_int_has_no_underscore_or_dot theta') as [_ Ht'].
  rewrite !(replace_without_occurrence "." "_" _ Hd),
          !(replace_without_occurrence "." "_" _ Hd'),
          !(replace_without_occurrence "." "_" _ Ht),
          !(replace_without_occurrence "." "_" _ Ht') in H.
  change ("_" ++ "Theta_" ++ Py.str_int theta)%string
    with (String "_" ("Theta_" ++ Py.str_int theta))%string in H.
  change ("_" ++ "Theta_" ++ Py.str_int theta')%string
    with (String "_" ("Theta_" ++ Py.str_int theta'))%string in H.
  apply split_at_separator in H as [Hphi Htheta]; [|assumption|assumption].
  apply append_cancel_left in Htheta.
  split; now apply str_int_injective.
Qed.

Lemma sweep_names_tell_points_apart_witness :
  wall_clock (steady_env 0) (clock_reads initial_state)
    = wall_clock (steady_env 0) (clock_reads initial_state) /\
  fst (ChamberController._generate_sweep_name default_config (steady_env 0)
         11600000000 1500000000 1 80 initial_state)
  <> fst (ChamberController._generate_sweep_name default_config (steady_env 0)
            11600000000 1500000000 18 0 initial_state).
Proof.
  split; [reflexivity|].
  intros H.
  apply (sweep_names_tell_points_apart default_config (steady_env 0) (steady_env 0)
           initial_state initial_state 11600000000 1500000000 1 80 18 0 eq_refl) in H.
  destruct H as [H _]. discriminate H.
Defined.

(** ** Patch layout: positions and labels *)

Lemma update_same (store : PatchLayout.Store) (r : PatchLayout.ref)
    (f : PatchLayout.Patch -> PatchLayout.Patch) :
  PatchLayout.update store r f r = f (store r).
Proof. unfold PatchLayout.update. now rewrite Nat.eqb_refl. Qed.

Lemma update_other (store : PatchLayout.Store) (r r' : PatchLayout.ref)
    (f : PatchLayout.Patch -> PatchLayout.Patch) :
  r' <> r -> PatchLayout.update store r f r' = store r'.
Proof.
  intros Hne. unfold PatchLayout.update.
  destruct (Nat.eqb_spec r' r) as [Heq | _]; [contradiction | reflexivity].
Qed.

Lemma patch_at_refs (refs : list PatchLayout.ref) (i : Z) :
  (0 <= i < Z.of_nat (length refs))%Z ->
  exists r, refs !! Z.to_nat i = Some r /\
            PatchLayout.patch_at (Some <$> refs) i = Py.Ok r.
Proof.
  intros Hi.
  destruct (lookup_lt_is_Some_2 refs (Z.to_nat i) ltac:(lia)) as [r Hr].
  exists r. split; [exact Hr|].
  unfold PatchLayout.patch_at.
  rewrite <- (Z2Nat.id i) by lia.
  rewrite (getitem_at (Some <$> refs) (Z.to_nat i) (Some r)).
  - reflexivity.
  - now rewrite list_lookup_fmap, Hr.
Qed.

Lemma patch_at_beyond (refs : list PatchLayout.ref) (i : Z) :
  (Z.of_nat (length refs) <= i)%Z ->
  PatchLayout.patch_at (Some <$> refs) i = Py.Raise Py.IndexError.
Proof.
  intros Hi. unfold PatchLayout.patch_at.
  destruct (getitem_outcome (Some <$> refs) i) as [(a & _ & Hrange) | ->]; [|reflexivity].
  rewrite length_fmap in Hrange. lia.
Qed.

Lemma letter_within (i : Z) :
  (0 <= i < 26)%Z -> exists l, PatchLayout.letter i = Py.Ok l.
Proof.
  intros Hi. unfold PatchLayout.letter.
  destruct (lookup_lt_is_Some_2 (list_ascii_of_string PatchLayout.alphabet) (Z.to_nat i))
    as [c Hc].
  { change (length (list_ascii_of_string PatchLayout.alphabet)) with 26%nat. lia. }
  exists (String c EmptyString).
  rewrite <- (Z2Nat.id i) by lia.
  now rewrite (getitem_at _ _ _ Hc).
Qed.

Lemma letter_beyond (i : Z) :
  (26 <= i)%Z -> PatchLayout.letter i = Py.Raise Py.IndexError.
Proof.
  intros Hi. unfold PatchLayout.letter.
  destruct (getitem_outcome (list_ascii_of_string PatchLayout.alphabet) i)
    as [(a & _ & Hrange) | ->]; [|reflexivity].
  change (length (list_ascii_of_string PatchLayout.alphabet)) with 26%nat in Hrange. lia.
Qed.

Lemma range_from_zero_lookup (stop : Z) (k : nat) (y : Z) :
  Py.range 0 stop 1 !! k = Some y -> y = Z.of_nat k.
Proof.
  rewrite range_from_zero, list_lookup_fmap.
  destruct (seq 0 (Z.to_nat stop) !! k) as [j|] eqn:E; [|discriminate].
  apply lookup_seq in E as [-> _]. cbn. now intros [= <-].
Qed.

Lemma range_from_zero_NoDup (stop : Z) : NoDup (Py.range 0 stop 1).
Proof.
  rewrite range_from_zero. apply NoDup_fmap_2; [|apply NoDup_seq].
  intros a b. lia.
Qed.

Lemma cells_of_grid_differ (ny x y x' y' : Z) :
  (0 <= y < ny)%Z -> (0 <= y' < ny)%Z ->
  (y + ny * x = y' + ny * x')%Z -> x = x' /\ y = y'.
Proof.
  intros Hy Hy' Heq.
  assert (x = x') as ->; [|split; [reflexivity | lia]].
  destruct (Z.lt_trichotomy x x') as [Hlt | [-> | Hgt]]; [|reflexivity|]; nia.
Qed.

Section Layout.
Variable pos : PatchLayout.PhasedArrayPos.
Variables ny spacing : Z.
Variable refs : list PatchLayout.ref.
Hypothesis refs_distinct : NoDup refs.

(** The inner loop on distinct patches: every visited cell gets both
    coordinates and its letter, nothing else changes. *)
Lemma translate_column_lays_out (x patch_x_offset : Z) :
  forall (ys : list Z) (patch_y_offset : Z) (store : PatchLayout.Store),
    NoDup ys ->
    (forall y, In y ys -> (0 <= y + ny * x < 26)%Z /\
                          (y + ny * x < Z.of_nat (length refs))%Z) ->
    exists store',
      PatchLayout.translate_column ny spacing x patch_x_offset (Some <$> refs)
        ys patch_y_offset store = (Py.Ok tt, store') /\
      (forall r, (forall y, In y ys -> refs !! Z.to_nat (y + ny * x) <> Some r) ->
                 store' r = store r) /\
      (forall k y r, ys !! k = Some y -> refs !! Z.to_nat (y + ny * x) = Some r ->
         exists l, PatchLayout.letter (y + ny * x) = Py.Ok l /\
                   store' r = PatchLayout.set_label l
                                (PatchLayout.set_pose "t_y"
                                   (patch_y_offset + Z.of_nat k * spacing)%Z
                                   (PatchLayout.set_pose "t_x" patch_x_offset (store r)))).
Proof.
  induction ys as [|y rest IH]; intros patch_y_offset store Hnd Hvalid.
  - exists store. split; [reflexivity|]. split; [reflexivity|].
    intros k y r Hk. discriminate Hk.
  - apply NoDup_cons in Hnd as [Hfresh Hnd].
    rewrite list_elem_of_In in Hfresh.
    destruct (Hvalid y ltac:(now left)) as [Hi Hlen].
    destruct (patch_at_refs refs (y + ny * x) ltac:(lia)) as (r0 & Hr0 & Hat).
    destruct (letter_within (y + ny * x) Hi) as [l0 Hl0].
    cbn [PatchLayout.translate_column]. rewrite Hat, Hl0.
    set (store3 := PatchLayout.update _ r0 (PatchLayout.set_label l0)).
    destruct (IH (patch_y_offset + spacing)%Z store3 Hnd
                 (fun y' Hy' => Hvalid y' (or_intror Hy')))
      as (store' & Hrun & Hkeep & Hset).
    assert (forall y', In y' rest -> refs !! Z.to_nat (y' + ny * x) <> Some r0) as Hother.
    { intros y' Hy' Hr.
      pose proof (NoDup_lookup refs _ _ r0 refs_distinct Hr Hr0) as Heq.
      destruct (Hvalid y' (or_intror Hy')) as [Hi' _].
      assert (y' = y) as -> by lia. contradiction. }
    assert (store3 r0 = PatchLayout.set_label l0
                          (PatchLayout.set_pose "t_y" patch_y_offset
                             (PatchLayout.set_pose "t_x" patch_x_offset (store r0)))) as H3.
    { unfold store3. now rewrite !update_same. }
    assert (forall r, r <> r0 -> store3 r = store r) as H3'.
    { intros r Hne. unfold store3. now rewrite !update_other. }
    exists store'. split; [exact Hrun|]. split.
    + intros r Hr. rewrite Hkeep by (intros y' Hy'; apply Hr; now right).
      apply H3'. intros ->. exact (Hr y (or_introl eq_refl) Hr0).
    + intros [|k] y' r Hk Hr.
      * cbn in Hk. injection Hk as <-.
        rewrite Hr0 in Hr. injection Hr as <-.
        exists l0. split; [exact Hl0|].
        rewrite (Hkeep r0 Hother), H3.
        now replace (patch_y_offset + Z.of_nat 0 * spacing)%Z with patch_y_offset by lia.
      * cbn in Hk.
        destruct (Hset k y' r Hk Hr) as (l & Hl & Hstore).
        exists l. split; [exact Hl|].
        rewrite Hstore, H3'.
        -- now replace (patch_y_offset + spacing + Z.of_nat k * spacing)%Z
             with (patch_y_offset + Z.of_nat (S k) * spacing)%Z by lia.
        -- intros ->. apply (Hother y'); [|exact Hr].
           eapply list_elem_of_In, list_elem_of_lookup_2, Hk.
Qed.

(** The outer loop on distinct patches. *)
Lemma translate_columns_lays_out (array_y_offset : Z) :
  forall (xs : list Z) (patch_x_offset : Z) (store : PatchLayout.Store),
    NoDup xs ->
    (forall x y, In x xs -> (0 <= y < ny)%Z ->
       (0 <= y + ny * x < 26)%Z /\ (y + ny * x < Z.of_nat (length refs))%Z) ->
    exists store',
      PatchLayout.translate_columns ny spacing array_y_offset (Some <$> refs)
        xs patch_x_offset store = (Py.Ok tt, store') /\
      (forall r, (forall x y, In x xs -> (0 <= y < ny)%Z ->
                    refs !! Z.to_nat (y + ny * x) <> Some r) ->
                 store' r = store r) /\
      (forall k x y r, xs !! k = Some x -> (0 <= y < ny)%Z ->
         refs !! Z.to_nat (y + ny * x) = Some r ->
         exists l, PatchLayout.letter (y + ny * x) = Py.Ok l /\
                   store' r = PatchLayout.set_label l
                                (PatchLayout.set_pose "t_y" (array_y_offset + y * spacing)%Z
                                   (PatchLayout.set_pose "t_x"
                                      (patch_x_offset + Z.of_nat k * spacing)%Z (store r)))).
Proof.
  induction xs as [|x rest IH]; intros patch_x_offset store Hnd Hvalid.
  - exists store. split; [reflexivity|]. split; [reflexivity|].
    intros k x y r Hk. discriminate Hk.
  - apply NoDup_cons in Hnd as [Hfresh Hnd].
    rewrite list_elem_of_In in Hfresh.
    destruct (translate_column_lays_out x patch_x_offset (Py.range 0 ny 1)
                array_y_offset store (range_from_zero_NoDup ny))
      as (store1 & Hcol & Hkeep1 & Hset1).
    { intros y Hy. apply in_range_from_zero in Hy. apply Hvalid; [now left | exact Hy]. }
    destruct (IH (patch_x_offset + spacing)%Z store1 Hnd
                 (fun x' y Hx' Hy => Hvalid x' y (or_intror Hx') Hy))
      as (store' & Hrun & Hkeep & Hset).
    cbn [PatchLayout.translate_columns]. rewrite Hcol.
    assert (forall x' y y' r, In x' rest -> (0 <= y < ny)%Z -> (0 <= y' < ny)%Z ->
              refs !! Z.to_nat (y + ny * x) = Some r ->
              refs !! Z.to_nat (y' + ny * x') = Some r -> False) as Hother.
    { intros x' y y' r Hx' Hy Hy' Hr Hr'.
      pose proof (NoDup_lookup refs _ _ r refs_distinct Hr Hr') as Heq.
      destruct (Hvalid x y (or_introl eq_refl) Hy) as [Hi _].
      destruct (Hvalid x' y' (or_intror Hx') Hy') as [Hi' _].
      destruct (cells_of_grid_differ ny x y x' y' Hy Hy' ltac:(lia)) as [-> _].
      contradiction. }
    exists store'. split; [exact Hrun|]. split.
    + intros r Hr. rewrite Hkeep by (intros x' y Hx' Hy; apply Hr; [now right | exact Hy]).
      apply Hkeep1. intros y Hy. apply Hr; [now left | now apply in_range_from_zero].
    + intros [|k] x' y r Hk Hy Hr.
      * cbn in Hk. injection Hk as <-.
        assert (In y (Py.range 0 ny 1)) as Hin by now apply in_range_from_zero.
        apply list_elem_of_In, list_elem_of_lookup_1 in Hin as [j Hj].
        pose proof (range_from_zero_lookup ny j y Hj) as Hyj.
        destruct (Hset1 j y r Hj Hr) as (l & Hl & Hstore).
        exists l. split; [exact Hl|].
        rewrite Hkeep.
        -- rewrite Hstore, <- Hyj.
           now replace (patch_x_offset + Z.of_nat 0 * spacing)%Z with patch_x_offset by lia.
        -- intros x' y' Hx' Hy' Hr'. exact (Hother x' y y' r Hx' Hy Hy' Hr Hr').
      * cbn in Hk.
        destruct (Hset k x' y r Hk Hy Hr) as (l & Hl & Hstore).
        exists l. split; [exact Hl|].
        rewrite Hstore, Hkeep1.
        -- now replace (patch_x_offset + spacing + Z.of_nat k * spacing)%Z
             with (patch_x_offset + Z.of_nat (S k) * spacing)%Z by lia.
        -- intros y' Hy' Hr'. apply in_range_from_zero in Hy'.
           apply (Hother x' y' y r); try assumption.
           eapply list_elem_of_In, list_elem_of_lookup_2, Hk.
Qed.

(** X20. [patch_translation] on a list of distinct patches that is long
    enough for an [nx] x [ny] grid of at most 26 cells returns ['R2_OK'];
    afterwards the patch in cell [y + ny * x] has
    [pose['t_x'] = column + x * spacing], [pose['t_y'] = row + y * spacing]
    and the label [alphabet[y + ny * x]], and every patch outside the grid
    is as it was. *)
Theorem patch_translation_lays_out_grid (nx : Z) (store : PatchLayout.Store) :
  (nx * ny <= 26)%Z ->
  (nx * ny <= Z.of_nat (length refs))%Z ->
  exists store',
    PatchLayout.patch_translation pos nx ny spacing (Some <$> refs) store
    = (Py.Ok "R2_OK"%string, store') /\
    (forall x y r, (0 <= x < nx)%Z -> (0 <= y < ny)%Z ->
       refs !! Z.to_nat (y + ny * x) = Some r ->
       exists l, PatchLayout.letter (y + ny * x) = Py.Ok l /\
                 store' r = laid_out pos spacing x y l (store r)) /\
    (forall r, (forall x y, (0 <= x < nx)%Z -> (0 <= y < ny)%Z ->
                  refs !! Z.to_nat (y + ny * x) <> Some r) ->
               store' r = store r).
Proof.
  intros Hletters Hlen.
  destruct (translate_columns_lays_out
              (PatchLayout.row pos * PatchLayout.PROJECT_ARRAY_PATCH_SPACING
               * PatchLayout.PROJECT_ARRAY_NUMBER_OF_PATCHES_Y)%Z
              (Py.range 0 nx 1)
              (PatchLayout.column pos * PatchLayout.PROJECT_ARRAY_PATCH_SPACING
               * PatchLayout.PROJECT_ARRAY_NUMBER_OF_PATCHES_X)%Z
              store (range_from_zero_NoDup nx))
    as (store' & Hrun & Hkeep & Hset).
  { intros x y Hx Hy. apply in_range_from_zero in Hx. nia. }
  exists store'. split; [|split].
  - unfold PatchLayout.patch_translation. now rewrite Hrun.
  - intros x y r Hx Hy Hr.
    assert (In x (Py.range 0 nx 1)) as Hin by now apply in_range_from_zero.
    apply list_elem_of_In, list_elem_of_lookup_1 in Hin as [k Hk].
    pose proof (range_from_zero_lookup nx k x Hk) as Hxk.
    destruct (Hset k x y r Hk Hy Hr) as (l & Hl & Hstore).
    exists l. split; [exact Hl|].
    rewrite Hstore, <- Hxk. unfold laid_out.
    unfold PatchLayout.PROJECT_ARRAY_PATCH_SPACING,
      PatchLayout.PROJECT_ARRAY_NUMBER_OF_PATCHES_X,
      PatchLayout.PROJECT_ARRAY_NUMBER_OF_PATCHES_Y.
    now rewrite !Z.mul_1_r.
  - intros r Hr. apply Hkeep. intros x y Hx Hy.
    apply Hr; [now apply in_range_from_zero | exact Hy].
Qed.

End Layout.

Lemma patch_translation_lays_out_grid_witness :
  NoDup six_patches /\
  (2 * 3 <= 26)%Z /\
  (2 * 3 <= Z.of_nat (length six_patches))%Z /\
  exists store',
    PatchLayout.patch_translation {| PatchLayout.column := 1; PatchLayout.row := 1 |}
      2 3 10 (Some <$> six_patches) fresh_store
    = (Py.Ok "R2_OK"%string, store') /\
    (forall x y r, (0 <= x < 2)%Z -> (0 <= y < 3)%Z ->
       six_patches !! Z.to_nat (y + 3 * x) = Some r ->
       exists l, PatchLayout.letter (y + 3 * x) = Py.Ok l /\
                 store' r = laid_out {| PatchLayout.column := 1; PatchLayout.row := 1 |}
                              10 x y l (fresh_store r)) /\
    (forall r, (forall x y, (0 <= x < 2)%Z -> (0 <= y < 3)%Z ->
                  six_patches !! Z.to_nat (y + 3 * x) <> Some r) ->
               store' r = fresh_store r).
Proof.
  assert (NoDup six_patches) as Hnd.
  { unfold six_patches. repeat (apply NoDup_cons_2; [rewrite list_elem_of_In; cbn; lia|]).
    apply NoDup_nil_2. }
  assert (2 * 3 <= 26)%Z as H26 by lia.
  assert (2 * 3 <= Z.of_nat (length six_patches))%Z as Hlen by (cbn; lia).
  split; [exact Hnd|]. split; [exact H26|]. split; [exact Hlen|].
  exact (patch_translation_lays_out_grid
           {| PatchLayout.column := 1; PatchLayout.row := 1 |} 3 10 six_patches Hnd
           2 fresh_store H26 Hlen).
Defined.

Example patch_translation_2x3 :
  exists store',
    PatchLayout.patch_translation {| PatchLayout.column := 1; PatchLayout.row := 1 |}
      2 3 10 (Some <$> six_patches) fresh_store
    = (Py.Ok "R2_OK"%string, store') /\
    PatchLayout.label (store' 4%nat) = Some "E"%string /\
    PatchLayout.pose (store' 4%nat) !! "t_x"%string = Some 11%Z /\
    PatchLayout.pose (store' 4%nat) !! "t_y"%string = Some 11%Z /\
    PatchLayout.label (store' 6%nat) = None.
Proof.
  eexists. split; [reflexivity|].
  repeat split; vm_compute; reflexivity.
Qed.

Section LayoutOutcome.
Variables ny spacing : Z.
Variable refs : list PatchLayout.ref.

(** Whether the inner and the outer loop of [patch_translation] return
    depends only on the indices they visit: each must be below 26 and inside
    the list. *)
Lemma translate_column_outcome (x patch_x_offset : Z) :
  forall (ys : list Z) (patch_y_offset : Z) (store : PatchLayout.Store),
    (forall y, In y ys -> (0 <= y + ny * x)%Z) ->
    fst (PatchLayout.translate_column ny spacing x patch_x_offset (Some <$> refs)
           ys patch_y_offset store)
    = if forallb (fun y => (y + ny * x <? Z.min 26 (Z.of_nat (length refs)))%Z) ys
      then Py.Ok tt else Py.Raise Py.IndexError.
Proof.
  induction ys as [|y rest IH]; intros patch_y_offset store Hpos; [reflexivity|].
  pose proof (Hpos y (or_introl eq_refl)) as Hi.
  cbn [PatchLayout.translate_column forallb].
  destruct (Z.ltb_spec (y + ny * x) (Z.min 26 (Z.of_nat (length refs)))) as [Hlt | Hge].
  - destruct (patch_at_refs refs (y + ny * x) ltac:(lia)) as (r0 & _ & ->).
    destruct (letter_within (y + ny * x) ltac:(lia)) as [l0 ->].
    cbn [andb]. apply IH. intros y' Hy'. apply Hpos. now right.
  - cbn [andb].
    destruct (Z.lt_ge_cases (y + ny * x) (Z.of_nat (length refs))) as [Hin | Hout].
    + destruct (patch_at_refs refs (y + ny * x) ltac:(lia)) as (r0 & _ & ->).
      rewrite letter_beyond by lia. reflexivity.
    + rewrite patch_at_beyond by lia. reflexivity.
Qed.

Lemma translate_columns_outcome (array_y_offset : Z) :
  forall (xs : list Z) (patch_x_offset : Z) (store : PatchLayout.Store),
    (0 <= ny)%Z ->
    (forall x, In x xs -> (0 <= x)%Z) ->
    fst (PatchLayout.translate_columns ny spacing array_y_offset (Some <$> refs)
           xs patch_x_offset store)
    = if forallb (fun x =>
                    forallb (fun y => (y + ny * x <? Z.min 26 (Z.of_nat (length refs)))%Z)
                      (Py.range 0 ny 1)) xs
      then Py.Ok tt else Py.Raise Py.IndexError.
Proof.
  induction xs as [|x rest IH]; intros patch_x_offset store Hny Hpos; [reflexivity|].
  pose proof (Hpos x (or_introl eq_refl)) as Hx.
  cbn [PatchLayout.translate_columns forallb].
  pose proof (translate_column_outcome x patch_x_offset (Py.range 0 ny 1)
                array_y_offset store) as Hcol.
  destruct (PatchLayout.translate_column ny spacing x patch_x_offset (Some <$> refs)
              (Py.range 0 ny 1) array_y_offset store) as [res store1].
  cbn [fst] in Hcol. rewrite Hcol.
  - destruct (forallb _ (Py.range 0 ny 1)); cbn [andb]; [|reflexivity].
    apply IH; [exact Hny|]. intros x' Hx'. apply Hpos. now right.
  - intros y Hy. apply in_range_from_zero in Hy. nia.
Qed.

(** X21. On a list whose cells all hold patches, and for a grid with at
    least one row and one column, [patch_translation] returns ['R2_OK'] when
    the grid has at most 26 cells and at most as many cells as the list, and
    raises [IndexError] otherwise: the alphabet has 26 letters. *)
Theorem patch_translation_needs_letters_and_patches
    (pos : PatchLayout.PhasedArrayPos) (nx : Z) (store : PatchLayout.Store) :
  (1 <= nx)%Z -> (1 <= ny)%Z ->
  ((nx * ny <= 26)%Z /\ (nx * ny <= Z.of_nat (length refs))%Z ->
   fst (PatchLayout.patch_translation pos nx ny spacing (Some <$> refs) store)
   = Py.Ok "R2_OK"%string) /\
  ((26 < nx * ny)%Z \/ (Z.of_nat (length refs) < nx * ny)%Z ->
   fst (PatchLayout.patch_translation pos nx ny spacing (Some <$> refs) store)
   = Py.Raise Py.IndexError).
Proof.
  intros Hnx Hny.
  unfold PatchLayout.patch_translation.
  match goal with
  | |- context [PatchLayout.translate_columns ?a ?b ?c ?d ?e ?f ?g] =>
      pose proof (translate_columns_outcome c e f g ltac:(lia)) as Hrun;
      destruct (PatchLayout.translate_columns a b c d e f g) as [res store1]
  end.
  cbn [fst] in Hrun. rewrite Hrun by (intros x Hx; apply in_range_from_zero in Hx; lia).
  clear Hrun. split.
  - intros [H26 Hlen].
    replace (forallb _ (Py.range 0 nx 1)) with true; [reflexivity|].
    symmetry. apply forallb_forall. intros x Hx. apply in_range_from_zero in Hx.
    apply forallb_forall. intros y Hy. apply in_range_from_zero in Hy.
    apply Z.ltb_lt. nia.
  - intros Hover.
    destruct (forallb _ (Py.range 0 nx 1)) eqn:E; [|reflexivity].
    rewrite forallb_forall in E.
    specialize (E (nx - 1)%Z ltac:(apply in_range_from_zero; lia)).
    rewrite forallb_forall in E.
    specialize (E (ny - 1)%Z ltac:(apply in_range_from_zero; lia)).
    apply Z.ltb_lt in E. nia.
Qed.

End LayoutOutcome.

Lemma patch_translation_needs_letters_and_patches_witness :
  (1 <= 3)%Z /\ (1 <= 9)%Z /\
  ((26 < 3 * 9)%Z \/ (Z.of_nat (length (seq 0 27)) < 3 * 9)%Z) /\
  fst (PatchLayout.patch_translation {| PatchLayout.column := 1; PatchLayout.row := 1 |}
         3 9 10 (Some <$> seq 0 27) fresh_store)
  = Py.Raise Py.IndexError.
Proof.
  assert (1 <= 3)%Z as Hnx by lia.
  assert (1 <= 9)%Z as Hny by lia.
  assert ((26 < 3 * 9)%Z \/ (Z.of_nat (length (seq 0 27)) < 3 * 9)%Z) as Hover
    by (left; lia).
  split; [exact Hnx|]. split; [exact Hny|]. split; [exact Hover|].
  exact (proj2 (patch_translation_needs_letters_and_patches 9 10 (seq 0 27)
                  {| PatchLayout.column := 1; PatchLayout.row := 1 |} 3 fresh_store
                  Hnx Hny) Hover).
Defined.

(** ** Patch layout: what is shown before and after a rotation *)

Lemma getitem_lookup {A} (l : list A) (i : Z) :
  (0 <= i < Z.of_nat (length l))%Z ->
  Py.getitem l i = match l !! Z.to_nat i with
                   | Some a => Py.Ok a
                   | None => Py.Raise Py.IndexError
                   end.
Proof.
  intros Hi.
  destruct (lookup_lt_is_Some_2 l (Z.to_nat i) ltac:(lia)) as [a Ha].
  rewrite Ha. rewrite <- (Z2Nat.id i) at 1 by lia. now apply getitem_at.
Qed.

Lemma label_at_same_cell (store : PatchLayout.Store)
    (patches patches' : list (option PatchLayout.ref)) (i i' : Z) :
  (0 <= i < Z.of_nat (length patches))%Z ->
  (0 <= i' < Z.of_nat (length patches'))%Z ->
  patches !! Z.to_nat i = patches' !! Z.to_nat i' ->
  label_at store patches i = label_at store patches' i'.
Proof.
  intros Hi Hi' Hcell. unfold label_at, PatchLayout.patch_at.
  now rewrite !getitem_lookup, Hcell by assumption.
Qed.

Lemma collect_row_labels (ny y : Z) (patches : list (option PatchLayout.ref))
    (store : PatchLayout.Store) :
  forall (xs : list Z) (row : list string),
    (forall x, In x xs -> is_Some (label_at store patches (y + ny * x))) ->
    PatchLayout.collect_row ny y patches store xs row
    = Py.Ok (row ++ map (shown store patches ny y) xs).
Proof.
  induction xs as [|x rest IH]; intros row Hlabels.
  - cbn. now rewrite app_nil_r.
  - cbn [PatchLayout.collect_row map].
    destruct (Hlabels x (or_introl eq_refl)) as [l Hl].
    unfold shown at 1. rewrite Hl. cbn [default].
    unfold label_at in Hl.
    destruct (PatchLayout.patch_at patches (y + ny * x)) as [r|e]; [|discriminate Hl].
    cbn [Py.rbind]. rewrite Hl.
    rewrite IH by (intros x' Hx'; apply Hlabels; now right).
    now rewrite <- app_assoc.
Qed.

Lemma print_rows_lines (nx ny : Z) (patches : list (option PatchLayout.ref))
    (store : PatchLayout.Store) :
  forall (ys : list Z) (printed : list string),
    (forall y x, In y ys -> (0 <= x < nx)%Z ->
       is_Some (label_at store patches (y + ny * x))) ->
    PatchLayout.print_rows nx ny patches store ys printed
    = (Py.Ok tt,
       printed ++ map (fun y =>
                         ("[" ++ PatchLayout.join ", "
                                   (map (shown store patches ny y) (Py.range 0 nx 1))
                              ++ "]")%string) ys).
Proof.
  induction ys as [|y rest IH]; intros printed Hlabels.
  - cbn. now rewrite app_nil_r.
  - cbn [PatchLayout.print_rows map].
    rewrite collect_row_labels
      by (intros x Hx; apply Hlabels; [now left | now apply in_range_from_zero]).
    cbn [app].
    rewrite IH by (intros y' x Hy' Hx; apply Hlabels; [now right | exact Hx]).
    now rewrite <- app_assoc.
Qed.

(** On a grid of labelled patches [print_patches_matrix] prints the matrix
    the list stands for. *)
Lemma print_patches_matrix_shows (nx ny : Z) (patches : list (option PatchLayout.ref))
    (title : string) (store : PatchLayout.Store) (printed : list string) :
  (forall x y, (0 <= x < nx)%Z -> (0 <= y < ny)%Z ->
     is_Some (label_at store patches (y + ny * x))) ->
  PatchLayout.print_patches_matrix patches nx ny title store printed
  = (Py.Ok tt, printed ++ printed_matrix title nx ny (shown store patches ny)).
Proof.
  intros Hlabels. unfold PatchLayout.print_patches_matrix.
  rewrite print_rows_lines
    by (intros y x Hy Hx; apply Hlabels; [exact Hx | now apply in_range_from_zero]).
  unfold printed_matrix. now rewrite <- !app_assoc.
Qed.

Lemma printed_matrix_ext (title : string) (nx ny : Z) (cell cell' : Z -> Z -> string) :
  (forall x y, (0 <= x < nx)%Z -> (0 <= y < ny)%Z -> cell y x = cell' y x) ->
  printed_matrix title nx ny cell = printed_matrix title nx ny cell'.
Proof.
  intros Hcells. unfold printed_matrix. do 2 f_equal.
  apply map_ext_in. intros y Hy. apply in_range_from_zero in Hy.
  do 3 f_equal. apply map_ext_in. intros x Hx. apply in_range_from_zero in Hx.
  now apply Hcells.
Qed.

Lemma cell_of_square (n x y : Z) :
  (0 <= x < n)%Z -> (0 <= y < n)%Z ->
  (0 <= y + n * x < n * n)%Z /\ ((x + n * y) mod n = x)%Z /\ ((x + n * y) / n = y)%Z.
Proof.
  intros Hx Hy. split; [nia|]. split.
  - symmetry. apply (Z.mod_unique _ _ y); lia.
  - symmetry. apply (Z.div_unique _ _ _ x); lia.
Qed.

(** How the shown matrix changes when the list is rearranged cell by
    cell. *)
Lemma shown_after_move (n : Z) (store : PatchLayout.Store)
    (patches rotated : list (option PatchLayout.ref)) (from : Z -> Z -> Z) :
  length patches = Z.to_nat (n * n) ->
  length rotated = Z.to_nat (n * n) ->
  (forall x y, (0 <= x < n)%Z -> (0 <= y < n)%Z ->
     (0 <= from y x < n * n)%Z /\
     rotated !! Z.to_nat (y + n * x) = patches !! Z.to_nat (from y x)) ->
  (forall i, (0 <= i < n * n)%Z -> is_Some (label_at store patches i)) ->
  (forall x y, (0 <= x < n)%Z -> (0 <= y < n)%Z ->
     is_Some (label_at store rotated (y + n * x))) /\
  (forall x y, (0 <= x < n)%Z -> (0 <= y < n)%Z ->
     default EmptyString (label_at store rotated (y + n * x))
     = default EmptyString (label_at store patches (from y x))).
Proof.
  intros Hlen Hlen' Hmove Hlabels.
  assert (forall x y, (0 <= x < n)%Z -> (0 <= y < n)%Z ->
            label_at store rotated (y + n * x) = label_at store patches (from y x)) as Hsame.
  { intros x y Hx Hy. destruct (Hmove x y Hx Hy) as [Hfrom Hcell].
    destruct (cell_of_square n x y Hx Hy) as [Hi _].
    apply label_at_same_cell; [lia | lia | exact Hcell]. }
  split; intros x y Hx Hy; rewrite (Hsame x y Hx Hy); [|reflexivity].
  apply Hlabels. now destruct (Hmove x y Hx Hy).
Qed.

(** X22. On a square grid of labelled patches ([n >= 1], [n * n] cells)
    [print_patches_matrix] shows the list returned by [patch_pos_update] as
    the matrix it shows for the original list, turned: after [ROT_90] row [y],
    column [x] is what was row [n - 1 - x], column [y] (a quarter turn
    clockwise on the page); after [ROT_180] it is what was row [n - 1 - y],
    column [n - 1 - x]; after [ROT_270] it is what was row [x], column
    [n - 1 - y] (a quarter turn anticlockwise). *)
Theorem rotation_turns_the_shown_matrix
    (n : Z) (patches : list (option PatchLayout.ref)) (store : PatchLayout.Store)
    (title : string) (printed : list string) :
  (1 <= n)%Z ->
  length patches = Z.to_nat (n * n) ->
  (forall i, (0 <= i < n * n)%Z -> is_Some (label_at store patches i)) ->
  let before := shown store patches n in
  PatchLayout.print_patches_matrix patches n n title store printed
  = (Py.Ok tt, printed ++ printed_matrix title n n before) /\
  (exists rotated,
     PatchRotation.patch_pos_update PatchRotation.ROT_90 n n patches = Py.Ok rotated /\
     PatchLayout.print_patches_matrix rotated n n title store printed
     = (Py.Ok tt,
        printed ++ printed_matrix title n n (fun y x => before (n - 1 - x) y)%Z)) /\
  (exists rotated,
     PatchRotation.patch_pos_update PatchRotation.ROT_180 n n patches = Py.Ok rotated /\
     PatchLayout.print_patches_matrix rotated n n title store printed
     = (Py.Ok tt,
        printed ++ printed_matrix title n n (fun y x => before (n - 1 - y) (n - 1 - x))%Z)) /\
  (exists rotated,
     PatchRotation.patch_pos_update PatchRotation.ROT_270 n n patches = Py.Ok rotated /\
     PatchLayout.print_patches_matrix rotated n n title store printed
     = (Py.Ok tt,
        printed ++ printed_matrix title n n (fun y x => before x (n - 1 - y))%Z)).
Proof.
  intros Hn Hlen Hlabels before.
  assert (forall rotated (from : Z -> Z -> Z),
            length rotated = Z.to_nat (n * n) ->
            (forall x y, (0 <= x < n)%Z -> (0 <= y < n)%Z ->
               (0 <= from y x < n * n)%Z /\
               rotated !! Z.to_nat (y + n * x) = patches !! Z.to_nat (from y x)) ->
            PatchLayout.print_patches_matrix rotated n n title store printed
            = (Py.Ok tt,
               printed ++ printed_matrix title n n
                            (fun y x => default EmptyString
                                          (label_at store patches (from y x))))) as Hshow.
  { intros rotated from Hlen' Hmove.
    destruct (shown_after_move n store patches rotated from Hlen Hlen' Hmove Hlabels)
      as [Hl Hs].
    rewrite print_patches_matrix_shows by exact Hl.
    do 2 f_equal. apply printed_matrix_ext. intros x y Hx Hy.
    unfold shown. now apply Hs. }
  split; [|split; [|split]].
  - apply print_patches_matrix_shows. intros x y Hx Hy. apply Hlabels.
    now destruct (cell_of_square n x y Hx Hy).
  - destruct (quarter_turn_moves n patches Hn Hlen) as (rotated & Hrot & Hlen' & Hmove).
    exists rotated. split; [exact Hrot|].
    rewrite (Hshow rotated (fun y x => (n - 1 - x) + n * y)%Z Hlen').
    + reflexivity.
    + intros x y Hx Hy.
      destruct (cell_of_square n y (n - 1 - x) Hy ltac:(lia)) as (Hi & _ & _).
      destruct (cell_of_square n (n - 1 - x) y ltac:(lia) Hy) as (_ & Hmod & Hdiv).
      split; [nia|].
      rewrite <- Hmove by nia. unfold quarter_turn. rewrite Hmod, Hdiv.
      f_equal. f_equal. lia.
  - destruct (half_turn_moves n patches Hn Hlen) as (rotated & Hrot & Hlen' & Hmove).
    exists rotated. split; [exact Hrot|].
    rewrite (Hshow rotated (fun y x => (n - 1 - y) + n * (n - 1 - x))%Z Hlen').
    + reflexivity.
    + intros x y Hx Hy.
      destruct (cell_of_square n (n - 1 - y) (n - 1 - x) ltac:(lia) ltac:(lia))
        as (_ & Hmod & Hdiv).
      split; [nia|].
      rewrite <- Hmove by nia. unfold half_turn. rewrite Hmod, Hdiv.
      f_equal. f_equal. lia.
  - destruct (three_quarter_turn_moves n patches Hn Hlen)
      as (rotated & Hrot & Hlen' & Hmove).
    exists rotated. split; [exact Hrot|].
    rewrite (Hshow rotated (fun y x => x + n * (n - 1 - y))%Z Hlen').
    + reflexivity.
    + intros x y Hx Hy.
      destruct (cell_of_square n x (n - 1 - y) Hx ltac:(lia)) as (_ & Hmod & Hdiv).
      split; [nia|].
      rewrite <- Hmove by nia. unfold three_quarter_turn. rewrite Hmod, Hdiv.
      f_equal. f_equal. lia.
Qed.

Lemma rotation_turns_the_shown_matrix_witness :
  (1 <= 2)%Z /\
  length (Some <$> [0; 1; 2; 3]%nat) = Z.to_nat (2 * 2) /\
  (forall i, (0 <= i < 2 * 2)%Z ->
     is_Some (label_at lettered_store (Some <$> [0; 1; 2; 3]%nat) i)) /\
  exists rotated,
    PatchRotation.patch_pos_update PatchRotation.ROT_90 2 2 (Some <$> [0; 1; 2; 3]%nat)
    = Py.Ok rotated /\
    PatchLayout.print_patches_matrix rotated 2 2 "Rotated" lettered_store []
    = (Py.Ok tt,
       [] ++ printed_matrix "Rotated" 2 2
               (fun y x => shown lettered_store (Some <$> [0; 1; 2; 3]%nat) 2 (2 - 1 - x) y)%Z).
Proof.
  assert (1 <= 2)%Z as Hn by lia.
  assert (forall i, (0 <= i < 2 * 2)%Z ->
            is_Some (label_at lettered_store (Some <$> [0; 1; 2; 3]%nat) i)) as Hlabels.
  { intros i Hi. unfold label_at.
    destruct (patch_at_refs [0; 1; 2; 3]%nat i ltac:(cbn; lia)) as (r & _ & ->).
    eexists. reflexivity. }
  split; [exact Hn|]. split; [reflexivity|]. split; [exact Hlabels|].
  exact (proj1 (proj2 (rotation_turns_the_shown_matrix 2 (Some <$> [0; 1; 2; 3]%nat)
                         lettered_store "Rotated" [] Hn eq_refl Hlabels))).
Defined.

(** The first block of [test_case(2, 2)] on four new patches: what it
    prints before and after the rotation by 90 degrees. *)
Example two_by_two_demo :
  exists store rotated,
    PatchLayout.patch_translation {| PatchLayout.column := 1; PatchLayout.row := 1 |}
      2 2 10 (Some <$> [0; 1; 2; 3]%nat) fresh_store
    = (Py.Ok "R2_OK"%string, store) /\
    PatchLayout.print_patches_matrix (Some <$> [0; 1; 2; 3]%nat) 2 2
      "Original Positions" store []
    = (Py.Ok tt, ["Original Positions:"; "[A, C]"; "[B, D]"; EmptyString]%string) /\
    PatchRotation.patch_pos_update PatchRotation.ROT_90 2 2 (Some <$> [0; 1; 2; 3]%nat)
    = Py.Ok rotated /\
    PatchLayout.print_patches_matrix rotated 2 2 "Positions After 90' Rotation" store []
    = (Py.Ok tt, ["Positions After 90' Rotation:"; "[B, A]"; "[D, C]"; EmptyString]%string).
Proof.
  eexists _, _. split; [reflexivity|].
  split; [vm_compute; reflexivity|].
  split; [reflexivity|].
  vm_compute. reflexivity.
Qed.
